(** * Sollidly: text capture, hotkeys and overlay

    A shallow embedding of the capture and hotkey core of the Sollidly
    writing assistant (core/text_monitor.py, core/text_monitor_improved.py,
    core/keyboard_hook.py, core/keyboard_hook_improved.py,
    ui/overlay_window.py, ui/circle_menu.py, config.py) and the properties
    its specification states about it.

    Part I embeds the code, one module per source file or concern.
    Part II states and proves the properties of the specification,
    Part III further properties of the code. *)

From Stdlib Require Import ZArith NArith Lia.
From stdpp Require Import base decidable option list gmap strings.

Open Scope Z_scope.

(** * Part I: the embedding *)

(** ** Python values used by the modules *)

Module Py.

(** A Python [str] is a sequence of Unicode code points. *)
Definition pystr := list N.

(** ASCII literals of the source, read as code points. *)
Fixpoint lit (s : string) : pystr :=
  match s with
  | EmptyString => []
  | String a r => Ascii.N_of_ascii a :: lit r
  end.

(** Truthiness of a [str]: only the empty string is false. *)
Definition truthy (s : pystr) : bool :=
  match s with [] => false | _ :: _ => true end.

(** [str.lower] maps code point by code point.  On ASCII it is the usual
    shift of A..Z; the image of the other code points comes from the
    Unicode tables of the interpreter, taken here as [lower_other].  (The
    interpreter's context rule for capital sigma is outside this map.) *)
Definition lower_cp (lower_other : N -> list N) (c : N) : list N :=
  if ((65 <=? c) && (c <=? 90))%N then [(c + 32)%N]
  else if (c <? 128)%N then [c]
  else lower_other c.

Definition lower (lower_other : N -> list N) (s : pystr) : pystr :=
  flat_map (lower_cp lower_other) s.

(** A case table that leaves every non-ASCII code point alone; enough for
    the ASCII examples. *)
Definition ascii_only : N -> list N := fun c => [c].

(** [startswith p s]: [s] starts with [p]. *)
Fixpoint startswith (p s : pystr) : bool :=
  match p, s with
  | [], _ => true
  | _ :: _, [] => false
  | a :: p', b :: s' => if decide (a = b) then startswith p' s' else false
  end.

(** [contains p s] is Python's [p in s] on strings. *)
Fixpoint contains (p s : pystr) : bool :=
  startswith p s ||
  match s with
  | [] => false
  | _ :: s' => contains p s'
  end.

End Py.

(** ** Calls that may raise

    A computation runs on a state [S] and either returns a value or raises
    a Python exception; what it did to the state before raising stays done.
    [Raise] stands for an exception of class Exception, the class the
    handlers of these files catch ([except Exception], or a bare [except]);
    exceptions outside it (SystemExit, KeyboardInterrupt) are not part of
    the model. *)

Module Exec.

Inductive outcome (A : Type) : Type :=
| Ret (a : A)
| Raise.
Arguments Ret {A} a.
Arguments Raise {A}.

Definition exec (S A : Type) : Type := S -> outcome A * S.

Definition ret {S A : Type} (a : A) : exec S A := fun s => (Ret a, s).

Definition raise {S A : Type} : exec S A := fun s => (Raise, s).

Definition bind {S A B : Type} (m : exec S A) (k : A -> exec S B) : exec S B :=
  fun s =>
    match m s with
    | (Ret a, s') => k a s'
    | (Raise, s') => (Raise, s')
    end.

(** [try: body except: handler]. *)
Definition try_except {S A : Type} (body handler : exec S A) : exec S A :=
  fun s =>
    match body s with
    | (Ret a, s') => (Ret a, s')
    | (Raise, s') => handler s'
    end.

Definition get {S : Type} : exec S S := fun s => (Ret s, s).

Definition modify {S : Type} (f : S -> S) : exec S unit := fun s => (Ret tt, f s).

#[global] Instance exec_ret (S : Type) : MRet (exec S) := @ret S.
#[global] Instance exec_bind (S : Type) : MBind (exec S) :=
  fun A B k m => bind m k.

(** The value of a computation that the surrounding code has made total:
    a raise that escapes is read as [dflt]. *)
Definition value_or {A : Type} (dflt : A) (o : outcome A) : A :=
  match o with Ret a => a | Raise => dflt end.

Definition raised {A : Type} (o : outcome A) : bool :=
  match o with Ret _ => false | Raise => true end.

(** [returns m]: no exception leaves [m]. *)
Definition returns {S A : Type} (m : exec S A) : Prop :=
  forall s, raised (fst (m s)) = false.

(** [keeps R m]: the state [m] ends in is [R]-related to the one it started
    in, whether it returns or raises. *)
Definition keeps {S A : Type} (R : relation S) (m : exec S A) : Prop :=
  forall s, R s (snd (m s)).

End Exec.

(** ** Foreground window classification
    (is_text_editor, the same method in text_monitor.py and
    text_monitor_improved.py) *)

Module Window.
Import Py.

(** The dictionary built by get_active_window. *)
Record WindowInfo : Type := {
  hwnd : Z;
  title : pystr;
  class_name : pystr;
  rect : Z * Z * Z * Z
}.

(** The keyword list of is_text_editor, in the order of the source. *)
Definition editor_keywords : list pystr :=
  [ [54620; 44544]%N;            (* U+D55C U+AE00, the Hangul word processor *)
    lit "hwp";
    lit "word";
    [47700; 47784; 51109]%N;     (* U+BA54 U+BAA8 U+C7A5, the notepad *)
    lit "notepad";
    lit "sublime";
    lit "vscode";
    lit "code";
    lit "atom";
    lit "notepad++";
    lit "editplus" ].

(** The loop [for keyword in editor_keywords: if ... return True]. *)
Fixpoint any_keyword (keywords : list pystr) (title class_name : pystr) : bool :=
  match keywords with
  | [] => false
  | keyword :: rest =>
      if contains keyword title || contains keyword class_name then true
      else any_keyword rest title class_name
  end.

(** [window_info] is [None] when get_active_window found no window. *)
Definition is_text_editor (lower_other : N -> list N)
    (window_info : option WindowInfo) : bool :=
  match window_info with
  | None => false
  | Some w =>
      let title := lower lower_other (title w) in
      let class_name := lower lower_other (class_name w) in
      any_keyword editor_keywords title class_name
  end.

End Window.

(** ** core/text_monitor.py: the clipboard round trip *)

Module TextMonitor.
Import Py Exec.

(** A callback is known by the identity of the function object. *)
Definition callable := nat.

Record TextMonitor : Type := {
  is_monitoring : bool;
  monitor_thread : option nat;
  last_text : pystr;
  last_cursor_pos : Z * Z;
  text_change_callback : option callable;
  cursor_change_callback : option callable;
  check_interval : Z;      (* milliseconds *)
  debounce_time : Z;       (* milliseconds *)
  last_change_time : Z     (* milliseconds *)
}.

(** What the monitor does to its surroundings. *)
Inductive event : Type :=
| ClipboardRead
| ClipboardWrite (text : pystr)
| KeysSent (keys : list string)
| TextChanged (callback : callable) (text : pystr)
| CursorChanged (callback : callable) (x y : Z).

(** The desktop the monitor runs on: the system clipboard, the focused
    application (its text and whether the text is selected), and a fault
    schedule telling, for each coming pyperclip or pyautogui call in turn,
    whether it raises ([true]); an exhausted schedule means no more faults. *)
Record desktop : Type := {
  self : TextMonitor;
  clipboard : pystr;
  document : pystr;
  selected : bool;
  faults : list bool;
  trace : list event
}.

Definition set_clipboard (c : pystr) (d : desktop) : desktop :=
  {| self := self d; clipboard := c; document := document d;
     selected := selected d; faults := faults d; trace := trace d |}.

Definition set_selected (b : bool) (d : desktop) : desktop :=
  {| self := self d; clipboard := clipboard d; document := document d;
     selected := b; faults := faults d; trace := trace d |}.

Definition set_faults (f : list bool) (d : desktop) : desktop :=
  {| self := self d; clipboard := clipboard d; document := document d;
     selected := selected d; faults := f; trace := trace d |}.

Definition log (e : event) (d : desktop) : desktop :=
  {| self := self d; clipboard := clipboard d; document := document d;
     selected := selected d; faults := faults d; trace := trace d ++ [e] |}.

(** One pyperclip or pyautogui call: it raises when the schedule says so,
    and then has no effect. *)
Definition platform_call {A : Type} (effect : desktop -> A * desktop) : exec desktop A :=
  fun d =>
    match faults d with
    | true :: rest => (Raise, set_faults rest d)
    | false :: rest => let (a, d') := effect (set_faults rest d) in (Ret a, d')
    | [] => let (a, d') := effect d in (Ret a, d')
    end.

(** pyperclip.paste() *)
Definition paste : exec desktop pystr :=
  platform_call (fun d => (clipboard d, log ClipboardRead d)).

(** pyperclip.copy(text) *)
Definition copy (text : pystr) : exec desktop unit :=
  platform_call (fun d => (tt, log (ClipboardWrite text) (set_clipboard text d))).

(** Modelled from the spec: the focused application is a foreign program,
    no code of the repository.  This is the editor the specification has in
    mind for the clipboard round trip (select-all and copy yield its text,
    escape deselects): Ctrl+A selects its text, Ctrl+C copies a non-empty
    selection, Escape drops the selection, and no key edits the text.  The
    monitor only sends the keys; what is said of the monitor does not rest
    on these answers, except where a capture is said to read the
    document. *)
Definition application (keys : list string) (d : desktop) : desktop :=
  if decide (keys = ["ctrl"; "a"]%string) then set_selected true d
  else if decide (keys = ["ctrl"; "c"]%string) then
    (if selected d && truthy (document d) then set_clipboard (document d) d else d)
  else if decide (keys = ["escape"]%string) then set_selected false d
  else d.

(** pyautogui.hotkey(...) and pyautogui.press(...) *)
Definition hotkey (keys : list string) : exec desktop unit :=
  platform_call (fun d => (tt, log (KeysSent keys) (application keys d))).

Definition press (key : string) : exec desktop unit := hotkey [key].

(** time.sleep(...) has no effect on the model. *)
Definition sleep (ms : Z) : exec desktop unit := mret tt.

(** capture_text_via_clipboard.  The local [captured_text] is what the
    method returns on every path: the empty string until step 5 has run,
    the text read there afterwards; the innermost handler below stands for
    an exception of steps 6-7 reaching the outer [except] with
    [captured_text] already assigned. *)
Definition capture_text_via_clipboard : exec desktop pystr :=
  try_except
    (old_clipboard ← try_except paste (mret []);
     _ ← copy [];
     _ ← hotkey ["ctrl"; "a"]%string;
     _ ← sleep 100;
     _ ← hotkey ["ctrl"; "c"]%string;
     _ ← sleep 200;
     captured_text ← try_except paste (mret []);
     try_except
       (_ ← copy old_clipboard;
        _ ← press "escape";
        _ ← sleep 50;
        mret captured_text)
       (mret captured_text))
    (mret []).

Definition get_last_text (d : desktop) : pystr := last_text (self d).

Definition is_callback (e : event) : bool :=
  match e with
  | TextChanged _ _ | CursorChanged _ _ _ => true
  | _ => false
  end.

(** The callbacks a trace holds, in order. *)
Definition callbacks (t : list event) : list event :=
  filter (fun e => is_callback e = true) t.

(** [d'] has the monitor record of [d] and no callback beyond those of [d]. *)
Definition untouched (d d' : desktop) : Prop :=
  self d' = self d /\ callbacks (trace d') = callbacks (trace d).

(** force_capture *)
Definition force_capture : exec desktop pystr := capture_text_via_clipboard.

(** TextMonitor() with the values of config.TEXT_MONITOR. *)
Definition init : TextMonitor :=
  {| is_monitoring := false; monitor_thread := None; last_text := [];
     last_cursor_pos := (0, 0); text_change_callback := None;
     cursor_change_callback := None; check_interval := 500;
     debounce_time := 2000; last_change_time := 0 |}.

Definition boot (clip doc : pystr) (schedule : list bool) : desktop :=
  {| self := init; clipboard := clip; document := doc; selected := false;
     faults := schedule; trace := [] |}.

End TextMonitor.

(** ** Keys as pynput delivers them, and config.HOTKEYS *)

Module Keys.
Import Py.

(** A member of pynput's [Key] enumeration, by its name, or a [KeyCode]
    with its virtual key code and character. *)
Inductive key : Type :=
| Special (name : string)
| KeyCode (vk : option Z) (char : option pystr).

#[global] Instance key_eq_dec : EqDecision key.
Proof. solve_decision. Defined.

Definition key_to_sum (k : key) : string + option Z * option pystr :=
  match k with
  | Special n => inl n
  | KeyCode v c => inr (v, c)
  end.

Definition key_of_sum (x : string + option Z * option pystr) : key :=
  match x with
  | inl n => Special n
  | inr (v, c) => KeyCode v c
  end.

#[global] Instance key_countable : Countable key.
Proof.
  apply (inj_countable' key_to_sum key_of_sum).
  intros [n | v c]; reflexivity.
Defined.

(** keyboard.KeyCode.from_char *)
Definition from_char (c : pystr) : key := KeyCode None (Some c).

(** The first lines of both handlers:
    [if hasattr(key, 'char') and key.char:
         key = keyboard.KeyCode.from_char(key.char.lower())] *)
Definition normalize (lower_other : N -> list N) (k : key) : key :=
  match k with
  | KeyCode _ (Some c) => if truthy c then from_char (lower lower_other c) else k
  | _ => k
  end.

(** config.HOTKEYS *)
Definition toggle_menu : list pystr := [lit "ctrl"; lit "shift"; lit "s"].
Definition exit_app : list pystr := [lit "ctrl"; lit "shift"; lit "q"].

(** A callback is known by the identity of the function object. *)
Definition callable := nat.

(** [threading.Thread(target=..., daemon=True).start()] at the toggle
    site or at the exit site of a handler. *)
Inductive dispatch : Type :=
| Toggle (target : callable)
| Exit (target : callable).

(** A keyboard.Listener object: the subscription to the key events. *)
Inductive listener_state : Type := Running | Stopped.

#[global] Instance listener_state_eq_dec : EqDecision listener_state.
Proof. solve_decision. Defined.

(** What the listener delivers. *)
Inductive key_event : Type :=
| Down (k : key)
| Up (k : key).

End Keys.

(** ** core/keyboard_hook.py *)

Module KeyboardHook.
Import Py Keys.

Record KeyboardHook : Type := {
  listener : option listener_state;
  callback : option callable;
  exit_callback : option callable;   (* [None] also while the attribute is unset *)
  pressed_keys : gset key;
  is_running : bool;
  hotkey_combo : gset key;
  exit_combo : gset key
}.

(** One round of the loop of _parse_hotkey. *)
Definition parse_key (lower_other : N -> list N) (key_name : pystr) : key :=
  let key_name := lower lower_other key_name in
  if decide (key_name = lit "alt") then Special "alt"
  else if decide (key_name = lit "ctrl") then Special "ctrl"
  else if decide (key_name = lit "shift") then Special "shift"
  else if decide (key_name = lit "enter") then Special "enter"
  else if decide (key_name = lit "esc") then Special "esc"
  else if decide (key_name = lit "space") then Special "space"
  else from_char key_name.

Definition _parse_hotkey (lower_other : N -> list N) (keys : list pystr) : gset key :=
  list_to_set (map (parse_key lower_other) keys).

(** KeyboardHook() *)
Definition init (lower_other : N -> list N) : KeyboardHook :=
  {| listener := None; callback := None; exit_callback := None;
     pressed_keys := ∅; is_running := false;
     hotkey_combo := _parse_hotkey lower_other toggle_menu;
     exit_combo := _parse_hotkey lower_other exit_app |}.

Definition set_pressed (p : gset key) (h : KeyboardHook) : KeyboardHook :=
  {| listener := listener h; callback := callback h;
     exit_callback := exit_callback h; pressed_keys := p;
     is_running := is_running h; hotkey_combo := hotkey_combo h;
     exit_combo := exit_combo h |}.

Definition set_callback (c : callable) (h : KeyboardHook) : KeyboardHook :=
  {| listener := listener h; callback := Some c;
     exit_callback := exit_callback h; pressed_keys := pressed_keys h;
     is_running := is_running h; hotkey_combo := hotkey_combo h;
     exit_combo := exit_combo h |}.

Definition set_exit_callback (c : callable) (h : KeyboardHook) : KeyboardHook :=
  {| listener := listener h; callback := callback h;
     exit_callback := Some c; pressed_keys := pressed_keys h;
     is_running := is_running h; hotkey_combo := hotkey_combo h;
     exit_combo := exit_combo h |}.

(** The toggle test of _on_press on the pressed set [p]: the set is cleared
    inside [if self.callback:]. *)
Definition check_toggle (h : KeyboardHook) (p : gset key) : gset key * list dispatch :=
  if decide (hotkey_combo h ⊆ p) then
    match callback h with
    | Some c => (∅, [Toggle c])
    | None => (p, [])
    end
  else (p, []).

(** The exit test of _on_press, run on the set the toggle test left. *)
Definition check_exit (h : KeyboardHook) (p : gset key) : gset key * list dispatch :=
  if decide (exit_combo h ⊆ p) then
    match exit_callback h with
    | Some c => (∅, [Exit c])
    | None => (p, [])
    end
  else (p, []).

Definition _on_press (lower_other : N -> list N) (h : KeyboardHook) (k : key)
    : KeyboardHook * list dispatch :=
  let k := normalize lower_other k in
  let p0 := {[k]} ∪ pressed_keys h in
  let '(p1, d1) := check_toggle h p0 in
  let '(p2, d2) := check_exit h p1 in
  (set_pressed p2 h, d1 ++ d2).

Definition _on_release (lower_other : N -> list N) (h : KeyboardHook) (k : key)
    : KeyboardHook :=
  let k := normalize lower_other k in
  if decide (k ∈ pressed_keys h) then set_pressed (pressed_keys h ∖ {[k]}) h
  else h.

Definition start (h : KeyboardHook) : KeyboardHook :=
  if is_running h then h
  else
    {| listener := Some Running; callback := callback h;
       exit_callback := exit_callback h; pressed_keys := pressed_keys h;
       is_running := true; hotkey_combo := hotkey_combo h;
       exit_combo := exit_combo h |}.

(** [listener.stop()] leaves a listener stopped, whatever it was. *)
Definition stop (h : KeyboardHook) : KeyboardHook :=
  match listener h with
  | Some _ =>
      {| listener := Some Stopped; callback := callback h;
         exit_callback := exit_callback h; pressed_keys := pressed_keys h;
         is_running := false; hotkey_combo := hotkey_combo h;
         exit_combo := exit_combo h |}
  | None => h
  end.

Definition is_active (h : KeyboardHook) : bool := is_running h.

(** The handler the listener calls for each event. *)
Definition deliver (lower_other : N -> list N) (h : KeyboardHook) (e : key_event)
    : KeyboardHook * list dispatch :=
  match e with
  | Down k => _on_press lower_other h k
  | Up k => (_on_release lower_other h k, [])
  end.

Fixpoint run (lower_other : N -> list N) (h : KeyboardHook) (es : list key_event)
    : KeyboardHook * list dispatch :=
  match es with
  | [] => (h, [])
  | e :: rest =>
      let '(h1, d1) := deliver lower_other h e in
      let '(h2, d2) := run lower_other h1 rest in
      (h2, d1 ++ d2)
  end.

(** The subscription is live exactly while the hook says it runs. *)
Definition consistent (h : KeyboardHook) : Prop :=
  is_running h = true <-> listener h = Some Running.

End KeyboardHook.

(** ** core/keyboard_hook_improved.py *)

Module ImprovedKeyboardHook.
Import Py Exec Keys.

(** hook_method: 'keyboard' or 'pynput'. *)
Inductive method : Type := keyboard | pynput.

(** The variables the handlers of _start_with_pynput close over. *)
Record closure : Type := {
  pressed_keys : gset key;
  toggle_keys : gset key;
  exit_keys : gset key
}.

Record ImprovedKeyboardHook : Type := {
  callback : option callable;
  exit_callback : option callable;
  is_running : bool;
  hook_method : option method;
  hotkey_combo : list pystr;
  exit_combo : list pystr;
  listener : option (listener_state * closure)   (* [None]: attribute not set *)
}.

(** The hook together with the keyboard library's table of registered
    hotkeys and the faults of its coming add_hotkey calls. *)
Record system : Type := {
  hook : ImprovedKeyboardHook;
  registered : list pystr;
  faults : list bool
}.

(** ImprovedKeyboardHook(), given what _detect_available_library found. *)
Definition init (found : option method) : ImprovedKeyboardHook :=
  {| callback := None; exit_callback := None; is_running := false;
     hook_method := found; hotkey_combo := toggle_menu; exit_combo := exit_app;
     listener := None |}.

Definition set_callback (c : callable) (h : ImprovedKeyboardHook) : ImprovedKeyboardHook :=
  {| callback := Some c; exit_callback := exit_callback h;
     is_running := is_running h; hook_method := hook_method h;
     hotkey_combo := hotkey_combo h; exit_combo := exit_combo h;
     listener := listener h |}.

Definition set_exit_callback (c : callable) (h : ImprovedKeyboardHook) : ImprovedKeyboardHook :=
  {| callback := callback h; exit_callback := Some c;
     is_running := is_running h; hook_method := hook_method h;
     hotkey_combo := hotkey_combo h; exit_combo := exit_combo h;
     listener := listener h |}.

Definition set_running (b : bool) (h : ImprovedKeyboardHook) : ImprovedKeyboardHook :=
  {| callback := callback h; exit_callback := exit_callback h;
     is_running := b; hook_method := hook_method h;
     hotkey_combo := hotkey_combo h; exit_combo := exit_combo h;
     listener := listener h |}.

Definition set_listener (l : option (listener_state * closure))
    (h : ImprovedKeyboardHook) : ImprovedKeyboardHook :=
  {| callback := callback h; exit_callback := exit_callback h;
     is_running := is_running h; hook_method := hook_method h;
     hotkey_combo := hotkey_combo h; exit_combo := exit_combo h;
     listener := l |}.

(** _format_hotkey_string: ['ctrl', 'shift', 's'] gives 'ctrl+shift+s'. *)
Fixpoint _format_hotkey_string (keys : list pystr) : pystr :=
  match keys with
  | [] => []
  | [k] => k
  | k :: rest => k ++ lit "+" ++ _format_hotkey_string rest
  end.

(** keyboard.add_hotkey(hotkey, ...) *)
Definition add_hotkey (hotkey : pystr) : exec system unit :=
  fun s =>
    match faults s with
    | true :: rest =>
        (Raise, {| hook := hook s; registered := registered s; faults := rest |})
    | false :: rest =>
        (Ret tt, {| hook := hook s; registered := registered s ++ [hotkey]; faults := rest |})
    | [] =>
        (Ret tt, {| hook := hook s; registered := registered s ++ [hotkey]; faults := [] |})
    end.

Definition update_hook (f : ImprovedKeyboardHook -> ImprovedKeyboardHook) : exec system unit :=
  modify (fun s => {| hook := f (hook s); registered := registered s; faults := faults s |}).

(** _start_with_keyboard_lib: the two registrations and the flag sit in
    one [try]; the admin check before it only prints. *)
Definition _start_with_keyboard_lib : exec system unit :=
  s ← get;
  let toggle_hotkey := _format_hotkey_string (hotkey_combo (hook s)) in
  let exit_hotkey := _format_hotkey_string (exit_combo (hook s)) in
  try_except
    (_ ← add_hotkey toggle_hotkey;
     _ ← add_hotkey exit_hotkey;
     update_hook (set_running true))
    (mret tt).

(** One round of the loop of the inner parse_hotkey (no "space" here). *)
Definition parse_key (lower_other : N -> list N) (key_name : pystr) : key :=
  let key_name := lower lower_other key_name in
  if decide (key_name = lit "alt") then Special "alt"
  else if decide (key_name = lit "ctrl") then Special "ctrl"
  else if decide (key_name = lit "shift") then Special "shift"
  else if decide (key_name = lit "enter") then Special "enter"
  else if decide (key_name = lit "esc") then Special "esc"
  else from_char key_name.

Definition parse_hotkey (lower_other : N -> list N) (keys : list pystr) : gset key :=
  list_to_set (map (parse_key lower_other) keys).

Definition set_pressed (p : gset key) (c : closure) : closure :=
  {| pressed_keys := p; toggle_keys := toggle_keys c; exit_keys := exit_keys c |}.

(** The toggle test of on_press: the set is cleared on every match. *)
Definition check_toggle (h : ImprovedKeyboardHook) (c : closure) (p : gset key)
    : gset key * list dispatch :=
  if decide (toggle_keys c ⊆ p) then
    (∅, match callback h with Some f => [Toggle f] | None => [] end)
  else (p, []).

(** The exit test of on_press, run on the set the toggle test left. *)
Definition check_exit (h : ImprovedKeyboardHook) (c : closure) (p : gset key)
    : gset key * list dispatch :=
  if decide (exit_keys c ⊆ p) then
    (∅, match exit_callback h with Some f => [Exit f] | None => [] end)
  else (p, []).

(** on_press of _start_with_pynput; the callbacks are read from the hook
    when the key arrives. *)
Definition on_press (lower_other : N -> list N) (h : ImprovedKeyboardHook)
    (c : closure) (k : key) : closure * list dispatch :=
  let k := normalize lower_other k in
  let p0 := {[k]} ∪ pressed_keys c in
  let '(p1, d1) := check_toggle h c p0 in
  let '(p2, d2) := check_exit h c p1 in
  (set_pressed p2 c, d1 ++ d2).

Definition on_release (lower_other : N -> list N) (c : closure) (k : key) : closure :=
  let k := normalize lower_other k in
  if decide (k ∈ pressed_keys c) then set_pressed (pressed_keys c ∖ {[k]}) c
  else c.

Definition deliver (lower_other : N -> list N) (h : ImprovedKeyboardHook)
    (c : closure) (e : key_event) : closure * list dispatch :=
  match e with
  | Down k => on_press lower_other h c k
  | Up k => (on_release lower_other c k, [])
  end.

Fixpoint run (lower_other : N -> list N) (h : ImprovedKeyboardHook)
    (c : closure) (es : list key_event) : closure * list dispatch :=
  match es with
  | [] => (c, [])
  | e :: rest =>
      let '(c1, d1) := deliver lower_other h c e in
      let '(c2, d2) := run lower_other h c1 rest in
      (c2, d1 ++ d2)
  end.

(** The closure a fresh listener starts with. *)
Definition fresh_closure (lower_other : N -> list N) (h : ImprovedKeyboardHook) : closure :=
  {| pressed_keys := ∅;
     toggle_keys := parse_hotkey lower_other (hotkey_combo h);
     exit_keys := parse_hotkey lower_other (exit_combo h) |}.

Definition _start_with_pynput (lower_other : N -> list N) : exec system unit :=
  update_hook (fun h =>
    set_running true (set_listener (Some (Running, fresh_closure lower_other h)) h)).

Definition start (lower_other : N -> list N) : exec system unit :=
  s ← get;
  if is_running (hook s) then mret tt
  else
    match hook_method (hook s) with
    | None => mret tt
    | Some keyboard => _start_with_keyboard_lib
    | Some pynput => _start_with_pynput lower_other
    end.

(** keyboard.unhook_all() *)
Definition unhook_all : exec system unit :=
  modify (fun s => {| hook := hook s; registered := []; faults := faults s |}).

Definition stop_listener (h : ImprovedKeyboardHook) : ImprovedKeyboardHook :=
  match listener h with
  | Some (_, c) => set_listener (Some (Stopped, c)) h
  | None => h
  end.

Definition stop : exec system unit :=
  s ← get;
  if negb (is_running (hook s)) then mret tt
  else
    _ ← match hook_method (hook s) with
        | Some keyboard => unhook_all
        | Some pynput => update_hook stop_listener
        | None => mret tt
        end;
    update_hook (set_running false).

Definition is_active (s : system) : bool := is_running (hook s).

End ImprovedKeyboardHook.

(** ** core/text_monitor_improved.py *)

Module ImprovedTextMonitor.
Import Py Exec Window.

Definition callable := nat.

(** Times are wall-clock readings in milliseconds (the source holds them in
    seconds: check_interval 0.5, debounce_time 2.0, typing_timeout 3.0). *)
Record ImprovedTextMonitor : Type := {
  is_monitoring : bool;
  monitor_thread : option nat;
  last_text : pystr;
  last_cursor_pos : Z * Z;
  text_change_callback : option callable;
  cursor_change_callback : option callable;
  check_interval : Z;
  debounce_time : Z;
  last_change_time : Z;
  is_typing : bool;
  typing_timeout : Z
}.

(** ImprovedTextMonitor() with the values of config.TEXT_MONITOR. *)
Definition init : ImprovedTextMonitor :=
  {| is_monitoring := false; monitor_thread := None; last_text := [];
     last_cursor_pos := (0, 0); text_change_callback := None;
     cursor_change_callback := None; check_interval := 500;
     debounce_time := 2000; last_change_time := 0; is_typing := false;
     typing_timeout := 3000 |}.

(** The accessibility element of a window: what its value pattern and its
    text pattern answer. *)
Record element : Type := {
  CurrentValue : outcome pystr;
  GetText : outcome pystr
}.

(** What the operating system answers during one tick of the loop. *)
Record platform : Type := {
  GetForegroundWindow : outcome Z;
  GetWindowText : Z -> outcome pystr;
  GetClassName : Z -> outcome pystr;
  GetWindowRect : Z -> outcome (Z * Z * Z * Z);
  position : outcome (Z * Z);                 (* pyautogui.position() *)
  SendMessageW : Z -> outcome (Z * list N);   (* WM_GETTEXT: length, buffer *)
  CreateObject : outcome unit;                (* the UI Automation client *)
  ElementFromHandle : Z -> outcome element;
  time_in_detect_typing : Z;                  (* time.time() in detect_typing *)
  time_in_loop : Z;                           (* time.time() in the loop body *)
  callback_raises : callable -> bool
}.

(** What the monitor does to its surroundings. *)
Inductive event : Type :=
| WindowQueried
| PointerQueried
| MessageSent (hwnd : Z)
| AutomationQueried (hwnd : Z)
| CursorChanged (callback : callable) (x y : Z)
| TextChanged (callback : callable) (text : pystr)
| Slept (ms : Z)
| StopReturned.

Record sys : Type := {
  self : ImprovedTextMonitor;
  trace : list event
}.

Definition log (e : event) (s : sys) : sys :=
  {| self := self s; trace := trace s ++ [e] |}.

Definition update_self (f : ImprovedTextMonitor -> ImprovedTextMonitor) : exec sys unit :=
  modify (fun s => {| self := f (self s); trace := trace s |}).

(** A call into the operating system: noted in the trace, answered by the
    platform. *)
Definition os_call {A : Type} (e : event) (answer : outcome A) : exec sys A :=
  fun s => (answer, log e s).

(** A further call on an object already obtained. *)
Definition answer {A : Type} (a : outcome A) : exec sys A := fun s => (a, s).

(** Calling a registered callback, which may raise. *)
Definition invoke (e : event) (raises : bool) : exec sys unit :=
  fun s => (if raises then Raise else Ret tt, log e s).

Definition set_is_monitoring (b : bool) (m : ImprovedTextMonitor) : ImprovedTextMonitor :=
  {| is_monitoring := b; monitor_thread := monitor_thread m;
     last_text := last_text m; last_cursor_pos := last_cursor_pos m;
     text_change_callback := text_change_callback m;
     cursor_change_callback := cursor_change_callback m;
     check_interval := check_interval m; debounce_time := debounce_time m;
     last_change_time := last_change_time m; is_typing := is_typing m;
     typing_timeout := typing_timeout m |}.

Definition set_monitor_thread (t : option nat) (m : ImprovedTextMonitor) : ImprovedTextMonitor :=
  {| is_monitoring := is_monitoring m; monitor_thread := t;
     last_text := last_text m; last_cursor_pos := last_cursor_pos m;
     text_change_callback := text_change_callback m;
     cursor_change_callback := cursor_change_callback m;
     check_interval := check_interval m; debounce_time := debounce_time m;
     last_change_time := last_change_time m; is_typing := is_typing m;
     typing_timeout := typing_timeout m |}.

Definition set_last_text (t : pystr) (m : ImprovedTextMonitor) : ImprovedTextMonitor :=
  {| is_monitoring := is_monitoring m; monitor_thread := monitor_thread m;
     last_text := t; last_cursor_pos := last_cursor_pos m;
     text_change_callback := text_change_callback m;
     cursor_change_callback := cursor_change_callback m;
     check_interval := check_interval m; debounce_time := debounce_time m;
     last_change_time := last_change_time m; is_typing := is_typing m;
     typing_timeout := typing_timeout m |}.

Definition set_last_cursor_pos (c : Z * Z) (m : ImprovedTextMonitor) : ImprovedTextMonitor :=
  {| is_monitoring := is_monitoring m; monitor_thread := monitor_thread m;
     last_text := last_text m; last_cursor_pos := c;
     text_change_callback := text_change_callback m;
     cursor_change_callback := cursor_change_callback m;
     check_interval := check_interval m; debounce_time := debounce_time m;
     last_change_time := last_change_time m; is_typing := is_typing m;
     typing_timeout := typing_timeout m |}.

Definition set_last_change_time (t : Z) (m : ImprovedTextMonitor) : ImprovedTextMonitor :=
  {| is_monitoring := is_monitoring m; monitor_thread := monitor_thread m;
     last_text := last_text m; last_cursor_pos := last_cursor_pos m;
     text_change_callback := text_change_callback m;
     cursor_change_callback := cursor_change_callback m;
     check_interval := check_interval m; debounce_time := debounce_time m;
     last_change_time := t; is_typing := is_typing m;
     typing_timeout := typing_timeout m |}.

Definition set_text_change_callback (c : callable) (m : ImprovedTextMonitor) : ImprovedTextMonitor :=
  {| is_monitoring := is_monitoring m; monitor_thread := monitor_thread m;
     last_text := last_text m; last_cursor_pos := last_cursor_pos m;
     text_change_callback := Some c;
     cursor_change_callback := cursor_change_callback m;
     check_interval := check_interval m; debounce_time := debounce_time m;
     last_change_time := last_change_time m; is_typing := is_typing m;
     typing_timeout := typing_timeout m |}.

Definition set_cursor_change_callback (c : callable) (m : ImprovedTextMonitor) : ImprovedTextMonitor :=
  {| is_monitoring := is_monitoring m; monitor_thread := monitor_thread m;
     last_text := last_text m; last_cursor_pos := last_cursor_pos m;
     text_change_callback := text_change_callback m;
     cursor_change_callback := Some c;
     check_interval := check_interval m; debounce_time := debounce_time m;
     last_change_time := last_change_time m; is_typing := is_typing m;
     typing_timeout := typing_timeout m |}.

(** [pass] *)
Definition pass : exec sys unit := mret tt.

(** get_active_window: [None] when there is no foreground window or a call
    raised. *)
Definition get_active_window (p : platform) : exec sys (option WindowInfo) :=
  try_except
    (h ← os_call WindowQueried (GetForegroundWindow p);
     if decide (h = 0) then mret None
     else
       t ← answer (GetWindowText p h);
       c ← answer (GetClassName p h);
       r ← answer (GetWindowRect p h);
       mret (Some {| hwnd := h; title := t; class_name := c; rect := r |}))
    (mret None).

Definition get_cursor_position (p : platform) : exec sys (Z * Z) :=
  try_except (os_call PointerQueried (position p)) (mret (0, 0)).

(** [buffer.value] of a 65536-unit buffer: the units before the first NUL. *)
Fixpoint until_nul (units : list N) : pystr :=
  match units with
  | [] => []
  | u :: rest => if decide (u = 0%N) then [] else u :: until_nul rest
  end.

Definition buffer_size : nat := Z.to_nat 65536.

Definition buffer_value (written : list N) : pystr :=
  until_nul (firstn buffer_size written).

Definition capture_text_via_window_message (p : platform) (hwnd : Z) : exec sys pystr :=
  try_except
    ('(length, buffer) ← os_call (MessageSent hwnd) (SendMessageW p hwnd);
     if decide (length > 0) then mret (buffer_value buffer) else mret [])
    (mret []).

Definition capture_text_via_uiautomation (p : platform) (hwnd : Z) : exec sys pystr :=
  try_except
    (_ ← os_call (AutomationQueried hwnd) (CreateObject p);
     element ← answer (ElementFromHandle p hwnd);
     try_except
       (answer (CurrentValue element))
       (try_except (answer (GetText element)) (mret [])))
    (mret []).

Definition capture_text_smart (p : platform) (hwnd : Z) : exec sys pystr :=
  text ← capture_text_via_window_message p hwnd;
  if truthy text then mret text
  else
    text ← capture_text_via_uiautomation p hwnd;
    if truthy text then mret text else mret [].

Definition detect_typing (p : platform) : exec sys bool :=
  s ← get;
  let current_time := time_in_detect_typing p in
  if decide (current_time - last_change_time (self s) < typing_timeout (self s))
  then mret true
  else mret false.

(** The cursor part of one tick. *)
Definition watch_cursor (p : platform) : exec sys unit :=
  cursor_pos ← get_cursor_position p;
  s ← get;
  if decide (cursor_pos = last_cursor_pos (self s)) then pass
  else
    _ ← update_self (set_last_cursor_pos cursor_pos);
    match cursor_change_callback (self s) with
    | Some c => invoke (CursorChanged c (fst cursor_pos) (snd cursor_pos)) (callback_raises p c)
    | None => pass
    end.

(** The text part of one tick. *)
Definition watch_text (p : platform) (w : WindowInfo) : exec sys unit :=
  typing ← detect_typing p;
  if (typing : bool) then pass
  else
    let current_time := time_in_loop p in
    s ← get;
    if decide (current_time - last_change_time (self s) >= debounce_time (self s)) then
      captured_text ← capture_text_smart p (hwnd w);
      s ← get;
      if truthy captured_text && negb (bool_decide (captured_text = last_text (self s))) then
        _ ← update_self (fun m => set_last_change_time current_time (set_last_text captured_text m));
        match text_change_callback (self s) with
        | Some c => invoke (TextChanged c captured_text) (callback_raises p c)
        | None => pass
        end
      else pass
    else pass.

(** The [try] block of the loop body, with its [except Exception] that only
    prints. *)
Definition tick (lower_other : N -> list N) (p : platform) : exec sys unit :=
  try_except
    (window_info ← get_active_window p;
     match window_info with
     | Some w =>
         if is_text_editor lower_other window_info then
           _ ← watch_cursor p;
           watch_text p w
         else pass
     | None => pass
     end)
    (pass).

Definition get_last_text (s : sys) : pystr := last_text (self s).

Definition force_capture (p : platform) (hwnd : Z) : exec sys pystr :=
  capture_text_smart p hwnd.

(** *** The loop as a thread

    Where the thread running _monitoring_loop stands: at the [while] test,
    inside the [try] block (whose calls can block), at the sleep, or past
    the loop. *)
Inductive pc : Type := AtTest | InTick | AtSleep | Finished.

#[global] Instance pc_eq_dec : EqDecision pc.
Proof. solve_decision. Defined.

(** The monitor, its trace, and the thread of the loop once there is one. *)
Record process : Type := {
  state : sys;
  loop : option pc
}.

(** What can happen next: the loop thread advances by one step (its tick
    answered by [p]); another thread calls start_monitoring; a thread
    calling stop_monitoring clears the flag; its [join(timeout=2.0)] comes
    back because the loop ended, or because the two seconds ran out. *)
Inductive action : Type :=
| LoopStep (p : platform)
| StartMonitoring (thread : nat)
| StopClearsFlag
| StopJoined
| StopTimedOut.

Definition loop_step (lower_other : N -> list N) (p : platform) (pr : process) : process :=
  match loop pr with
  | Some AtTest =>
      if is_monitoring (self (state pr))
      then {| state := state pr; loop := Some InTick |}
      else {| state := state pr; loop := Some Finished |}
  | Some InTick =>
      {| state := snd (tick lower_other p (state pr)); loop := Some AtSleep |}
  | Some AtSleep =>
      {| state := log (Slept (check_interval (self (state pr)))) (state pr);
         loop := Some AtTest |}
  | Some Finished => pr
  | None => pr
  end.

(** start_monitoring *)
Definition start_monitoring (thread : nat) (pr : process) : process :=
  if is_monitoring (self (state pr)) then pr
  else
    {| state :=
         {| self := set_monitor_thread (Some thread)
                      (set_is_monitoring true (self (state pr)));
            trace := trace (state pr) |};
       loop := Some AtTest |}.

(** The first statement of stop_monitoring. *)
Definition stop_clears_flag (pr : process) : process :=
  {| state := {| self := set_is_monitoring false (self (state pr));
                 trace := trace (state pr) |};
     loop := loop pr |}.

(** The return of stop_monitoring. *)
Definition stop_returns (pr : process) : process :=
  {| state := log StopReturned (state pr); loop := loop pr |}.

(** Whether the join of stop_monitoring can come back without its
    timeout: no thread was ever started, or the loop has ended. *)
Definition joinable (pr : process) : bool :=
  match monitor_thread (self (state pr)), loop pr with
  | None, _ => true
  | Some _, Some Finished => true
  | Some _, None => true
  | Some _, Some _ => false
  end.

(** One action; [None] when it cannot happen in this state. *)
Definition step (lower_other : N -> list N) (a : action) (pr : process) : option process :=
  match a with
  | LoopStep p => Some (loop_step lower_other p pr)
  | StartMonitoring t => Some (start_monitoring t pr)
  | StopClearsFlag => Some (stop_clears_flag pr)
  | StopJoined => if joinable pr then Some (stop_returns pr) else None
  | StopTimedOut => Some (stop_returns pr)
  end.

Fixpoint steps (lower_other : N -> list N) (acts : list action) (pr : process)
    : option process :=
  match acts with
  | [] => Some pr
  | a :: rest =>
      match step lower_other a pr with
      | Some pr' => steps lower_other rest pr'
      | None => None
      end
  end.

(** stop_monitoring when its join comes back at once. *)
Definition stop_monitoring (pr : process) : process :=
  stop_returns (stop_clears_flag pr).

Definition is_callback (e : event) : bool :=
  match e with
  | CursorChanged _ _ _ | TextChanged _ _ => true
  | _ => false
  end.

Definition is_capture (e : event) : bool :=
  match e with
  | MessageSent _ => true
  | _ => false
  end.

(** The callbacks a trace holds, in order. *)
Definition callbacks (t : list event) : list event := filter (fun e => is_callback e = true) t.

(** How many times a trace shows the capture chain being entered (its
    first act is the WM_GETTEXT message). *)
Definition capture_attempts (t : list event) : nat :=
  length (filter (fun e => is_capture e = true) t).

(** The loop thread alone taking steps, one platform answer per step. *)
Fixpoint run_loop (lower_other : N -> list N) (ps : list platform) (pr : process) : process :=
  match ps with
  | [] => pr
  | p :: rest => run_loop lower_other rest (loop_step lower_other p pr)
  end.

(** The events that are not the start of a capture. *)
Definition aside (e : event) : bool := negb (is_capture e).

(** The debounce test of the loop on monitor [m] with the two clock
    readings of [p]: out of the typing state, and past the quiet period. *)
Definition due (p : platform) (m : ImprovedTextMonitor) : Prop :=
  time_in_detect_typing p - last_change_time m >= typing_timeout m /\
  time_in_loop p - last_change_time m >= debounce_time m.

#[global] Instance due_dec (p : platform) (m : ImprovedTextMonitor) : Decision (due p m).
Proof. unfold due. apply _. Defined.

(** [s'] extends the trace of [s] by events of the [allowed] kind only. *)
Definition adds_only (allowed : event -> bool) (s s' : sys) : Prop :=
  exists new, trace s' = trace s ++ new /\ forallb allowed new = true.

(** [s'] and [s] have monitor records related by [Q]. *)
Definition on_self (Q : relation ImprovedTextMonitor) (s s' : sys) : Prop :=
  Q (self s) (self s').

(** The liveness flag is the same. *)
Definition same_flag (m m' : ImprovedTextMonitor) : Prop :=
  is_monitoring m' = is_monitoring m.

(** The debounce data are the same. *)
Definition same_clock (m m' : ImprovedTextMonitor) : Prop :=
  last_change_time m' = last_change_time m /\
  typing_timeout m' = typing_timeout m /\
  debounce_time m' = debounce_time m.

(** The monitor with its flag set to [b]. *)
Definition with_flag (b : bool) (s : sys) : sys :=
  {| self := set_is_monitoring b (self s); trace := trace s |}.

(** [s'] has the monitor record of [s] and no callback beyond those of [s]. *)
Definition untouched (s s' : sys) : Prop :=
  self s' = self s /\ callbacks (trace s') = callbacks (trace s).

(** [m] does not read the liveness flag: run with the flag set to [b], it
    does what it does otherwise, and leaves the flag at [b]. *)
Definition blind_to_flag {A : Type} (b : bool) (m : exec sys A) : Prop :=
  forall s, m (with_flag b s) = (fst (m s), with_flag b (snd (m s))).

(** No callback after a return of stop_monitoring. *)
Fixpoint quiet_after_stop (t : list event) : bool :=
  match t with
  | [] => true
  | StopReturned :: rest => forallb (fun e => negb (is_callback e)) rest
  | _ :: rest => quiet_after_stop rest
  end.

End ImprovedTextMonitor.

(** ** ui/overlay_window.py: the window, its canvas and its style *)

Module OverlayWindow.
Import Py.

(** win32con *)
Definition WS_EX_TRANSPARENT : Z := 32.        (* 0x00000020 *)
Definition WS_EX_LAYERED : Z := 524288.        (* 0x00080000 *)

(** config.OVERLAY["opacity"] and the two raised values, in hundredths. *)
Definition resting_opacity : Z := 0.
Definition menu_opacity : Z := 10.
Definition suggestion_opacity : Z := 30.

(** The tk canvas: items by their integer id, ids handed out in turn. *)
Inductive shape : Type :=
| Line (x1 y1 x2 y2 : Z)
| Text (x y : Z) (text : pystr)
| Rectangle (x1 y1 x2 y2 : Z).

Record item : Type := {
  drawn : shape;
  tags : option string
}.

Record Canvas : Type := {
  next_id : Z;
  items : gmap Z item
}.

Definition create (it : item) (c : Canvas) : Z * Canvas :=
  (next_id c, {| next_id := next_id c + 1; items := <[next_id c := it]> (items c) |}).

(** canvas.delete(id) *)
Definition delete_id (i : Z) (c : Canvas) : Canvas :=
  {| next_id := next_id c; items := delete i (items c) |}.

(** canvas.delete(tag) *)
Definition delete_tag (t : string) (c : Canvas) : Canvas :=
  {| next_id := next_id c;
     items := filter (fun kv => tags (snd kv) ≠ Some t) (items c) |}.

(** The window of the overlay (its menu object and the timers of the menu
    are kept beside it, in [OverlayWithMenu]).  [win32] tells whether the
    win32gui calls on the window go through (they raise otherwise, and the
    method prints and goes on); [ex_style] is the window's extended style;
    [pending] counts the [after(3000, self.clear_suggestion)] timers not
    yet run. *)
Record OverlayWindow : Type := {
  win32 : bool;
  ex_style : Z;
  alpha : Z;
  canvas : Canvas;
  error_markers : list Z;
  is_menu_visible : bool;
  pending : nat
}.

(** Pointer input goes to what is beneath the window. *)
Definition click_through (o : OverlayWindow) : bool :=
  Z.testbit (ex_style o) 5.

Definition set_ex_style (s : Z) (o : OverlayWindow) : OverlayWindow :=
  {| win32 := win32 o; ex_style := s; alpha := alpha o; canvas := canvas o;
     error_markers := error_markers o;
     is_menu_visible := is_menu_visible o; pending := pending o |}.

Definition set_alpha (a : Z) (o : OverlayWindow) : OverlayWindow :=
  {| win32 := win32 o; ex_style := ex_style o; alpha := a; canvas := canvas o;
     error_markers := error_markers o;
     is_menu_visible := is_menu_visible o; pending := pending o |}.

Definition set_canvas (c : Canvas) (o : OverlayWindow) : OverlayWindow :=
  {| win32 := win32 o; ex_style := ex_style o; alpha := alpha o; canvas := c;
     error_markers := error_markers o;
     is_menu_visible := is_menu_visible o; pending := pending o |}.

Definition set_error_markers (l : list Z) (o : OverlayWindow) : OverlayWindow :=
  {| win32 := win32 o; ex_style := ex_style o; alpha := alpha o; canvas := canvas o;
     error_markers := l;
     is_menu_visible := is_menu_visible o; pending := pending o |}.

Definition set_is_menu_visible (b : bool) (o : OverlayWindow) : OverlayWindow :=
  {| win32 := win32 o; ex_style := ex_style o; alpha := alpha o; canvas := canvas o;
     error_markers := error_markers o;
     is_menu_visible := b; pending := pending o |}.

Definition set_pending (n : nat) (o : OverlayWindow) : OverlayWindow :=
  {| win32 := win32 o; ex_style := ex_style o; alpha := alpha o; canvas := canvas o;
     error_markers := error_markers o;
     is_menu_visible := is_menu_visible o; pending := n |}.

(** OverlayWindow() on a window whose style is [style] at creation. *)
Definition init (available : bool) (style : Z) : OverlayWindow :=
  {| win32 := available;
     ex_style := if available
                 then Z.lor style (Z.lor WS_EX_LAYERED WS_EX_TRANSPARENT)
                 else style;
     alpha := resting_opacity;
     canvas := {| next_id := 1; items := ∅ |};
     error_markers := []; is_menu_visible := false;
     pending := 0 |}.

Definition _disable_click_through (o : OverlayWindow) : OverlayWindow :=
  if win32 o
  then set_ex_style (Z.land (ex_style o) (Z.lnot WS_EX_TRANSPARENT)) o
  else o.

Definition _enable_click_through (o : OverlayWindow) : OverlayWindow :=
  if win32 o
  then set_ex_style (Z.lor (ex_style o) WS_EX_TRANSPARENT) o
  else o.

(** clear_errors *)
Definition clear_errors (o : OverlayWindow) : OverlayWindow :=
  set_error_markers []
    (set_canvas (fold_left (fun c marker => delete_id marker c) (error_markers o) (canvas o)) o).

(** An error as the grammar checker hands it over: a dictionary. *)
Definition error := gmap string pystr.

(** error.get('type', <the two-syllable word for "error">) *)
Definition error_type (e : error) : pystr :=
  default [50724; 47448]%N (e !! "type"%string).

(** One round of the loop of show_errors, for the error at index [i]. *)
Definition draw_marker (i : Z) (e : error) (cursor_x cursor_y : Z)
    (o : OverlayWindow) : OverlayWindow :=
  let marker_x := cursor_x in
  let marker_y := cursor_y + 20 + i * 25 in
  let '(line, c1) :=
    create {| drawn := Line marker_x marker_y (marker_x + 100) marker_y; tags := None |}
           (canvas o) in
  let o1 := set_error_markers (error_markers o ++ [line]) (set_canvas c1 o) in
  let '(text, c2) :=
    create {| drawn := Text marker_x (marker_y + 10) (error_type e); tags := None |}
           (canvas o1) in
  set_error_markers (error_markers o1 ++ [text]) (set_canvas c2 o1).

Fixpoint draw_markers (i : Z) (errors : list error) (cursor_x cursor_y : Z)
    (o : OverlayWindow) : OverlayWindow :=
  match errors with
  | [] => o
  | e :: rest => draw_markers (i + 1) rest cursor_x cursor_y (draw_marker i e cursor_x cursor_y o)
  end.

(** show_errors: [for i, error in enumerate(errors[:5])]. *)
Definition show_errors (errors : list error) (cursor_x cursor_y : Z)
    (o : OverlayWindow) : OverlayWindow :=
  draw_markers 0 (firstn 5 errors) cursor_x cursor_y (clear_errors o).

Definition update_cursor_position (x y : Z) (o : OverlayWindow) : OverlayWindow := o.

(** The heading of the suggestion box (a light bulb and three words). *)
Definition suggestion_heading : pystr :=
  [128161; 32; 45796; 51020; 32; 44544; 32; 51228; 50504]%N.

Definition display_suggestion (suggestion : pystr) (x y : Z)
    (o : OverlayWindow) : OverlayWindow :=
  let o := set_alpha suggestion_opacity o in
  let o := _disable_click_through o in
  let box_width := 400 in
  let box_height := 100 in
  let tag := Some "suggestion_box"%string in
  let '(_, c) := create {| drawn := Rectangle x y (x + box_width) (y + box_height); tags := tag |}
                        (canvas o) in
  let '(_, c) := create {| drawn := Text (x + 10) (y + 10) suggestion_heading; tags := tag |} c in
  let '(_, c) := create {| drawn := Text (x + 10) (y + 35) suggestion; tags := tag |} c in
  set_pending (S (pending o)) (set_canvas c o).

Definition clear_suggestion (o : OverlayWindow) : OverlayWindow :=
  let o := set_canvas (delete_tag "suggestion_box" (canvas o)) o in
  let o := set_alpha resting_opacity o in
  _enable_click_through o.

(** The calls the rest of the program makes on the window, the menu's
    aside; the timer set by display_suggestion arrives as [TimerFires]. *)
Inductive op : Type :=
| ShowErrors (errors : list error) (x y : Z)
| ClearErrors
| UpdateCursorPosition (x y : Z)
| DisplaySuggestion (suggestion : pystr) (x y : Z)
| ClearSuggestion
| TimerFires.

Definition apply (a : op) (o : OverlayWindow) : OverlayWindow :=
  match a with
  | ShowErrors errors x y => show_errors errors x y o
  | ClearErrors => clear_errors o
  | UpdateCursorPosition x y => update_cursor_position x y o
  | DisplaySuggestion s x y => display_suggestion s x y o
  | ClearSuggestion => clear_suggestion o
  | TimerFires =>
      match pending o with
      | O => o
      | S n => clear_suggestion (set_pending n o)
      end
  end.

Definition run (ops : list op) (o : OverlayWindow) : OverlayWindow :=
  fold_left (fun o a => apply a o) ops o.

End OverlayWindow.

(** ** Values for the scenarios *)

Module Scenarios.
Import Py Exec Keys.

(** The keys of the scenarios, as the listener delivers them. *)
Definition ctrl : key := Special "ctrl".
Definition shift : key := Special "shift".
Definition letter (vk : Z) (c : string) : key := KeyCode (Some vk) (Some (lit c)).

(** A KeyboardHook with both callbacks registered. *)
Definition armed : KeyboardHook.KeyboardHook :=
  KeyboardHook.set_exit_callback 2%nat
    (KeyboardHook.set_callback 1%nat (KeyboardHook.init ascii_only)).

(** The same hook with only the exit callback registered. *)
Definition exit_only : KeyboardHook.KeyboardHook :=
  KeyboardHook.set_exit_callback 2%nat (KeyboardHook.init ascii_only).

(** An ImprovedKeyboardHook on pynput with both callbacks registered. *)
Definition armed_improved : ImprovedKeyboardHook.ImprovedKeyboardHook :=
  ImprovedKeyboardHook.set_exit_callback 2%nat
    (ImprovedKeyboardHook.set_callback 1%nat
       (ImprovedKeyboardHook.init (Some ImprovedKeyboardHook.pynput))).

(** A desktop with a notepad window in front holding [text], every
    time.time() of the tick reading [t], no accessibility service and
    callbacks that return. *)
Definition notepad (t : Z) (text : pystr) : ImprovedTextMonitor.platform :=
  {| ImprovedTextMonitor.GetForegroundWindow := Ret 1001;
     ImprovedTextMonitor.GetWindowText := fun _ => Ret (lit "notes.txt - Notepad");
     ImprovedTextMonitor.GetClassName := fun _ => Ret (lit "Notepad");
     ImprovedTextMonitor.GetWindowRect := fun _ => Ret (0, 0, 800, 600);
     ImprovedTextMonitor.position := Ret (0, 0);
     ImprovedTextMonitor.SendMessageW := fun _ => Ret (Z.of_nat (length text), text);
     ImprovedTextMonitor.CreateObject := Raise;
     ImprovedTextMonitor.ElementFromHandle := fun _ => Raise;
     ImprovedTextMonitor.time_in_detect_typing := t;
     ImprovedTextMonitor.time_in_loop := t;
     ImprovedTextMonitor.callback_raises := fun _ => false |}.

(** The same desktop with a window that does not answer WM_GETTEXT and an
    accessibility element whose value pattern answers [text]. *)
Definition accessible (t : Z) (text : pystr) : ImprovedTextMonitor.platform :=
  {| ImprovedTextMonitor.GetForegroundWindow := Ret 1001;
     ImprovedTextMonitor.GetWindowText := fun _ => Ret (lit "notes.txt - Notepad");
     ImprovedTextMonitor.GetClassName := fun _ => Ret (lit "Notepad");
     ImprovedTextMonitor.GetWindowRect := fun _ => Ret (0, 0, 800, 600);
     ImprovedTextMonitor.position := Ret (0, 0);
     ImprovedTextMonitor.SendMessageW := fun _ => Ret (0, []);
     ImprovedTextMonitor.CreateObject := Ret tt;
     ImprovedTextMonitor.ElementFromHandle := fun _ =>
       Ret {| ImprovedTextMonitor.CurrentValue := Ret text;
              ImprovedTextMonitor.GetText := Raise |};
     ImprovedTextMonitor.time_in_detect_typing := t;
     ImprovedTextMonitor.time_in_loop := t;
     ImprovedTextMonitor.callback_raises := fun _ => false |}.

(** A fresh monitor with a text-changed callback, and its process. *)
Definition listening : ImprovedTextMonitor.sys :=
  {| ImprovedTextMonitor.self :=
       ImprovedTextMonitor.set_text_change_callback 1%nat ImprovedTextMonitor.init;
     ImprovedTextMonitor.trace := [] |}.

Definition idle : ImprovedTextMonitor.process :=
  {| ImprovedTextMonitor.state := listening; ImprovedTextMonitor.loop := None |}.

End Scenarios.

(** ** Views of the improved monitor used by the further properties *)

Module MonitorViews.
Import Py Exec ImprovedTextMonitor.

(** Everything a tick is not meant to change is the same: the flag, the
    thread, the callbacks and the configuration. *)
Definition same_setup (m m' : ImprovedTextMonitor) : Prop :=
  is_monitoring m' = is_monitoring m /\
  monitor_thread m' = monitor_thread m /\
  text_change_callback m' = text_change_callback m /\
  cursor_change_callback m' = cursor_change_callback m /\
  check_interval m' = check_interval m /\
  debounce_time m' = debounce_time m /\
  is_typing m' = is_typing m /\
  typing_timeout m' = typing_timeout m.

(** Nothing but the recorded cursor position differs. *)
Definition cursor_only (m m' : ImprovedTextMonitor) : Prop :=
  m' = set_last_cursor_pos (last_cursor_pos m') m.

(** The callbacks of a text change, as the loop invokes them. *)
Definition text_notice (m : ImprovedTextMonitor) (text : pystr) : list event :=
  match text_change_callback m with
  | Some c => [TextChanged c text]
  | None => []
  end.

(** The callbacks of a cursor move, as the loop invokes them. *)
Definition cursor_notice (m : ImprovedTextMonitor) (pos : Z * Z) : list event :=
  match cursor_change_callback m with
  | Some c => [CursorChanged c (fst pos) (snd pos)]
  | None => []
  end.

End MonitorViews.

(** ** Driving the hotkey listeners *)

Module HookRuns.
Import Py Exec Keys.

(** The keys that went down during [es], normalized as the handlers do. *)
Fixpoint downs (lower_other : N -> list N) (es : list key_event) : gset key :=
  match es with
  | [] => ∅
  | Down k :: rest => {[normalize lower_other k]} ∪ downs lower_other rest
  | Up _ :: rest => downs lower_other rest
  end.

(** What the application and the listener thread do to a KeyboardHook. *)
Inductive command : Type :=
| Start
| Stop
| SetCallback (c : callable)
| SetExitCallback (c : callable)
| Deliver (e : key_event).

Definition obey (lower_other : N -> list N) (h : KeyboardHook.KeyboardHook) (c : command)
    : KeyboardHook.KeyboardHook :=
  match c with
  | Start => KeyboardHook.start h
  | Stop => KeyboardHook.stop h
  | SetCallback f => KeyboardHook.set_callback f h
  | SetExitCallback f => KeyboardHook.set_exit_callback f h
  | Deliver e => fst (KeyboardHook.deliver lower_other h e)
  end.

Definition drive (lower_other : N -> list N) (cs : list command)
    (h : KeyboardHook.KeyboardHook) : KeyboardHook.KeyboardHook :=
  fold_left (obey lower_other) cs h.

(** Whether the last start or stop among [cs] is a start, [before] telling
    the answer when there is none. *)
Fixpoint started (before : bool) (cs : list command) : bool :=
  match cs with
  | [] => before
  | Start :: rest => started true rest
  | Stop :: rest => started false rest
  | _ :: rest => started before rest
  end.

End HookRuns.

(** ** Views of the overlay used by the further properties *)

Module OverlayViews.
Import Py OverlayWindow.

(** The canvas has handed out every id it holds: nothing sits at or above
    the next id. *)
Definition canvas_ok (c : Canvas) : Prop :=
  forall id, next_id c <= id -> items c !! id = None.

(** The item is part of a suggestion box. *)
Definition in_suggestion (it : item) : Prop := tags it = Some "suggestion_box"%string.

(** The underline and the label show_errors draws for the error at index
    [i] with the cursor at [(x, y)]. *)
Definition underline (i x y : Z) : item :=
  {| drawn := Line x (y + 20 + i * 25) (x + 100) (y + 20 + i * 25); tags := None |}.

Definition label (i x y : Z) (e : error) : item :=
  {| drawn := Text x (y + 20 + i * 25 + 10) (error_type e); tags := None |}.

End OverlayViews.

(** ** ui/circle_menu.py *)

Module CircleMenu.
Import Py Exec.

Definition callable := nat.

(** config.CIRCLE_MENU["menu_items"], by name: exit, suggest what comes
    next, check the logic.  (Icons and colours only dress the buttons.) *)
Definition exit_name : pystr := [51333; 47308]%N.
Definition suggest_name : pystr := [45796; 51020; 32; 44544; 32; 51228; 50504]%N.
Definition analyze_name : pystr := [45436; 47532; 32; 44396; 51312; 32; 44160; 49324]%N.

Definition menu_items : list pystr := [exit_name; suggest_name; analyze_name].

(** A button of the menu: the item it stands for, and whether it is placed
    on the screen.  (Where it is placed is computed in floating point and is
    not part of the model.) *)
Record button : Type := {
  item : pystr;
  placed : bool
}.

Record CircleMenu : Type := {
  center_x : Z;
  center_y : Z;
  is_visible : bool;
  radius : Z;
  animation_duration : Z;
  on_exit_callback : option callable;
  on_suggest_callback : option callable;
  on_analyze_callback : option callable;
  buttons : list button;
  animation_id : option Z
}.

(** The menu on its parent window: the parent's pending [after] timers
    (id, and the frame [(step, max_steps)] each will draw), the next timer
    id, the callbacks invoked so far, and which callbacks raise. *)
Record stage : Type := {
  menu : CircleMenu;
  timers : list (Z * (Z * Z));
  next_timer : Z;
  invoked : list callable;
  faulty : callable -> bool
}.

(** CircleMenu(parent, x, y) with the values of config.CIRCLE_MENU. *)
Definition new (x y : Z) : CircleMenu :=
  {| center_x := x; center_y := y; is_visible := false; radius := 60;
     animation_duration := 300; on_exit_callback := None;
     on_suggest_callback := None; on_analyze_callback := None;
     buttons := []; animation_id := None |}.

Definition set_callbacks (on_exit on_suggest on_analyze : option callable)
    (m : CircleMenu) : CircleMenu :=
  {| center_x := center_x m; center_y := center_y m; is_visible := is_visible m;
     radius := radius m; animation_duration := animation_duration m;
     on_exit_callback := on_exit; on_suggest_callback := on_suggest;
     on_analyze_callback := on_analyze;
     buttons := buttons m; animation_id := animation_id m |}.

Definition set_center (x y : Z) (m : CircleMenu) : CircleMenu :=
  {| center_x := x; center_y := y; is_visible := is_visible m;
     radius := radius m; animation_duration := animation_duration m;
     on_exit_callback := on_exit_callback m; on_suggest_callback := on_suggest_callback m;
     on_analyze_callback := on_analyze_callback m;
     buttons := buttons m; animation_id := animation_id m |}.

Definition set_is_visible (b : bool) (m : CircleMenu) : CircleMenu :=
  {| center_x := center_x m; center_y := center_y m; is_visible := b;
     radius := radius m; animation_duration := animation_duration m;
     on_exit_callback := on_exit_callback m; on_suggest_callback := on_suggest_callback m;
     on_analyze_callback := on_analyze_callback m;
     buttons := buttons m; animation_id := animation_id m |}.

Definition set_buttons (bs : list button) (m : CircleMenu) : CircleMenu :=
  {| center_x := center_x m; center_y := center_y m; is_visible := is_visible m;
     radius := radius m; animation_duration := animation_duration m;
     on_exit_callback := on_exit_callback m; on_suggest_callback := on_suggest_callback m;
     on_analyze_callback := on_analyze_callback m;
     buttons := bs; animation_id := animation_id m |}.

Definition set_animation_id (a : option Z) (m : CircleMenu) : CircleMenu :=
  {| center_x := center_x m; center_y := center_y m; is_visible := is_visible m;
     radius := radius m; animation_duration := animation_duration m;
     on_exit_callback := on_exit_callback m; on_suggest_callback := on_suggest_callback m;
     on_analyze_callback := on_analyze_callback m;
     buttons := buttons m; animation_id := a |}.

Definition update_menu (f : CircleMenu -> CircleMenu) : exec stage unit :=
  modify (fun s => {| menu := f (menu s); timers := timers s; next_timer := next_timer s;
                      invoked := invoked s; faulty := faulty s |}).

(** parent.after(delay, lambda: self._animate_show(step, max_steps)) *)
Definition after (delay : Z) (frame : Z * Z) : exec stage Z :=
  fun s => (Ret (next_timer s),
            {| menu := menu s; timers := timers s ++ [(next_timer s, frame)];
               next_timer := next_timer s + 1; invoked := invoked s; faulty := faulty s |}).

(** parent.after_cancel(id) *)
Definition after_cancel (id : Z) : exec stage unit :=
  modify (fun s => {| menu := menu s;
                      timers := filter (fun t => fst t ≠ id) (timers s);
                      next_timer := next_timer s; invoked := invoked s;
                      faulty := faulty s |}).

(** Calling a registered callback. *)
Definition call (c : callable) : exec stage unit :=
  fun s => (if faulty s c then Raise else Ret tt,
            {| menu := menu s; timers := timers s; next_timer := next_timer s;
               invoked := invoked s ++ [c]; faulty := faulty s |}).

(** _create_circle_button: the button is placed and at once withdrawn
    ([place] then [place_forget]). *)
Definition _create_circle_button (name : pystr) : button :=
  {| item := name; placed := false |}.

(** One frame of _animate_show.  [step / max_steps] is a true division and
    raises ZeroDivisionError on a zero [max_steps]; [//] is the floor
    division. *)
Definition _animate_show (step max_steps : Z) : exec stage unit :=
  if decide (step > max_steps) then mret tt
  else if decide (max_steps = 0) then raise
  else
    _ ← update_menu (fun m =>
          set_buttons (map (fun b => {| item := item b; placed := true |}) (buttons m)) m);
    s ← get;
    let delay := animation_duration (menu s) `div` max_steps in
    id ← after delay (step + 1, max_steps);
    update_menu (set_animation_id (Some id)).

(** show: the frame it asks for is [_animate_show(0, 0)]. *)
Definition show : exec stage unit :=
  s ← get;
  if is_visible (menu s) then mret tt
  else
    _ ← update_menu (fun m => set_buttons [] (set_is_visible true m));
    _ ← update_menu (fun m =>
          set_buttons (buttons m ++ map _create_circle_button menu_items) m);
    _animate_show 0 0.

Definition hide : exec stage unit :=
  s ← get;
  if negb (is_visible (menu s)) then mret tt
  else
    _ ← update_menu (set_is_visible false);
    _ ← match animation_id (menu s) with
        | Some id =>
            _ ← after_cancel id;
            update_menu (set_animation_id None)
        | None => mret tt
        end;
    update_menu (set_buttons []).

Definition toggle : exec stage unit :=
  s ← get;
  if is_visible (menu s) then hide else show.

Definition update_position (x y : Z) : exec stage unit :=
  _ ← update_menu (set_center x y);
  s ← get;
  if is_visible (menu s) then
    _ ← hide;
    show
  else mret tt.

Definition _on_button_click (button_name : pystr) : exec stage unit :=
  _ ← hide;
  s ← get;
  match on_exit_callback (menu s), on_suggest_callback (menu s),
        on_analyze_callback (menu s) with
  | on_exit, on_suggest, on_analyze =>
      if decide (button_name = exit_name /\ is_Some on_exit) then
        match on_exit with Some c => call c | None => mret tt end
      else if decide (button_name = suggest_name /\ is_Some on_suggest) then
        match on_suggest with Some c => call c | None => mret tt end
      else if decide (button_name = analyze_name /\ is_Some on_analyze) then
        match on_analyze with Some c => call c | None => mret tt end
      else mret tt
  end.

(** The parent window with a menu on it and nothing pending. *)
Definition on_parent (m : CircleMenu) (faults : callable -> bool) : stage :=
  {| menu := m; timers := []; next_timer := 1; invoked := []; faulty := faults |}.

End CircleMenu.

(** ** ui/overlay_window.py: the overlay with its menu

    The window of [OverlayWindow] together with the menu object of
    [CircleMenu], whose methods can raise into the overlay's. *)

Module OverlayWithMenu.
Import Py Exec.

(** The overlay window (style, opacity, canvas, markers, flag: the record
    of [OverlayWindow]), the CircleMenu object once created, the functions
    bound as menu handlers
    (_on_menu_exit, _on_menu_suggest, _on_menu_analyze, or what
    set_menu_callbacks put in their place), and the window's timers. *)
Record overlay : Type := {
  window : OverlayWindow.OverlayWindow;
  circle_menu : option CircleMenu.CircleMenu;
  handlers : CircleMenu.callable * CircleMenu.callable * CircleMenu.callable;
  timers : list (Z * (Z * Z));
  next_timer : Z;
  invoked : list CircleMenu.callable;
  faulty : CircleMenu.callable -> bool
}.

Definition update_window (f : OverlayWindow.OverlayWindow -> OverlayWindow.OverlayWindow)
    : exec overlay unit :=
  modify (fun o => {| window := f (window o); circle_menu := circle_menu o;
                      handlers := handlers o; timers := timers o;
                      next_timer := next_timer o; invoked := invoked o;
                      faulty := faulty o |}).

Definition set_circle_menu (m : CircleMenu.CircleMenu) : exec overlay unit :=
  modify (fun o => {| window := window o; circle_menu := Some m;
                      handlers := handlers o; timers := timers o;
                      next_timer := next_timer o; invoked := invoked o;
                      faulty := faulty o |}).

(** set_menu_callbacks *)
Definition set_menu_callbacks (on_exit on_suggest on_analyze : CircleMenu.callable)
    : exec overlay unit :=
  modify (fun o => {| window := window o; circle_menu := circle_menu o;
                      handlers := (on_exit, on_suggest, on_analyze); timers := timers o;
                      next_timer := next_timer o; invoked := invoked o;
                      faulty := faulty o |}).

(** A method call on [self.circle_menu]; what the method did before
    raising stays done.  (Without a menu object the attribute access
    raises.) *)
Definition on_menu {A : Type} (method : exec CircleMenu.stage A) : exec overlay A :=
  fun o =>
    match circle_menu o with
    | None => (Raise, o)
    | Some m =>
        let '(r, s) :=
          method {| CircleMenu.menu := m; CircleMenu.timers := timers o;
                    CircleMenu.next_timer := next_timer o;
                    CircleMenu.invoked := invoked o; CircleMenu.faulty := faulty o |} in
        (r, {| window := window o; circle_menu := Some (CircleMenu.menu s);
               handlers := handlers o; timers := CircleMenu.timers s;
               next_timer := CircleMenu.next_timer s;
               invoked := CircleMenu.invoked s; faulty := faulty o |})
    end.

Definition show_menu (x y : Z) : exec overlay unit :=
  _ ← update_window OverlayWindow._disable_click_through;
  _ ← update_window (OverlayWindow.set_alpha OverlayWindow.menu_opacity);
  o ← get;
  _ ← match circle_menu o with
      | None =>
          let '(on_exit, on_suggest, on_analyze) := handlers o in
          set_circle_menu
            (CircleMenu.set_callbacks (Some on_exit) (Some on_suggest) (Some on_analyze)
               (CircleMenu.new x y))
      | Some _ => on_menu (CircleMenu.update_position x y)
      end;
  _ ← on_menu CircleMenu.show;
  update_window (OverlayWindow.set_is_menu_visible true).

Definition hide_menu : exec overlay unit :=
  o ← get;
  _ ← match circle_menu o with
      | Some _ => on_menu CircleMenu.hide
      | None => mret tt
      end;
  _ ← update_window OverlayWindow._enable_click_through;
  _ ← update_window (OverlayWindow.set_alpha OverlayWindow.resting_opacity);
  update_window (OverlayWindow.set_is_menu_visible false).

Definition toggle_menu (x y : Z) : exec overlay unit :=
  o ← get;
  if OverlayWindow.is_menu_visible (window o) then hide_menu else show_menu x y.

(** What the hotkey callback and the application ask of the overlay; an
    exception of the method ends the call and is reported by the caller.
    [OnWindow] is a call that does not touch the menu. *)
Inductive request : Type :=
| ShowMenu (x y : Z)
| HideMenu
| ToggleMenu (x y : Z)
| SetMenuCallbacks (on_exit on_suggest on_analyze : CircleMenu.callable)
| OnWindow (a : OverlayWindow.op).

Definition serve (r : request) (o : overlay) : overlay :=
  match r with
  | ShowMenu x y => snd (show_menu x y o)
  | HideMenu => snd (hide_menu o)
  | ToggleMenu x y => snd (toggle_menu x y o)
  | SetMenuCallbacks e s a => snd (set_menu_callbacks e s a o)
  | OnWindow a => snd (update_window (OverlayWindow.apply a) o)
  end.

Definition run (rs : list request) (o : overlay) : overlay :=
  fold_left (fun o r => serve r o) rs o.

(** Pointer input goes to what is beneath the overlay. *)
Definition click_through (o : overlay) : bool :=
  OverlayWindow.click_through (window o).

(** The menu can be clicked whenever the overlay takes it to be showing. *)
Definition menu_clickable (o : overlay) : Prop :=
  OverlayWindow.is_menu_visible (window o) = true -> click_through o = false.

(** The requests that end a suggestion callout. *)
Definition ends_callout (r : request) : bool :=
  match r with
  | OnWindow OverlayWindow.ClearSuggestion | OnWindow OverlayWindow.TimerFires => true
  | _ => false
  end.

(** OverlayWindow() *)
Definition init (available : bool) (style : Z) : overlay :=
  {| window := OverlayWindow.init available style; circle_menu := None;
     handlers := (1%nat, 2%nat, 3%nat); timers := []; next_timer := 1;
     invoked := []; faulty := fun _ => false |}.

(** The buttons of a menu no frame has drawn. *)
Definition withdrawn : list CircleMenu.button :=
  map CircleMenu._create_circle_button CircleMenu.menu_items.

End OverlayWithMenu.

(** ** The menu methods as the specification has them

    A second definition of show_menu and hide_menu, written from the words
    of the specification (4.6: showMenu disables input pass-through and
    raises the opacity slightly, hideMenu reverses both; the menu-visible
    flag of the data model follows the menu) and not from the source: the
    methods as they are when the menu's show returns.  It is there to be
    compared with the methods of the source in [OverlayWithMenu]. *)

Module SpecifiedOverlay.
Import OverlayWindow.

Definition show_menu (x y : Z) (w : OverlayWindow) : OverlayWindow :=
  set_is_menu_visible true (set_alpha menu_opacity (_disable_click_through w)).

Definition hide_menu (w : OverlayWindow) : OverlayWindow :=
  set_is_menu_visible false (set_alpha resting_opacity (_enable_click_through w)).

End SpecifiedOverlay.

(** ** The menu over a run of method calls *)

Module MenuRuns.
Import Py Exec CircleMenu.

(** The methods a holder of the menu can call; [Click] is the command of
    the button of that name.  An exception ends the call and leaves what
    the method had done. *)
Inductive method : Type :=
| Show
| Hide
| Toggle
| UpdatePosition (x y : Z)
| SetCallbacks (on_exit on_suggest on_analyze : callable)
| Click (button_name : pystr).

Definition invoke (c : method) : exec stage unit :=
  match c with
  | Show => show
  | Hide => hide
  | Toggle => toggle
  | UpdatePosition x y => update_position x y
  | SetCallbacks e s a => update_menu (set_callbacks (Some e) (Some s) (Some a))
  | Click name => _on_button_click name
  end.

Definition run (cs : list method) (s : stage) : stage :=
  fold_left (fun s c => snd (invoke c s)) cs s.

(** No frame is pending or was drawn: the parent holds no timer, the menu
    remembers none, and no button is on the screen. *)
Definition still (s : stage) : Prop :=
  timers s = [] /\ animation_id (menu s) = None /\
  Forall (fun b => placed b = false) (buttons (menu s)).

(** The callback the menu keeps for the button of a name, if any. *)
Definition registered (button_name : pystr) (m : CircleMenu) : option callable :=
  if decide (button_name = exit_name) then on_exit_callback m
  else if decide (button_name = suggest_name) then on_suggest_callback m
  else if decide (button_name = analyze_name) then on_analyze_callback m
  else None.

End MenuRuns.

(** ** core/text_monitor.py: the monitoring loop *)

Module TextMonitorLoop.
Import Py Exec Window TextMonitor.

(** What the operating system answers during one tick of the loop; the
    pyautogui call for the pointer goes through the desktop's fault
    schedule like the other pyautogui calls. *)
Record surroundings : Type := {
  GetForegroundWindow : outcome Z;
  GetWindowText : Z -> outcome pystr;
  GetClassName : Z -> outcome pystr;
  GetWindowRect : Z -> outcome (Z * Z * Z * Z);
  pointer : Z * Z;                            (* pyautogui.position() *)
  time_in_loop : Z;                           (* time.time(), milliseconds *)
  callback_raises : callable -> bool
}.

Definition update_self (f : TextMonitor -> TextMonitor) : exec desktop unit :=
  modify (fun d => {| self := f (self d); clipboard := clipboard d;
                      document := document d; selected := selected d;
                      faults := faults d; trace := trace d |}).

Definition set_last_cursor_pos (c : Z * Z) (m : TextMonitor) : TextMonitor :=
  {| is_monitoring := is_monitoring m; monitor_thread := monitor_thread m;
     last_text := last_text m; last_cursor_pos := c;
     text_change_callback := text_change_callback m;
     cursor_change_callback := cursor_change_callback m;
     check_interval := check_interval m; debounce_time := debounce_time m;
     last_change_time := last_change_time m |}.

Definition set_last_text (t : pystr) (m : TextMonitor) : TextMonitor :=
  {| is_monitoring := is_monitoring m; monitor_thread := monitor_thread m;
     last_text := t; last_cursor_pos := last_cursor_pos m;
     text_change_callback := text_change_callback m;
     cursor_change_callback := cursor_change_callback m;
     check_interval := check_interval m; debounce_time := debounce_time m;
     last_change_time := last_change_time m |}.

Definition set_last_change_time (t : Z) (m : TextMonitor) : TextMonitor :=
  {| is_monitoring := is_monitoring m; monitor_thread := monitor_thread m;
     last_text := last_text m; last_cursor_pos := last_cursor_pos m;
     text_change_callback := text_change_callback m;
     cursor_change_callback := cursor_change_callback m;
     check_interval := check_interval m; debounce_time := debounce_time m;
     last_change_time := t |}.

(** set_text_change_callback, set_cursor_change_callback *)
Definition set_text_change_callback (c : callable) (m : TextMonitor) : TextMonitor :=
  {| is_monitoring := is_monitoring m; monitor_thread := monitor_thread m;
     last_text := last_text m; last_cursor_pos := last_cursor_pos m;
     text_change_callback := Some c;
     cursor_change_callback := cursor_change_callback m;
     check_interval := check_interval m; debounce_time := debounce_time m;
     last_change_time := last_change_time m |}.

Definition set_cursor_change_callback (c : callable) (m : TextMonitor) : TextMonitor :=
  {| is_monitoring := is_monitoring m; monitor_thread := monitor_thread m;
     last_text := last_text m; last_cursor_pos := last_cursor_pos m;
     text_change_callback := text_change_callback m;
     cursor_change_callback := Some c;
     check_interval := check_interval m; debounce_time := debounce_time m;
     last_change_time := last_change_time m |}.

(** [pass] *)
Definition pass : exec desktop unit := mret tt.

(** A win32gui call: answered by the surroundings. *)
Definition answer {A : Type} (a : outcome A) : exec desktop A := fun d => (a, d).

(** Calling a registered callback, which may raise. *)
Definition invoke (e : event) (raises : bool) : exec desktop unit :=
  fun d => (if raises then Raise else Ret tt, log e d).

(** get_active_window: [None] when there is no foreground window or a call
    raised. *)
Definition get_active_window (p : surroundings) : exec desktop (option WindowInfo) :=
  try_except
    (h ← answer (GetForegroundWindow p);
     if decide (h = 0) then mret None
     else
       t ← answer (GetWindowText p h);
       c ← answer (GetClassName p h);
       r ← answer (GetWindowRect p h);
       mret (Some {| hwnd := h; title := t; class_name := c; rect := r |}))
    (mret None).

Definition get_cursor_position (p : surroundings) : exec desktop (Z * Z) :=
  try_except (platform_call (fun d => (pointer p, d))) (mret (0, 0)).

(** The cursor part of one tick. *)
Definition watch_cursor (p : surroundings) : exec desktop unit :=
  cursor_pos ← get_cursor_position p;
  d ← get;
  if decide (cursor_pos = last_cursor_pos (self d)) then pass
  else
    _ ← update_self (set_last_cursor_pos cursor_pos);
    match cursor_change_callback (self d) with
    | Some c => invoke (CursorChanged c (fst cursor_pos) (snd cursor_pos)) (callback_raises p c)
    | None => pass
    end.

(** The text part of one tick. *)
Definition watch_text (p : surroundings) : exec desktop unit :=
  let current_time := time_in_loop p in
  d ← get;
  if decide (current_time - last_change_time (self d) >= debounce_time (self d)) then
    captured_text ← capture_text_via_clipboard;
    d ← get;
    if truthy captured_text && negb (bool_decide (captured_text = last_text (self d))) then
      _ ← update_self (fun m => set_last_change_time current_time (set_last_text captured_text m));
      match text_change_callback (self d) with
      | Some c => invoke (TextChanged c captured_text) (callback_raises p c)
      | None => pass
      end
    else pass
  else pass.

(** The [try] block of the loop body, with its [except Exception] that only
    prints. *)
Definition tick (lower_other : N -> list N) (p : surroundings) : exec desktop unit :=
  try_except
    (window_info ← get_active_window p;
     if is_text_editor lower_other window_info then
       _ ← watch_cursor p;
       watch_text p
     else pass)
    pass.

(** The keys and clipboard calls of a trace, in order. *)
Definition is_injection (e : event) : bool :=
  match e with
  | ClipboardRead | ClipboardWrite _ | KeysSent _ => true
  | _ => false
  end.

Definition injections (t : list event) : list event :=
  filter (fun e => is_injection e = true) t.

(** What one capture without faults adds to the trace, with [old] on the
    clipboard. *)
Definition round_trip (old : pystr) : list event :=
  [ClipboardRead; ClipboardWrite []; KeysSent ["ctrl"; "a"]%string;
   KeysSent ["ctrl"; "c"]%string; ClipboardRead; ClipboardWrite old;
   KeysSent ["escape"]%string].

(** The loop body run for some ticks, each with its own surroundings. *)
Definition ticks (lower_other : N -> list N) (ps : list surroundings)
    (d : desktop) : desktop :=
  fold_left (fun d p => snd (tick lower_other p d)) ps d.

(** A text editor is in front. *)
Definition editor_in_front (lower_other : N -> list N) (p : surroundings) : Prop :=
  exists h t c r,
    GetForegroundWindow p = Ret h /\ h <> 0 /\
    GetWindowText p h = Ret t /\ GetClassName p h = Ret c /\ GetWindowRect p h = Ret r /\
    is_text_editor lower_other
      (Some {| hwnd := h; title := t; class_name := c; rect := r |}) = true.

(** The debounce test of the loop passes. *)
Definition due (p : surroundings) (m : TextMonitor) : Prop :=
  time_in_loop p - last_change_time m >= debounce_time m.

(** The callbacks of a cursor move and of a text change, as the loop
    invokes them. *)
Definition cursor_notice (m : TextMonitor) (pos : Z * Z) : list event :=
  if decide (pos = last_cursor_pos m) then []
  else match cursor_change_callback m with
       | Some c => [CursorChanged c (fst pos) (snd pos)]
       | None => []
       end.

Definition text_notice (m : TextMonitor) (text : pystr) : list event :=
  match text_change_callback m with
  | Some c => [TextChanged c text]
  | None => []
  end.

(** Notepad in front at clock reading [now], the pointer at [pos], no
    callback raising. *)
Definition notepad_in_front (now : Z) (pos : Z * Z) : surroundings :=
  {| GetForegroundWindow := Ret 1028;
     GetWindowText := fun _ => Ret (lit "draft.txt - Notepad");
     GetClassName := fun _ => Ret (lit "Notepad");
     GetWindowRect := fun _ => Ret (0, 0, 800, 600);
     pointer := pos;
     time_in_loop := now;
     callback_raises := fun _ => false |}.

End TextMonitorLoop.

(** * Part II: properties *)

(** ** Strings *)

Module PyFacts.
Import Py.

Lemma lower_app (lower_other : N -> list N) (s t : pystr) :
  lower lower_other (s ++ t) = lower lower_other s ++ lower lower_other t.
Proof. unfold lower. apply flat_map_app. Qed.

Lemma startswith_spec (p s : pystr) :
  startswith p s = true <-> exists r, s = p ++ r.
Proof.
  revert s. induction p as [|a p IH]; intros s; simpl.
  - split; [intros _; now exists s | reflexivity].
  - destruct s as [|b s].
    + split; [discriminate | intros [r Hr]; discriminate].
    + destruct (decide (a = b)) as [->|Hne].
      * rewrite IH. split; intros [r Hr]; exists r.
        -- now rewrite Hr.
        -- now injection Hr.
      * split; [discriminate | intros [r Hr]; injection Hr; congruence].
Qed.

Lemma contains_spec (p s : pystr) :
  contains p s = true <-> exists l r, s = l ++ p ++ r.
Proof.
  induction s as [|b s IH].
  - simpl. rewrite orb_false_r, startswith_spec. split.
    + intros [r Hr]. now exists [], r.
    + intros [l [r Hr]]. destruct l; [now exists r | discriminate].
  - cbn [contains]. rewrite orb_true_iff, startswith_spec, IH. split.
    + intros [[r Hr] | [l [r Hr]]].
      * now exists [], r.
      * exists (b :: l), r. now rewrite Hr.
    + intros [l [r Hr]]. destruct l as [|c l].
      * left. now exists r.
      * right. injection Hr as _ Hr. now exists l, r.
Qed.

(** A text holding a case variant of [kw] holds [kw] once lowered. *)
Lemma contains_lower (lower_other : N -> list N) (kw a s b : pystr) :
  lower lower_other s = kw ->
  contains kw (lower lower_other (a ++ s ++ b)) = true.
Proof.
  intros Hs. apply contains_spec.
  exists (lower lower_other a), (lower lower_other b).
  now rewrite !lower_app, Hs.
Qed.

Example lower_ascii : lower ascii_only (lit "NotePad++ 8") = lit "notepad++ 8".
Proof. reflexivity. Qed.

End PyFacts.

(** ** Computations: what every step keeps, the whole keeps *)

Module ExecFacts.
Import Exec.

Section Frame.

Context {S : Type} (R : relation S) `{!PreOrder R}.

Lemma keeps_ret {A : Type} (a : A) : keeps R (mret a : exec S A).
Proof. intros s. simpl. reflexivity. Qed.

Lemma keeps_bind {A B : Type} (m : exec S A) (k : A -> exec S B) :
  keeps R m -> (forall a, keeps R (k a)) -> keeps R (m ≫= k).
Proof.
  intros Hm Hk s. unfold mbind, exec_bind, bind.
  specialize (Hm s). destruct (m s) as [[a|] s1]; simpl in *.
  - etransitivity; [exact Hm | apply Hk].
  - exact Hm.
Qed.

Lemma keeps_try {A : Type} (body handler : exec S A) :
  keeps R body -> keeps R handler -> keeps R (try_except body handler).
Proof.
  intros Hb Hh s. unfold try_except.
  specialize (Hb s). destruct (body s) as [[a|] s1]; simpl in *.
  - exact Hb.
  - etransitivity; [exact Hb | apply Hh].
Qed.

Lemma keeps_get : keeps R (get : exec S S).
Proof. intros s. simpl. reflexivity. Qed.

Lemma keeps_modify (f : S -> S) : (forall s, R s (f s)) -> keeps R (modify f).
Proof. intros H s. simpl. apply H. Qed.

End Frame.

(** A handler that returns makes the whole [try] return. *)
Lemma returns_try {S A : Type} (body handler : exec S A) :
  returns handler -> returns (try_except body handler).
Proof.
  intros H s. unfold try_except. destruct (body s) as [[a|] s1]; [reflexivity | apply H].
Qed.

Lemma returns_ret {S A : Type} (a : A) : returns (mret a : exec S A).
Proof. intros s. reflexivity. Qed.

Lemma returns_bind {S A B : Type} (m : exec S A) (k : A -> exec S B) :
  returns m -> (forall a, returns (k a)) -> returns (m ≫= k).
Proof.
  intros Hm Hk s. unfold mbind, exec_bind, bind.
  specialize (Hm s). destruct (m s) as [[a|] s1]; [apply Hk | discriminate].
Qed.

Create HintDb frame.

(** Walk down a computation, leaving the calls to the hint base. *)
Ltac frame_steps R :=
  repeat first
    [ apply (keeps_try R)
    | apply (keeps_bind R); [| intros ? ]
    | apply (keeps_ret R)
    | apply (keeps_get R)
    | solve [ auto with frame ] ].

End ExecFacts.

(** ** The window classifier *)

Module WindowFacts.
Import Py Window PyFacts.

Lemma any_keyword_spec (keywords : list pystr) (t c : pystr) :
  any_keyword keywords t c = true <->
  exists kw, kw ∈ keywords /\ (contains kw t = true \/ contains kw c = true).
Proof.
  induction keywords as [|k rest IH]; simpl.
  - split; [discriminate | intros [kw [Hin _]]; inversion Hin].
  - destruct (contains k t || contains k c) eqn:Hk.
    + split; [intros _ | reflexivity].
      exists k. split; [left | now apply orb_true_iff].
    + rewrite IH. apply orb_false_iff in Hk as [Ht Hc]. split.
      * intros [kw [Hin H]]. exists kw. split; [now right | exact H].
      * intros [kw [Hin H]]. apply elem_of_cons in Hin as [-> | Hin].
        -- rewrite Ht, Hc in H. destruct H; discriminate.
        -- now exists kw.
Qed.

(** C6.  is_text_editor answers false for no window; for a window it
    answers true exactly when some configured keyword occurs in the
    lowered title or the lowered class name; in particular a title or class
    name holding any case variant of a keyword (a stretch of text whose
    lowering is the keyword) gives true, and a window with no keyword in
    either lowered text gives false. *)
Theorem is_text_editor_matches_keywords (lower_other : N -> list N) :
  is_text_editor lower_other None = false /\
  (forall w,
     is_text_editor lower_other (Some w) = true <->
     exists kw, kw ∈ editor_keywords /\
       (contains kw (lower lower_other (title w)) = true \/
        contains kw (lower lower_other (class_name w)) = true)) /\
  (forall w kw a s b,
     kw ∈ editor_keywords ->
     lower lower_other s = kw ->
     title w = a ++ s ++ b \/ class_name w = a ++ s ++ b ->
     is_text_editor lower_other (Some w) = true) /\
  (forall w,
     (forall kw, kw ∈ editor_keywords ->
        contains kw (lower lower_other (title w)) = false /\
        contains kw (lower lower_other (class_name w)) = false) ->
     is_text_editor lower_other (Some w) = false).
Proof.
  split; [reflexivity |].
  assert (Hiff : forall w,
     is_text_editor lower_other (Some w) = true <->
     exists kw, kw ∈ editor_keywords /\
       (contains kw (lower lower_other (title w)) = true \/
        contains kw (lower lower_other (class_name w)) = true)).
  { intros w. unfold is_text_editor. apply any_keyword_spec. }
  split; [exact Hiff |]. split.
  - intros w kw a s b Hin Hs Hw. apply Hiff. exists kw. split; [exact Hin |].
    destruct Hw as [Hw | Hw]; rewrite Hw; [left | right];
      now apply contains_lower.
  - intros w Hnone.
    destruct (is_text_editor lower_other (Some w)) eqn:E; [| reflexivity].
    apply Hiff in E as [kw [Hin [H | H]]];
      destruct (Hnone kw Hin) as [Ht Hc]; congruence.
Qed.

(** A window titled "Untitled - NOTEPAD" is an editor. *)
Lemma is_text_editor_matches_keywords_witness :
  is_text_editor ascii_only
    (Some {| hwnd := 7; title := lit "Untitled - NOTEPAD";
             class_name := lit "Frame"; rect := (0, 0, 800, 600) |}) = true.
Proof.
  apply (proj1 (proj2 (proj2 (is_text_editor_matches_keywords ascii_only)))
           _ (lit "notepad") (lit "Untitled - ") (lit "NOTEPAD") []).
  - vm_compute. do 4 right. left.
  - reflexivity.
  - left. reflexivity.
Defined.

Example browser_is_no_editor :
  is_text_editor ascii_only
    (Some {| hwnd := 9; title := lit "Inbox - Mail";
             class_name := lit "Chrome_WidgetWin_1"; rect := (0, 0, 800, 600) |}) = false.
Proof. reflexivity. Qed.

End WindowFacts.

(** ** The clipboard round trip *)

Module TextMonitorFacts.
Import Py Exec ExecFacts TextMonitor.

(** After Ctrl+A the application copies its text, if it has any. *)
Lemma capture_without_faults (d : desktop) :
  faults d = [] ->
  clipboard (snd (capture_text_via_clipboard d)) = clipboard d /\
  fst (capture_text_via_clipboard d) =
    Ret (if truthy (document d) then document d else []).
Proof.
  destruct d as [m clip doc sel fs tr]. simpl. intros ->.
  destruct doc as [|c doc]; split; reflexivity.
Qed.

(** A failure of the read step alone (the fifth call) is absorbed by the
    inner handler, and the clipboard is put back. *)
Lemma capture_with_failed_read (d : desktop) :
  faults d = [false; false; false; false; true] ->
  clipboard (snd (capture_text_via_clipboard d)) = clipboard d /\
  fst (capture_text_via_clipboard d) = Ret [].
Proof.
  destruct d as [m clip doc sel fs tr]. simpl. intros ->.
  destruct doc as [|c doc]; split; reflexivity.
Qed.

(** The method returns on every path: no exception leaves it. *)
Lemma capture_never_raises : returns capture_text_via_clipboard.
Proof. apply returns_try, returns_ret. Qed.

(** C1.  With "abc" on the clipboard, a pyautogui.hotkey('ctrl', 'a') that
    raises (the third platform call) sends control to the outer handler
    after the clipboard was emptied and before the restoring copy: the
    method returns the empty string and the clipboard stays empty. *)
Theorem clipboard_lost_when_select_all_raises :
  let d := boot (lit "abc") (lit "draft") [false; false; true] in
  clipboard d = lit "abc" /\
  fst (capture_text_via_clipboard d) = Ret [] /\
  clipboard (snd (capture_text_via_clipboard d)) = [] /\
  trace (snd (capture_text_via_clipboard d)) = [ClipboardRead; ClipboardWrite []].
Proof. vm_compute. repeat split. Qed.

(** The same loss when the backup read itself raises: the empty string is
    what gets written back. *)
Example clipboard_lost_when_backup_read_raises :
  clipboard (snd (capture_text_via_clipboard (boot (lit "abc") (lit "draft") [true]))) = [].
Proof. reflexivity. Qed.

(** *** What the round trip leaves alone *)

#[local] Instance untouched_preorder : PreOrder untouched.
Proof.
  split.
  - intros d. split; reflexivity.
  - intros a b c [H1 H2] [H3 H4]. split; congruence.
Qed.

Lemma log_keeps_record (e : event) (d : desktop) :
  is_callback e = false -> untouched d (log e d).
Proof.
  intros He. split; [reflexivity |]. simpl. unfold callbacks.
  rewrite filter_app. cbn. rewrite decide_False by congruence.
  apply app_nil_r.
Qed.

Lemma platform_call_keeps {A : Type} (effect : desktop -> A * desktop) :
  (forall d, untouched d (snd (effect d))) ->
  keeps untouched (platform_call effect).
Proof.
  intros H d. unfold platform_call.
  destruct (faults d) as [|[|] rest]; simpl.
  - specialize (H d). destruct (effect d); exact H.
  - split; reflexivity.
  - specialize (H (set_faults rest d)).
    destruct (effect (set_faults rest d)) as [a d']. simpl in *.
    destruct H as [H1 H2]. split; [exact H1 | exact H2].
Qed.

Lemma paste_keeps : keeps untouched paste.
Proof. apply platform_call_keeps. intros d. now apply log_keeps_record. Qed.

Lemma copy_keeps (text : pystr) : keeps untouched (copy text).
Proof.
  apply platform_call_keeps. intros d. simpl.
  transitivity (set_clipboard text d); [split; reflexivity | now apply log_keeps_record].
Qed.

Lemma application_untouched (keys : list string) (d : desktop) :
  untouched d (application keys d).
Proof.
  unfold application.
  repeat case_decide; try destruct (selected d && truthy (document d));
    split; reflexivity.
Qed.

Lemma hotkey_keeps (keys : list string) : keeps untouched (hotkey keys).
Proof.
  apply platform_call_keeps. intros d. simpl.
  transitivity (application keys d);
    [apply application_untouched | now apply log_keeps_record].
Qed.

Lemma sleep_keeps (ms : Z) : keeps untouched (sleep ms).
Proof. apply keeps_ret. typeclasses eauto. Qed.

#[local] Hint Resolve paste_keeps copy_keeps hotkey_keeps sleep_keeps : frame.

Lemma capture_text_via_clipboard_keeps : keeps untouched capture_text_via_clipboard.
Proof.
  unfold capture_text_via_clipboard, press. frame_steps untouched.
Qed.

End TextMonitorFacts.

(** ** The hotkey listeners *)

Module HotkeyFacts.
Import Py Exec Keys Scenarios.

Ltac split_dispatch :=
  repeat split; intros;
  repeat match goal with
  | H : _ ∈ [] |- _ => inversion H
  | H : _ ∈ [_] |- _ => apply list_elem_of_singleton in H
  | H : _ ∈ _ :: _ |- _ => apply elem_of_cons in H as [H|H]
  | H : _ /\ _ |- _ => destruct H
  | H : _ \/ _ |- _ => destruct H
  end;
  try congruence; try tauto;
  try (simplify_eq; apply list_elem_of_singleton; reflexivity);
  try (simplify_eq; set_solver).

(** _on_press of KeyboardHook on one key: which callbacks are dispatched,
    and what is left of the pressed set. *)
Lemma legacy_on_press (lower_other : N -> list N)
    (h : KeyboardHook.KeyboardHook) (k : key) :
  let p0 := {[normalize lower_other k]} ∪ KeyboardHook.pressed_keys h in
  let p1 := if decide (KeyboardHook.hotkey_combo h ⊆ p0 /\ is_Some (KeyboardHook.callback h))
            then ∅ else p0 in
  let r := KeyboardHook._on_press lower_other h k in
  (forall c, Toggle c ∈ snd r <->
             KeyboardHook.hotkey_combo h ⊆ p0 /\ KeyboardHook.callback h = Some c) /\
  (forall c, Exit c ∈ snd r <->
             KeyboardHook.exit_combo h ⊆ p1 /\ KeyboardHook.exit_callback h = Some c) /\
  (snd r <> [] -> KeyboardHook.pressed_keys (fst r) = ∅).
Proof.
  intros p0 p1 r. subst r. unfold KeyboardHook._on_press. fold p0.
  unfold KeyboardHook.check_toggle.
  destruct (decide (KeyboardHook.hotkey_combo h ⊆ p0)) as [Ht|Ht];
    destruct (KeyboardHook.callback h) as [f|] eqn:Hcb; subst p1;
    [ rewrite decide_True by (split; [exact Ht | eauto])
    | rewrite decide_False by (intros [_ [? ?]]; discriminate)
    | rewrite decide_False by tauto
    | rewrite decide_False by tauto ];
    unfold KeyboardHook.check_exit;
    match goal with |- context [decide (KeyboardHook.exit_combo h ⊆ ?p)] =>
      destruct (decide (KeyboardHook.exit_combo h ⊆ p)) as [He|He] end;
    destruct (KeyboardHook.exit_callback h) as [g|] eqn:Hex; simpl;
    split_dispatch.
Qed.

(** on_press of the pynput handlers of ImprovedKeyboardHook. *)
Lemma improved_on_press (lower_other : N -> list N)
    (h : ImprovedKeyboardHook.ImprovedKeyboardHook)
    (c : ImprovedKeyboardHook.closure) (k : key) :
  let p0 := {[normalize lower_other k]} ∪ ImprovedKeyboardHook.pressed_keys c in
  let p1 := if decide (ImprovedKeyboardHook.toggle_keys c ⊆ p0) then ∅ else p0 in
  let r := ImprovedKeyboardHook.on_press lower_other h c k in
  (forall f, Toggle f ∈ snd r <->
             ImprovedKeyboardHook.toggle_keys c ⊆ p0 /\
             ImprovedKeyboardHook.callback h = Some f) /\
  (forall f, Exit f ∈ snd r <->
             ImprovedKeyboardHook.exit_keys c ⊆ p1 /\
             ImprovedKeyboardHook.exit_callback h = Some f) /\
  (ImprovedKeyboardHook.toggle_keys c ⊆ p0 \/ ImprovedKeyboardHook.exit_keys c ⊆ p1 ->
   ImprovedKeyboardHook.pressed_keys (fst r) = ∅).
Proof.
  intros p0 p1 r. subst r. unfold ImprovedKeyboardHook.on_press. fold p0.
  unfold ImprovedKeyboardHook.check_toggle. subst p1.
  destruct (decide (ImprovedKeyboardHook.toggle_keys c ⊆ p0)) as [Ht|Ht];
    destruct (ImprovedKeyboardHook.callback h) as [f0|] eqn:Hcb;
    unfold ImprovedKeyboardHook.check_exit;
    match goal with |- context [decide (ImprovedKeyboardHook.exit_keys c ⊆ ?p)] =>
      destruct (decide (ImprovedKeyboardHook.exit_keys c ⊆ p)) as [He|He] end;
    destruct (ImprovedKeyboardHook.exit_callback h) as [g|] eqn:Hex; simpl;
    split_dispatch.
Qed.

Lemma legacy_on_release (lower_other : N -> list N)
    (h : KeyboardHook.KeyboardHook) (k : key) :
  KeyboardHook.pressed_keys (KeyboardHook._on_release lower_other h k) =
  KeyboardHook.pressed_keys h ∖ {[normalize lower_other k]}.
Proof.
  unfold KeyboardHook._on_release.
  destruct (decide (normalize lower_other k ∈ KeyboardHook.pressed_keys h)) as [Hin|Hout];
    simpl; [reflexivity |].
  apply set_eq. intros x. rewrite elem_of_difference, elem_of_singleton.
  split; [intros Hx; split; [exact Hx | intros ->; contradiction] | tauto].
Qed.

Lemma improved_on_release (lower_other : N -> list N)
    (c : ImprovedKeyboardHook.closure) (k : key) :
  ImprovedKeyboardHook.pressed_keys (ImprovedKeyboardHook.on_release lower_other c k) =
  ImprovedKeyboardHook.pressed_keys c ∖ {[normalize lower_other k]}.
Proof.
  unfold ImprovedKeyboardHook.on_release.
  destruct (decide (normalize lower_other k ∈ ImprovedKeyboardHook.pressed_keys c))
    as [Hin|Hout]; simpl; [reflexivity |].
  apply set_eq. intros x. rewrite elem_of_difference, elem_of_singleton.
  split; [intros Hx; split; [exact Hx | intros ->; contradiction] | tauto].
Qed.

(** The pressed set a key-down leaves behind: what the two tests, run in
    turn, leave of the set with the key added. *)
Lemma legacy_toggle_leaves (h : KeyboardHook.KeyboardHook) (p : gset key) :
  fst (KeyboardHook.check_toggle h p) =
    if decide (KeyboardHook.hotkey_combo h ⊆ p /\ is_Some (KeyboardHook.callback h))
    then ∅ else p.
Proof.
  unfold KeyboardHook.check_toggle.
  destruct (decide (KeyboardHook.hotkey_combo h ⊆ p)) as [Ht|Ht];
    destruct (KeyboardHook.callback h) as [f|];
    destruct (decide (_ /\ _)) as [[? [? ?]]|Hn]; simplify_eq; try reflexivity;
    try contradiction; exfalso; apply Hn; eauto.
Qed.

Lemma legacy_exit_leaves (h : KeyboardHook.KeyboardHook) (p : gset key) :
  fst (KeyboardHook.check_exit h p) =
    if decide (KeyboardHook.exit_combo h ⊆ p /\ is_Some (KeyboardHook.exit_callback h))
    then ∅ else p.
Proof.
  unfold KeyboardHook.check_exit.
  destruct (decide (KeyboardHook.exit_combo h ⊆ p)) as [Ht|Ht];
    destruct (KeyboardHook.exit_callback h) as [f|];
    destruct (decide (_ /\ _)) as [[? [? ?]]|Hn]; simplify_eq; try reflexivity;
    try contradiction; exfalso; apply Hn; eauto.
Qed.

Lemma legacy_pressed_after_press (lower_other : N -> list N)
    (h : KeyboardHook.KeyboardHook) (k : key) :
  let p0 := {[normalize lower_other k]} ∪ KeyboardHook.pressed_keys h in
  let p1 := if decide (KeyboardHook.hotkey_combo h ⊆ p0 /\ is_Some (KeyboardHook.callback h))
            then ∅ else p0 in
  KeyboardHook.pressed_keys (fst (KeyboardHook._on_press lower_other h k)) =
    if decide (KeyboardHook.exit_combo h ⊆ p1 /\ is_Some (KeyboardHook.exit_callback h))
    then ∅ else p1.
Proof.
  intros p0 p1. subst p1. rewrite <- legacy_toggle_leaves, <- legacy_exit_leaves.
  unfold KeyboardHook._on_press. fold p0.
  destruct (KeyboardHook.check_toggle h p0) as [p1 d1]. cbn [fst].
  destruct (KeyboardHook.check_exit h p1) as [p2 d2]. reflexivity.
Qed.

Lemma improved_pressed_after_press (lower_other : N -> list N)
    (h : ImprovedKeyboardHook.ImprovedKeyboardHook)
    (c : ImprovedKeyboardHook.closure) (k : key) :
  let p0 := {[normalize lower_other k]} ∪ ImprovedKeyboardHook.pressed_keys c in
  let p1 := if decide (ImprovedKeyboardHook.toggle_keys c ⊆ p0) then ∅ else p0 in
  ImprovedKeyboardHook.pressed_keys (fst (ImprovedKeyboardHook.on_press lower_other h c k)) =
    if decide (ImprovedKeyboardHook.exit_keys c ⊆ p1) then ∅ else p1.
Proof.
  intros p0 p1. unfold ImprovedKeyboardHook.on_press. fold p0.
  unfold ImprovedKeyboardHook.check_toggle. subst p1.
  destruct (decide (ImprovedKeyboardHook.toggle_keys c ⊆ p0)) as [Ht|Ht];
    unfold ImprovedKeyboardHook.check_exit;
    match goal with |- context [decide (ImprovedKeyboardHook.exit_keys c ⊆ ?p)] =>
      destruct (decide (ImprovedKeyboardHook.exit_keys c ⊆ p)) as [He|He] end;
    reflexivity.
Qed.

(** C2, as the handlers have it.  On a key-down the key is normalized and
    added to the pressed set; the toggle callback is dispatched exactly
    when it is registered and the toggle chord lies within that set; the
    exit callback exactly when it is registered and the exit chord lies
    within the set the toggle test left behind (empty once the toggle test
    cleared it).  The pressed set after the key-down is the set with the
    key added when no test cleared it, and empty otherwise; so after any
    dispatch it is empty (ImprovedKeyboardHook empties it on every match,
    KeyboardHook when the matched chord has a callback).  A key-up only
    removes the key. *)
Theorem chord_dispatch_on_tracked_set (lower_other : N -> list N) :
  (forall (h : KeyboardHook.KeyboardHook) (k : key),
     let p0 := {[normalize lower_other k]} ∪ KeyboardHook.pressed_keys h in
     let p1 := if decide (KeyboardHook.hotkey_combo h ⊆ p0 /\ is_Some (KeyboardHook.callback h))
               then ∅ else p0 in
     let r := KeyboardHook._on_press lower_other h k in
     (forall c, Toggle c ∈ snd r <->
                KeyboardHook.hotkey_combo h ⊆ p0 /\ KeyboardHook.callback h = Some c) /\
     (forall c, Exit c ∈ snd r <->
                KeyboardHook.exit_combo h ⊆ p1 /\ KeyboardHook.exit_callback h = Some c) /\
     KeyboardHook.pressed_keys (fst r) =
       (if decide (KeyboardHook.exit_combo h ⊆ p1 /\ is_Some (KeyboardHook.exit_callback h))
        then ∅ else p1) /\
     (snd r <> [] -> KeyboardHook.pressed_keys (fst r) = ∅) /\
     KeyboardHook.pressed_keys (KeyboardHook._on_release lower_other h k) =
       KeyboardHook.pressed_keys h ∖ {[normalize lower_other k]}) /\
  (forall (h : ImprovedKeyboardHook.ImprovedKeyboardHook)
          (c : ImprovedKeyboardHook.closure) (k : key),
     let p0 := {[normalize lower_other k]} ∪ ImprovedKeyboardHook.pressed_keys c in
     let p1 := if decide (ImprovedKeyboardHook.toggle_keys c ⊆ p0) then ∅ else p0 in
     let r := ImprovedKeyboardHook.on_press lower_other h c k in
     (forall f, Toggle f ∈ snd r <->
                ImprovedKeyboardHook.toggle_keys c ⊆ p0 /\
                ImprovedKeyboardHook.callback h = Some f) /\
     (forall f, Exit f ∈ snd r <->
                ImprovedKeyboardHook.exit_keys c ⊆ p1 /\
                ImprovedKeyboardHook.exit_callback h = Some f) /\
     ImprovedKeyboardHook.pressed_keys (fst r) =
       (if decide (ImprovedKeyboardHook.exit_keys c ⊆ p1) then ∅ else p1) /\
     (ImprovedKeyboardHook.toggle_keys c ⊆ p0 \/ ImprovedKeyboardHook.exit_keys c ⊆ p1 ->
      ImprovedKeyboardHook.pressed_keys (fst r) = ∅) /\
     ImprovedKeyboardHook.pressed_keys (ImprovedKeyboardHook.on_release lower_other c k) =
       ImprovedKeyboardHook.pressed_keys c ∖ {[normalize lower_other k]}).
Proof.
  split.
  - intros h k p0 p1 r.
    destruct (legacy_on_press lower_other h k) as (H1 & H2 & H3).
    split; [exact H1 | split; [exact H2 |]].
    split; [apply legacy_pressed_after_press |].
    split; [exact H3 | apply legacy_on_release].
  - intros h c k p0 p1 r.
    destruct (improved_on_press lower_other h c k) as (H1 & H2 & H3).
    split; [exact H1 | split; [exact H2 |]].
    split; [apply improved_pressed_after_press |].
    split; [exact H3 | apply improved_on_release].
Qed.

(** C2 as stated fails.  With s, q and ctrl held, pressing shift puts the
    whole exit chord {ctrl, shift, q} among the held keys, and no exit
    callback is dispatched: the toggle chord matched first and emptied the
    set (in both hooks).  And in KeyboardHook a matched toggle chord without
    a registered callback leaves the pressed set as it is. *)
Lemma held_exit_chord_not_dispatched :
  let h3 := fst (KeyboardHook.run ascii_only armed
                   [Down (letter 83 "s"); Down (letter 81 "q"); Down ctrl]) in
  let c3 := fst (ImprovedKeyboardHook.run ascii_only armed_improved
                   (ImprovedKeyboardHook.fresh_closure ascii_only armed_improved)
                   [Down (letter 83 "s"); Down (letter 81 "q"); Down ctrl]) in
  let u2 := fst (KeyboardHook.run ascii_only exit_only [Down ctrl; Down shift]) in
  (KeyboardHook.exit_combo h3 ⊆ {[shift]} ∪ KeyboardHook.pressed_keys h3 /\
   snd (KeyboardHook._on_press ascii_only h3 shift) = [Toggle 1%nat]) /\
  (ImprovedKeyboardHook.exit_keys c3 ⊆ {[shift]} ∪ ImprovedKeyboardHook.pressed_keys c3 /\
   snd (ImprovedKeyboardHook.on_press ascii_only armed_improved c3 shift) = [Toggle 1%nat]) /\
  (KeyboardHook.hotkey_combo u2 ⊆
     {[normalize ascii_only (letter 83 "S")]} ∪ KeyboardHook.pressed_keys u2 /\
   KeyboardHook.pressed_keys (fst (KeyboardHook._on_press ascii_only u2 (letter 83 "S"))) <> ∅).
Proof.
  cbv zeta. repeat split.
  - apply (bool_decide_unpack _). vm_compute. exact I.
  - apply (bool_decide_unpack _). vm_compute. exact I.
  - apply (bool_decide_unpack _). vm_compute. exact I.
  - intros H. apply (f_equal elements) in H. vm_compute in H. discriminate.
Qed.

(** The scenario of the specification: ctrl, shift, s dispatches the toggle
    callback once; releasing s and pressing it again, ctrl and shift still
    down, dispatches nothing more. *)
Example toggle_fires_once :
  snd (KeyboardHook.run ascii_only armed
         [Down ctrl; Down shift; Down (letter 83 "S");
          Up (letter 83 "S"); Down (letter 83 "S")]) = [Toggle 1%nat] /\
  snd (ImprovedKeyboardHook.run ascii_only armed_improved
         (ImprovedKeyboardHook.fresh_closure ascii_only armed_improved)
         [Down ctrl; Down shift; Down (letter 83 "S");
          Up (letter 83 "S"); Down (letter 83 "S")]) = [Toggle 1%nat].
Proof. split; vm_compute; reflexivity. Qed.

(** *** start and stop of KeyboardHook keep flag and subscription together *)

Lemma consistent_init (lower_other : N -> list N) :
  KeyboardHook.consistent (KeyboardHook.init lower_other).
Proof. split; discriminate. Qed.

Lemma consistent_start (h : KeyboardHook.KeyboardHook) :
  KeyboardHook.consistent h -> KeyboardHook.consistent (KeyboardHook.start h).
Proof.
  unfold KeyboardHook.start. intros Hc.
  destruct (KeyboardHook.is_running h) eqn:E; [exact Hc |].
  split; reflexivity.
Qed.

Lemma consistent_stop (h : KeyboardHook.KeyboardHook) :
  KeyboardHook.consistent h -> KeyboardHook.consistent (KeyboardHook.stop h).
Proof.
  unfold KeyboardHook.stop, KeyboardHook.consistent. intros Hc.
  destruct (KeyboardHook.listener h) as [l|] eqn:E; simpl.
  - split; discriminate.
  - rewrite E. exact Hc.
Qed.

Lemma consistent_deliver (lower_other : N -> list N)
    (h : KeyboardHook.KeyboardHook) (e : key_event) :
  KeyboardHook.consistent h ->
  KeyboardHook.consistent (fst (KeyboardHook.deliver lower_other h e)).
Proof.
  unfold KeyboardHook.consistent. intros Hc. destruct e as [k|k]; simpl.
  - unfold KeyboardHook._on_press.
    destruct (KeyboardHook.check_toggle h _) as [p1 d1].
    destruct (KeyboardHook.check_exit h p1) as [p2 d2]. exact Hc.
  - unfold KeyboardHook._on_release. case_decide; exact Hc.
Qed.

End HotkeyFacts.

(** ** The capture chain *)

Module CaptureFacts.
Import Py Exec ExecFacts Window ImprovedTextMonitor.

#[export] Instance untouched_preorder : PreOrder untouched.
Proof.
  split.
  - intros s. split; reflexivity.
  - intros a b c [H1 H2] [H3 H4]. split; congruence.
Qed.

Lemma log_untouched (e : event) (s : sys) :
  is_callback e = false -> untouched s (log e s).
Proof.
  intros He. split; [reflexivity |]. simpl. unfold callbacks.
  rewrite filter_app. cbn. rewrite decide_False by congruence.
  apply app_nil_r.
Qed.

Lemma os_call_keeps {A : Type} (e : event) (a : outcome A) :
  is_callback e = false -> keeps untouched (os_call e a).
Proof. intros He s. now apply log_untouched. Qed.

Lemma answer_keeps {A : Type} (a : outcome A) : keeps untouched (answer a).
Proof. intros s. simpl. reflexivity. Qed.

#[export] Hint Resolve answer_keeps : frame.
#[export] Hint Extern 1 (keeps untouched (os_call _ _)) =>
  apply os_call_keeps; reflexivity : frame.

Lemma window_message_keeps (p : platform) (hwnd : Z) :
  keeps untouched (capture_text_via_window_message p hwnd).
Proof.
  unfold capture_text_via_window_message. frame_steps untouched.
  destruct a as [length buffer]. case_decide; apply (keeps_ret untouched).
Qed.

Lemma uiautomation_keeps (p : platform) (hwnd : Z) :
  keeps untouched (capture_text_via_uiautomation p hwnd).
Proof. unfold capture_text_via_uiautomation. frame_steps untouched. Qed.

Lemma capture_text_smart_keeps (p : platform) (hwnd : Z) :
  keeps untouched (capture_text_smart p hwnd).
Proof.
  unfold capture_text_smart.
  apply (keeps_bind untouched); [apply window_message_keeps | intros text].
  destruct (truthy text); [apply (keeps_ret untouched) |].
  apply (keeps_bind untouched); [apply uiautomation_keeps | intros text2].
  destruct (truthy text2); apply (keeps_ret untouched).
Qed.

Lemma window_message_returns (p : platform) (hwnd : Z) :
  returns (capture_text_via_window_message p hwnd).
Proof. apply returns_try, returns_ret. Qed.

Lemma uiautomation_returns (p : platform) (hwnd : Z) :
  returns (capture_text_via_uiautomation p hwnd).
Proof. apply returns_try, returns_ret. Qed.

Lemma capture_text_smart_returns (p : platform) (hwnd : Z) :
  returns (capture_text_smart p hwnd).
Proof.
  unfold capture_text_smart.
  apply returns_bind; [apply window_message_returns | intros text].
  destruct (truthy text); [apply returns_ret |].
  apply returns_bind; [apply uiautomation_returns | intros text2].
  destruct (truthy text2); apply returns_ret.
Qed.

(** The message strategy sends one message and touches nothing else. *)
Lemma window_message_trace (p : platform) (hwnd : Z) (s : sys) :
  snd (capture_text_via_window_message p hwnd s) = log (MessageSent hwnd) s.
Proof.
  unfold capture_text_via_window_message, try_except, mbind, exec_bind, bind, os_call.
  destruct (SendMessageW p hwnd) as [[length buffer]|]; simpl; [| reflexivity].
  case_decide; reflexivity.
Qed.

Lemma window_message_raise (p : platform) (hwnd : Z) (s : sys) :
  SendMessageW p hwnd = Raise ->
  capture_text_via_window_message p hwnd s = (Ret [], log (MessageSent hwnd) s).
Proof.
  intros H.
  unfold capture_text_via_window_message, try_except, mbind, exec_bind, bind, os_call.
  rewrite H. reflexivity.
Qed.

(** A failure on the way to the accessibility element, or of both its
    patterns, counts as an empty answer. *)
Lemma uiautomation_raise (p : platform) (hwnd : Z) (s : sys) :
  CreateObject p = Raise \/ ElementFromHandle p hwnd = Raise \/
  (exists el, ElementFromHandle p hwnd = Ret el /\
              CurrentValue el = Raise /\ GetText el = Raise) ->
  fst (capture_text_via_uiautomation p hwnd s) = Ret [].
Proof.
  intros H.
  unfold capture_text_via_uiautomation, try_except, mbind, exec_bind, bind, os_call, answer.
  destruct (CreateObject p) as [[]|] eqn:Ec; simpl; [| reflexivity].
  destruct (ElementFromHandle p hwnd) as [el|] eqn:Ee; simpl; [| reflexivity].
  destruct H as [H | [H | [el' (He & Hv & Ht)]]]; try discriminate.
  injection He as <-. rewrite Hv, Ht. reflexivity.
Qed.

(** When the first strategy comes back empty, the chain is the second one. *)
Lemma smart_falls_through (p : platform) (hwnd : Z) (s : sys) :
  fst (capture_text_via_window_message p hwnd s) = Ret [] ->
  capture_text_smart p hwnd s =
  capture_text_via_uiautomation p hwnd (log (MessageSent hwnd) s).
Proof.
  intros H. unfold capture_text_smart, mbind, exec_bind, bind.
  pose proof (window_message_trace p hwnd s) as Ht.
  destruct (capture_text_via_window_message p hwnd s) as [o s1].
  simpl in H, Ht. subst o s1. simpl.
  pose proof (uiautomation_returns p hwnd (log (MessageSent hwnd) s)) as Hr.
  destruct (capture_text_via_uiautomation p hwnd (log (MessageSent hwnd) s))
    as [[text2|] s2]; [| discriminate].
  destruct text2; reflexivity.
Qed.

(** C3.  capture_text_smart sends the WM_GETTEXT message first; a non-empty
    answer is returned at once, with that one message as the only trace (no
    accessibility query); a SendMessageW that raises counts as an empty
    answer, and so does any failure inside the accessibility strategy; when
    the first answer is empty the chain is exactly the accessibility
    strategy run next; the chain itself never raises, and the text it
    returns is empty when neither strategy gave any. *)
Theorem capture_chain_first_answer_wins (p : platform) (hwnd : Z) (s : sys) :
  raised (fst (capture_text_smart p hwnd s)) = false /\
  (forall text,
     fst (capture_text_via_window_message p hwnd s) = Ret text ->
     truthy text = true ->
     capture_text_smart p hwnd s = (Ret text, log (MessageSent hwnd) s)) /\
  (SendMessageW p hwnd = Raise ->
     capture_text_via_window_message p hwnd s = (Ret [], log (MessageSent hwnd) s)) /\
  raised (fst (capture_text_via_uiautomation p hwnd s)) = false /\
  (CreateObject p = Raise \/ ElementFromHandle p hwnd = Raise \/
   (exists el, ElementFromHandle p hwnd = Ret el /\
               CurrentValue el = Raise /\ GetText el = Raise) ->
     fst (capture_text_via_uiautomation p hwnd s) = Ret []) /\
  (fst (capture_text_via_window_message p hwnd s) = Ret [] ->
     capture_text_smart p hwnd s =
     capture_text_via_uiautomation p hwnd (log (MessageSent hwnd) s)) /\
  (fst (capture_text_via_window_message p hwnd s) = Ret [] ->
     fst (capture_text_via_uiautomation p hwnd (log (MessageSent hwnd) s)) = Ret [] ->
     fst (capture_text_smart p hwnd s) = Ret []).
Proof.
  split; [apply capture_text_smart_returns |].
  split.
  { intros text H Ht. unfold capture_text_smart, mbind, exec_bind, bind.
    pose proof (window_message_trace p hwnd s) as Hs.
    destruct (capture_text_via_window_message p hwnd s) as [o s1].
    simpl in H, Hs. subst o s1. rewrite Ht. reflexivity. }
  split; [apply window_message_raise |].
  split; [apply uiautomation_returns |].
  split; [apply uiautomation_raise |].
  split; [apply smart_falls_through |].
  intros H1 H2. rewrite (smart_falls_through p hwnd s H1). exact H2.
Qed.

(** A window answering "Hello" to the message is captured without any
    accessibility query. *)
Lemma capture_chain_first_answer_wins_witness :
  capture_text_smart (Scenarios.notepad 0 (lit "Hello")) 1001 Scenarios.listening =
  (Ret (lit "Hello"), log (MessageSent 1001) Scenarios.listening).
Proof.
  apply (proj1 (proj2 (capture_chain_first_answer_wins
                         (Scenarios.notepad 0 (lit "Hello")) 1001 Scenarios.listening))).
  - vm_compute. reflexivity.
  - reflexivity.
Defined.

(** The scenario of the specification: the first strategy answers "", the
    second "Hello". *)
Example second_strategy_answers :
  fst (capture_text_smart (Scenarios.accessible 0 (lit "Hello")) 1001 Scenarios.listening)
    = Ret (lit "Hello") /\
  trace (snd (capture_text_smart (Scenarios.accessible 0 (lit "Hello")) 1001 Scenarios.listening))
    = [MessageSent 1001; AutomationQueried 1001].
Proof. split; vm_compute; reflexivity. Qed.

End CaptureFacts.

(** ** The monitoring loop *)

Module MonitorFacts.
Import Py Exec ExecFacts Window ImprovedTextMonitor CaptureFacts.

(** *** Two families of facts a computation keeps *)

#[export] Instance adds_only_preorder (allowed : event -> bool) : PreOrder (adds_only allowed).
Proof.
  split.
  - intros s. exists []. split; [now rewrite app_nil_r | reflexivity].
  - intros a b c [n1 [H1 F1]] [n2 [H2 F2]]. exists (n1 ++ n2). split.
    + now rewrite H2, H1, app_assoc.
    + rewrite forallb_app, F1, F2. reflexivity.
Qed.

#[export] Instance on_self_preorder (Q : relation ImprovedTextMonitor) `{!PreOrder Q} :
  PreOrder (on_self Q).
Proof.
  split.
  - intros s. unfold on_self. reflexivity.
  - intros a b c H1 H2. unfold on_self in *. etransitivity; eassumption.
Qed.

#[export] Instance same_flag_preorder : PreOrder same_flag.
Proof. split; [intros m; reflexivity | intros a b c; unfold same_flag; congruence]. Qed.

#[export] Instance same_clock_preorder : PreOrder same_clock.
Proof.
  split; [intros m; repeat split |].
  intros a b c (H1 & H2 & H3) (H4 & H5 & H6). repeat split; congruence.
Qed.

Section TraceFacts.

Variable allowed : event -> bool.

Lemma log_adds (e : event) (s : sys) :
  allowed e = true -> adds_only allowed s (log e s).
Proof. intros He. exists [e]. split; [reflexivity | simpl; now rewrite He]. Qed.

Lemma os_call_adds {A : Type} (e : event) (a : outcome A) :
  allowed e = true -> keeps (adds_only allowed) (os_call e a).
Proof. intros He s. now apply log_adds. Qed.

Lemma invoke_adds (e : event) (b : bool) :
  allowed e = true -> keeps (adds_only allowed) (invoke e b).
Proof. intros He s. now apply log_adds. Qed.

Lemma answer_adds {A : Type} (a : outcome A) : keeps (adds_only allowed) (answer a).
Proof. intros s. simpl. reflexivity. Qed.

Lemma update_self_adds (f : ImprovedTextMonitor -> ImprovedTextMonitor) :
  keeps (adds_only allowed) (update_self f).
Proof. intros s. exists []. split; [simpl; now rewrite app_nil_r | reflexivity]. Qed.

End TraceFacts.

Section SelfFacts.

Variable Q : relation ImprovedTextMonitor.
Context `{!PreOrder Q}.

Lemma os_call_on_self {A : Type} (e : event) (a : outcome A) :
  keeps (on_self Q) (os_call e a).
Proof. intros s. unfold on_self. simpl. reflexivity. Qed.

Lemma invoke_on_self (e : event) (b : bool) : keeps (on_self Q) (invoke e b).
Proof. intros s. unfold on_self. simpl. reflexivity. Qed.

Lemma answer_on_self {A : Type} (a : outcome A) : keeps (on_self Q) (answer a).
Proof. intros s. unfold on_self. simpl. reflexivity. Qed.

Lemma update_self_on_self (f : ImprovedTextMonitor -> ImprovedTextMonitor) :
  (forall m, Q m (f m)) -> keeps (on_self Q) (update_self f).
Proof. intros H s. unfold on_self. simpl. apply H. Qed.

End SelfFacts.

#[export] Hint Resolve answer_adds update_self_adds answer_on_self os_call_on_self
  invoke_on_self : frame.
#[export] Hint Extern 1 (keeps (adds_only _) (os_call _ _)) =>
  apply os_call_adds; reflexivity : frame.
#[export] Hint Extern 1 (keeps (adds_only _) (invoke _ _)) =>
  apply invoke_adds; reflexivity : frame.
#[export] Hint Extern 1 (keeps (on_self _) (update_self _)) =>
  apply update_self_on_self; intros ?; repeat split : frame.

(** Walk down a computation, splitting on what its branches test. *)
Ltac frame_cases R :=
  repeat (frame_steps R;
          try match goal with
              | |- keeps _ (match ?x with _ => _ end) => destruct x
              end).

Lemma tick_keeps_flag (lower_other : N -> list N) (p : platform) :
  keeps (on_self same_flag) (tick lower_other p).
Proof.
  unfold tick, get_active_window, watch_cursor, watch_text, get_cursor_position,
    detect_typing, capture_text_smart, capture_text_via_window_message,
    capture_text_via_uiautomation, pass.
  frame_cases (on_self same_flag).
Qed.

(** *** When the loop enters the capture chain *)

Lemma filter_aside (new : list event) :
  forallb aside new = true -> filter (fun e => is_capture e = true) new = [].
Proof.
  induction new as [|e new IH]; [reflexivity |].
  simpl. intros H. apply andb_true_iff in H as [He Hn].
  unfold aside in He. apply negb_true_iff in He.
  cbn. rewrite decide_False by congruence. now apply IH.
Qed.

Lemma attempts_aside (s s' : sys) :
  adds_only aside s s' -> capture_attempts (trace s') = capture_attempts (trace s).
Proof.
  intros [new [Ht Hf]]. unfold capture_attempts.
  rewrite Ht, filter_app, (filter_aside new Hf), app_nil_r. reflexivity.
Qed.

Lemma attempts_log_message (hwnd : Z) (s : sys) :
  capture_attempts (trace (log (MessageSent hwnd) s)) = S (capture_attempts (trace s)).
Proof.
  unfold capture_attempts. simpl trace. rewrite filter_app, length_app.
  replace (filter (fun e => is_capture e = true) [MessageSent hwnd])
    with [MessageSent hwnd] by reflexivity.
  simpl. lia.
Qed.

Lemma get_active_window_trace (p : platform) (s : sys) :
  snd (get_active_window p s) = log WindowQueried s /\
  raised (fst (get_active_window p s)) = false.
Proof.
  unfold get_active_window, try_except, mbind, exec_bind, bind, os_call, answer.
  destruct (GetForegroundWindow p) as [h|]; simpl; [| split; reflexivity].
  case_decide; simpl; [split; reflexivity |].
  destruct (GetWindowText p h); simpl; [| split; reflexivity].
  destruct (GetClassName p h); simpl; [| split; reflexivity].
  destruct (GetWindowRect p h); simpl; split; reflexivity.
Qed.

Lemma watch_cursor_aside (p : platform) : keeps (adds_only aside) (watch_cursor p).
Proof.
  unfold watch_cursor, get_cursor_position, pass. frame_cases (adds_only aside).
Qed.

Lemma watch_cursor_clock (p : platform) : keeps (on_self same_clock) (watch_cursor p).
Proof.
  unfold watch_cursor, get_cursor_position, pass. frame_cases (on_self same_clock).
Qed.

Lemma uiautomation_aside (p : platform) (hwnd : Z) :
  keeps (adds_only aside) (capture_text_via_uiautomation p hwnd).
Proof. unfold capture_text_via_uiautomation. frame_cases (adds_only aside). Qed.

(** The chain is entered through exactly one WM_GETTEXT message. *)
Lemma smart_attempts (p : platform) (hwnd : Z) (s : sys) :
  capture_attempts (trace (snd (capture_text_smart p hwnd s))) =
  S (capture_attempts (trace s)).
Proof.
  rewrite <- (attempts_log_message hwnd s). apply attempts_aside.
  unfold capture_text_smart, mbind, exec_bind, bind.
  pose proof (window_message_trace p hwnd s) as Hs.
  pose proof (window_message_returns p hwnd s) as Hr.
  destruct (capture_text_via_window_message p hwnd s) as [[text|] s1];
    simpl in Hs, Hr; [subst s1 | discriminate].
  destruct (truthy text); [simpl; reflexivity |].
  pose proof (uiautomation_aside p hwnd (log (MessageSent hwnd) s)) as Hu.
  destruct (capture_text_via_uiautomation p hwnd (log (MessageSent hwnd) s))
    as [[text2|] s2]; simpl in *; [| exact Hu].
  destruct (truthy text2); exact Hu.
Qed.

Lemma watch_text_attempts (p : platform) (w : WindowInfo) (s : sys) :
  capture_attempts (trace (snd (watch_text p w s))) =
  (capture_attempts (trace s) + if decide (due p (self s)) then 1 else 0)%nat.
Proof.
  unfold watch_text, detect_typing, due, mbind, exec_bind, bind, get, pass.
  simpl.
  destruct (decide (time_in_detect_typing p - last_change_time (self s)
                    < typing_timeout (self s))) as [Hty|Hty]; simpl.
  { rewrite decide_False by lia. lia. }
  destruct (decide (time_in_loop p - last_change_time (self s)
                    >= debounce_time (self s))) as [Hdb|Hdb]; simpl.
  2: { rewrite decide_False by lia. lia. }
  rewrite decide_True by lia.
  pose proof (smart_attempts p (hwnd w) s) as Ha.
  pose proof (capture_text_smart_returns p (hwnd w) s) as Hr.
  destruct (capture_text_smart p (hwnd w) s) as [[text|] s1];
    simpl in Ha, Hr; [| discriminate].
  destruct (truthy text && negb (bool_decide (text = last_text (self s1)))); simpl.
  - destruct (text_change_callback (self s1)) as [c|]; simpl.
    + unfold capture_attempts in *. rewrite filter_app, length_app.
      replace (filter (fun e => is_capture e = true) [TextChanged c text])
        with (@nil event) by reflexivity.
      simpl. lia.
    + lia.
  - lia.
Qed.

(** One tick on an editor window whose cursor notice does not raise. *)
Lemma tick_attempts (lower_other : N -> list N) (p : platform) (s : sys) (w : WindowInfo) :
  fst (get_active_window p s) = Ret (Some w) ->
  is_text_editor lower_other (Some w) = true ->
  raised (fst (watch_cursor p (log WindowQueried s))) = false ->
  capture_attempts (trace (snd (tick lower_other p s))) =
  (capture_attempts (trace s) + if decide (due p (self s)) then 1 else 0)%nat.
Proof.
  intros Hw He Hc.
  unfold tick, try_except, mbind, exec_bind, bind.
  destruct (get_active_window_trace p s) as [Hs _].
  destruct (get_active_window p s) as [o s1]. simpl in Hw, Hs. subst o s1.
  rewrite He.
  pose proof (watch_cursor_aside p (log WindowQueried s)) as Ha.
  pose proof (watch_cursor_clock p (log WindowQueried s)) as Hk.
  destruct (watch_cursor p (log WindowQueried s)) as [[[]|] s2];
    simpl in Hc, Ha, Hk; [| discriminate].
  apply attempts_aside in Ha.
  assert (Hlog : capture_attempts (trace (log WindowQueried s)) = capture_attempts (trace s)).
  { apply attempts_aside. apply log_adds. reflexivity. }
  pose proof (watch_text_attempts p w s2) as Ht.
  assert (Hdue : due p (self s2) <-> due p (self s)).
  { unfold on_self, same_clock in Hk. simpl in Hk. destruct Hk as (K1 & K2 & K3).
    unfold due. rewrite K1, K2, K3. reflexivity. }
  assert (Hif : (if decide (due p (self s2)) then 1 else 0)%nat =
                (if decide (due p (self s)) then 1 else 0)%nat).
  { destruct (decide (due p (self s2))), (decide (due p (self s))); tauto. }
  destruct (watch_text p w s2) as [[u|] s3]; simpl in *; lia.
Qed.

(** Without an editor window in front the chain is not entered. *)
Lemma tick_skips_other_windows (lower_other : N -> list N) (p : platform) (s : sys) :
  is_text_editor lower_other (value_or None (fst (get_active_window p s))) = false ->
  snd (tick lower_other p s) = log WindowQueried s.
Proof.
  intros He.
  unfold tick, try_except, mbind, exec_bind, bind.
  destruct (get_active_window_trace p s) as [Hs Hr].
  destruct (get_active_window p s) as [[[w|]|] s1]; simpl in *; subst s1;
    try discriminate; [| reflexivity].
  rewrite He. reflexivity.
Qed.

(** The scenario of the specification, on the configured monitor
    (debounce_time 2000, typing_timeout 3000) whose last change is at 0. *)
Lemma scenario_tick (lower_other : N -> list N) (t : Z) (text : pystr) :
  capture_attempts
    (trace (snd (tick lower_other (Scenarios.notepad t text) Scenarios.listening))) =
  if decide (t >= 3000) then 1%nat else 0%nat.
Proof.
  rewrite (tick_attempts lower_other (Scenarios.notepad t text) Scenarios.listening
             {| hwnd := 1001; title := lit "notes.txt - Notepad";
                class_name := lit "Notepad"; rect := (0, 0, 800, 600) |});
    try reflexivity.
  simpl. unfold due. simpl.
  destruct (decide (t >= 3000)); [rewrite decide_True by lia | rewrite decide_False by lia];
    reflexivity.
Qed.

(** C4, as the loop has it.  On a tick that finds an editor window in front
    and whose cursor notice does not raise, the capture chain is entered
    exactly when the monitor is out of the typing state (the reading of
    detect_typing is at least typing_timeout past the last change) and the
    reading of the loop is at least debounce_time past it; other ticks do
    not enter it.  With the configured 2000 ms quiet period and the 3000 ms
    typing timeout of the class, a change recorded at 0 leads to no capture
    at the tick at 1500 ms, none at 2100 ms, and one at 3000 ms. *)
Theorem capture_waits_for_typing_timeout (lower_other : N -> list N) :
  (forall p s w,
     fst (get_active_window p s) = Ret (Some w) ->
     is_text_editor lower_other (Some w) = true ->
     raised (fst (watch_cursor p (log WindowQueried s))) = false ->
     capture_attempts (trace (snd (tick lower_other p s))) =
     (capture_attempts (trace s) + if decide (due p (self s)) then 1 else 0)%nat) /\
  (forall p s,
     is_text_editor lower_other (value_or None (fst (get_active_window p s))) = false ->
     capture_attempts (trace (snd (tick lower_other p s))) = capture_attempts (trace s)) /\
  (forall text,
     capture_attempts
       (trace (snd (tick lower_other (Scenarios.notepad 1500 text) Scenarios.listening))) = 0%nat /\
     capture_attempts
       (trace (snd (tick lower_other (Scenarios.notepad 2100 text) Scenarios.listening))) = 0%nat /\
     capture_attempts
       (trace (snd (tick lower_other (Scenarios.notepad 3000 text) Scenarios.listening))) = 1%nat).
Proof.
  split; [apply tick_attempts |]. split.
  - intros p s He. rewrite (tick_skips_other_windows lower_other p s He).
    apply attempts_aside, log_adds. reflexivity.
  - intros text. rewrite !scenario_tick. repeat split.
Qed.

(** The first part at the tick at 3000 ms on a notepad holding "Hello". *)
Lemma capture_waits_for_typing_timeout_witness :
  capture_attempts
    (trace (snd (tick ascii_only (Scenarios.notepad 3000 (lit "Hello")) Scenarios.listening))) =
  (capture_attempts (trace Scenarios.listening) +
   if decide (due (Scenarios.notepad 3000 (lit "Hello")) (self Scenarios.listening))
   then 1 else 0)%nat.
Proof.
  apply (proj1 (capture_waits_for_typing_timeout ascii_only)
           (Scenarios.notepad 3000 (lit "Hello")) Scenarios.listening
           {| hwnd := 1001; title := lit "notes.txt - Notepad";
              class_name := lit "Notepad"; rect := (0, 0, 800, 600) |});
    reflexivity.
Defined.

(** C4 as stated fails at 2100 ms: the quiet period of 2000 ms is over, and
    the tick asks for the window and the pointer and nothing else, the
    monitor still being in its typing state. *)
Lemma no_capture_at_2100 :
  let p := Scenarios.notepad 2100 (lit "Hello") in
  time_in_loop p - last_change_time (self Scenarios.listening)
    >= debounce_time (self Scenarios.listening) /\
  trace (snd (tick ascii_only p Scenarios.listening)) = [WindowQueried; PointerQueried] /\
  capture_attempts (trace (snd (tick ascii_only p Scenarios.listening))) = 0%nat.
Proof. cbv zeta. split; [vm_compute; discriminate |]. split; vm_compute; reflexivity. Qed.

(** *** force_capture *)

(** C9.  force_capture of either monitor returns what its capture method
    returns and leaves the monitor record as it was: last_text,
    last_change_time and every other field keep their values, no
    text-changed or cursor-changed callback is invoked, and get_last_text
    answers the same before and after; so also when the text returned is
    new and not empty. *)
Theorem force_capture_leaves_monitor :
  (forall p hwnd s,
     self (snd (force_capture p hwnd s)) = self s /\
     get_last_text (snd (force_capture p hwnd s)) = get_last_text s /\
     callbacks (trace (snd (force_capture p hwnd s))) = callbacks (trace s)) /\
  (forall d,
     TextMonitor.self (snd (TextMonitor.force_capture d)) = TextMonitor.self d /\
     TextMonitor.get_last_text (snd (TextMonitor.force_capture d)) =
       TextMonitor.get_last_text d /\
     TextMonitor.callbacks (TextMonitor.trace (snd (TextMonitor.force_capture d))) =
       TextMonitor.callbacks (TextMonitor.trace d)) /\
  (fst (force_capture (Scenarios.notepad 0 (lit "Hello")) 1001 Scenarios.listening)
     = Ret (lit "Hello") /\
   get_last_text (snd (force_capture (Scenarios.notepad 0 (lit "Hello")) 1001
                         Scenarios.listening)) = []).
Proof.
  split; [| split].
  - intros p hwnd s. destruct (capture_text_smart_keeps p hwnd s) as [H1 H2].
    unfold force_capture, get_last_text. rewrite H1. auto.
  - intros d. destruct (TextMonitorFacts.capture_text_via_clipboard_keeps d) as [H1 H2].
    unfold TextMonitor.force_capture, TextMonitor.get_last_text. rewrite H1. auto.
  - split; vm_compute; reflexivity.
Qed.

(** *** Stopping the loop *)

Section Blind.

Variable b : bool.

Lemma blind_ret {A : Type} (a : A) : blind_to_flag b (mret a : exec sys A).
Proof. intros s. reflexivity. Qed.

Lemma blind_bind {A B : Type} (m : exec sys A) (k : A -> exec sys B) :
  blind_to_flag b m -> (forall a, blind_to_flag b (k a)) -> blind_to_flag b (m ≫= k).
Proof.
  intros Hm Hk s. unfold mbind, exec_bind, bind. rewrite Hm.
  destruct (m s) as [[a|] s1]; simpl; [apply Hk | reflexivity].
Qed.

Lemma blind_try {A : Type} (body handler : exec sys A) :
  blind_to_flag b body -> blind_to_flag b handler ->
  blind_to_flag b (try_except body handler).
Proof.
  intros Hb Hh s. unfold try_except. rewrite Hb.
  destruct (body s) as [[a|] s1]; simpl; [reflexivity | apply Hh].
Qed.

(** Reading the monitor record is harmless when what follows does not
    depend on the flag read. *)
Lemma blind_get {B : Type} (k : sys -> exec sys B) :
  (forall s, blind_to_flag b (k s)) ->
  (forall s, k (with_flag b s) = k s) ->
  blind_to_flag b (get ≫= k).
Proof.
  intros Hk Heq s. unfold mbind, exec_bind, bind, get. simpl.
  rewrite Heq. apply Hk.
Qed.

Lemma blind_os_call {A : Type} (e : event) (a : outcome A) : blind_to_flag b (os_call e a).
Proof. intros s. reflexivity. Qed.

Lemma blind_answer {A : Type} (a : outcome A) : blind_to_flag b (answer a).
Proof. intros s. reflexivity. Qed.

Lemma blind_invoke (e : event) (r : bool) : blind_to_flag b (invoke e r).
Proof. intros s. reflexivity. Qed.

Lemma blind_update (f : ImprovedTextMonitor -> ImprovedTextMonitor) :
  (forall m, f (set_is_monitoring b m) = set_is_monitoring b (f m)) ->
  blind_to_flag b (update_self f).
Proof. intros H s. unfold update_self, modify, with_flag. simpl. now rewrite H. Qed.

End Blind.

Ltac blind_steps :=
  repeat lazymatch goal with
  | |- blind_to_flag _ (try_except _ _) => apply blind_try
  | |- blind_to_flag _ (get ≫= _) =>
      apply blind_get; [intros ? | intros ?; reflexivity]
  | |- blind_to_flag _ (_ ≫= _) => apply blind_bind; [| intros ?]
  | |- blind_to_flag _ (mret _) => apply blind_ret
  | |- blind_to_flag _ (os_call _ _) => apply blind_os_call
  | |- blind_to_flag _ (answer _) => apply blind_answer
  | |- blind_to_flag _ (invoke _ _) => apply blind_invoke
  | |- blind_to_flag _ (update_self _) => apply blind_update; intros ?; reflexivity
  | |- blind_to_flag _ (match ?x with _ => _ end) => destruct x
  end.

(** The tick does not look at is_monitoring. *)
Lemma tick_blind (lower_other : N -> list N) (p : platform) (b : bool) :
  blind_to_flag b (tick lower_other p).
Proof.
  unfold tick, get_active_window, watch_cursor, watch_text, get_cursor_position,
    detect_typing, capture_text_smart, capture_text_via_window_message,
    capture_text_via_uiautomation, pass.
  cbv zeta. blind_steps.
Qed.

Lemma clear_cleared (m : ImprovedTextMonitor) :
  is_monitoring m = false -> set_is_monitoring false m = m.
Proof. destruct m. simpl. intros ->. reflexivity. Qed.

(** Past the loop, or without a thread, nothing moves. *)
Lemma run_loop_at_rest (lower_other : N -> list N) (ps : list platform) (pr : process) :
  loop pr = Some Finished \/ loop pr = None ->
  run_loop lower_other ps pr = pr.
Proof.
  revert pr. induction ps as [|p ps IH]; intros pr H; [reflexivity |].
  simpl. assert (Hstep : loop_step lower_other p pr = pr).
  { unfold loop_step. destruct H as [-> | ->]; reflexivity. }
  rewrite Hstep. now apply IH.
Qed.

(** With the flag cleared the test ends the loop. *)
Lemma run_loop_at_test (lower_other : N -> list N) (ps : list platform) (pr : process) :
  is_monitoring (self (state pr)) = false ->
  loop pr = Some AtTest ->
  state (run_loop lower_other ps pr) = state pr.
Proof.
  intros Hf Hpc. destruct ps as [|p ps]; [reflexivity |].
  simpl. unfold loop_step. rewrite Hpc, Hf.
  rewrite run_loop_at_rest; [reflexivity | now left].
Qed.

Lemma run_loop_at_sleep (lower_other : N -> list N) (ps : list platform) (pr : process) :
  is_monitoring (self (state pr)) = false ->
  loop pr = Some AtSleep ->
  callbacks (trace (state (run_loop lower_other ps pr))) = callbacks (trace (state pr)).
Proof.
  intros Hf Hpc. destruct ps as [|p ps]; [reflexivity |].
  simpl. unfold loop_step. rewrite Hpc.
  rewrite run_loop_at_test; [| exact Hf | reflexivity].
  simpl. unfold callbacks. rewrite filter_app.
  replace (filter (fun e => is_callback e = true)
             [Slept (check_interval (self (state pr)))]) with (@nil event) by reflexivity.
  apply app_nil_r.
Qed.

Lemma run_loop_in_tick (lower_other : N -> list N) (p : platform) (ps : list platform)
    (pr : process) :
  is_monitoring (self (state pr)) = false ->
  loop pr = Some InTick ->
  callbacks (trace (state (run_loop lower_other (p :: ps) pr))) =
  callbacks (trace (snd (tick lower_other p (state pr)))).
Proof.
  intros Hf Hpc. simpl. unfold loop_step at 1. rewrite Hpc.
  rewrite run_loop_at_sleep; [reflexivity | | reflexivity].
  simpl. pose proof (tick_keeps_flag lower_other p (state pr)) as Hk.
  unfold on_self, same_flag in Hk. congruence.
Qed.

(** C7, as the loop has it.  Once the flag is cleared the loop starts no
    tick: standing at its test, at its sleep or past its end, the thread
    fires no callback however long it runs; standing inside a tick, it
    finishes that tick, whose callbacks fire as they would have, and fires
    none after it.  The tick does not read the flag at any point (run with
    either value of the flag it does the same and leaves the flag alone),
    so the one test is at the top of the loop.  Clearing the flag again
    changes nothing. *)
Theorem stopped_loop_ends_after_current_tick (lower_other : N -> list N) (pr : process) :
  is_monitoring (self (state pr)) = false ->
  (loop pr <> Some InTick ->
   forall ps, callbacks (trace (state (run_loop lower_other ps pr))) =
              callbacks (trace (state pr))) /\
  (loop pr = Some InTick ->
   forall p ps, callbacks (trace (state (run_loop lower_other (p :: ps) pr))) =
                callbacks (trace (snd (tick lower_other p (state pr))))) /\
  (forall p b, blind_to_flag b (tick lower_other p)) /\
  stop_clears_flag pr = pr /\
  stop_clears_flag (stop_clears_flag pr) = stop_clears_flag pr.
Proof.
  intros Hf. split; [| split; [| split; [| split]]].
  - intros Hpc ps. destruct (loop pr) as [[| | |]|] eqn:E.
    + rewrite run_loop_at_test; auto.
    + congruence.
    + apply run_loop_at_sleep; auto.
    + rewrite run_loop_at_rest; auto.
    + rewrite run_loop_at_rest; auto.
  - intros Hpc p ps. now apply run_loop_in_tick.
  - intros p b. apply tick_blind.
  - destruct pr as [[m t] l]. unfold stop_clears_flag. simpl in *.
    now rewrite clear_cleared.
  - reflexivity.
Qed.

(** The process of the counterexample below, after its flag was cleared
    inside a tick: the tick still fires its callback, and nothing after,
    here over three more steps of the thread. *)
Lemma stopped_loop_ends_after_current_tick_witness :
  let pr := {| state := with_flag false Scenarios.listening; loop := Some InTick |} in
  let p := Scenarios.notepad 5000 (lit "Hello") in
  callbacks (trace (state (run_loop ascii_only [p; p; p] pr))) =
  callbacks (trace (snd (tick ascii_only p (state pr)))).
Proof.
  intros pr p.
  apply (proj1 (proj2 (stopped_loop_ends_after_current_tick ascii_only pr eq_refl))).
  reflexivity.
Defined.

(** C7 as stated fails.  The loop passes its test; stop_monitoring clears
    the flag and its join gives up after the two seconds while the tick is
    still waiting for the window; the tick then goes on and invokes the
    text-changed callback after stop_monitoring has returned. *)
Lemma callback_after_stop_returned :
  let p := Scenarios.notepad 5000 (lit "Hello") in
  let acts := [StartMonitoring 1%nat; LoopStep p; StopClearsFlag; StopTimedOut; LoopStep p] in
  (fun pr => (is_monitoring (self (state pr)), trace (state pr),
              quiet_after_stop (trace (state pr))))
    <$> steps ascii_only acts Scenarios.idle =
  Some (false,
        [StopReturned; WindowQueried; PointerQueried; MessageSent 1001;
         TextChanged 1%nat (lit "Hello")],
        false).
Proof. vm_compute. reflexivity. Qed.

End MonitorFacts.

(** ** The overlay *)

Module OverlayFacts.
Import Py OverlayWindow.

(** *** Click-through *)

Lemma disable_clears_bit (o : OverlayWindow) :
  win32 o = true -> click_through (_disable_click_through o) = false.
Proof.
  intros H. unfold _disable_click_through, click_through. rewrite H.
  cbn [ex_style set_ex_style].
  rewrite Z.land_spec, Z.lnot_spec by lia.
  replace (Z.testbit WS_EX_TRANSPARENT 5) with true by reflexivity.
  apply andb_false_r.
Qed.

Lemma enable_sets_bit (o : OverlayWindow) :
  win32 o = true -> click_through (_enable_click_through o) = true.
Proof.
  intros H. unfold _enable_click_through, click_through. rewrite H.
  cbn [ex_style set_ex_style].
  rewrite Z.lor_spec.
  replace (Z.testbit WS_EX_TRANSPARENT 5) with true by reflexivity.
  apply orb_true_r.
Qed.

(** *** Error markers *)

Lemma clear_errors_frame (o : OverlayWindow) :
  error_markers (clear_errors o) = [] /\
  next_id (canvas (clear_errors o)) = next_id (canvas o) /\
  ex_style (clear_errors o) = ex_style o /\
  is_menu_visible (clear_errors o) = is_menu_visible o /\
  win32 (clear_errors o) = win32 o.
Proof.
  unfold clear_errors. simpl. repeat split.
  generalize (canvas o). induction (error_markers o) as [|m l IH]; intros c; simpl.
  - reflexivity.
  - rewrite IH. reflexivity.
Qed.

(** What the loop of show_errors does to the overlay: two fresh ids per
    error appended to the marker list, both on the canvas afterwards, and
    nothing below the first fresh id disturbed. *)
Lemma draw_markers_spec (errors : list error) :
  forall (i x y : Z) (o : OverlayWindow),
    let o' := draw_markers i errors x y o in
    let n := 2 * Z.of_nat (length errors) in
    error_markers o' = error_markers o ++ seqZ (next_id (canvas o)) n /\
    next_id (canvas o') = next_id (canvas o) + n /\
    (forall id, id < next_id (canvas o) ->
                items (canvas o') !! id = items (canvas o) !! id) /\
    (forall id, next_id (canvas o) <= id < next_id (canvas o) + n ->
                is_Some (items (canvas o') !! id)) /\
    ex_style o' = ex_style o /\
    is_menu_visible o' = is_menu_visible o /\
    win32 o' = win32 o.
Proof.
  induction errors as [|e rest IH]; intros i x y o; cbv zeta.
  - simpl. rewrite app_nil_r. repeat split; intros; lia.
  - cbn [draw_markers].
    specialize (IH (i + 1) x y (draw_marker i e x y o)). cbv zeta in IH.
    destruct IH as (Hm & Hn & Hlow & Hnew & Hs & Hv & Hw).
    assert (Hnext : next_id (canvas (draw_marker i e x y o)) = next_id (canvas o) + 2)
      by (simpl; lia).
    assert (Hmk : error_markers (draw_marker i e x y o) =
                  error_markers o ++ [next_id (canvas o); next_id (canvas o) + 1])
      by (simpl; now rewrite <- app_assoc).
    rewrite Hnext in *.
    replace (2 * Z.of_nat (length (e :: rest)))
      with (2 + 2 * Z.of_nat (length rest)) by (simpl length; lia).
    split; [| split; [| split; [| split; [| split; [| split]]]]].
    + rewrite Hm, Hmk, <- app_assoc. f_equal.
      rewrite (seqZ_cons (next_id (canvas o))) by lia.
      rewrite (seqZ_cons (Z.succ (next_id (canvas o)))) by lia.
      simpl. repeat f_equal; lia.
    + lia.
    + intros id Hid. rewrite Hlow by lia. simpl.
      rewrite !lookup_insert_ne by lia. reflexivity.
    + intros id Hid.
      destruct (decide (id < next_id (canvas o) + 2)) as [Hlt|Hge].
      * rewrite Hlow by lia. simpl.
        destruct (decide (id = next_id (canvas o))) as [->|Hne].
        -- rewrite lookup_insert_ne by lia. rewrite lookup_insert_eq. eauto.
        -- replace id with (next_id (canvas o) + 1) by lia.
           rewrite lookup_insert_eq. eauto.
      * apply Hnew. lia.
    + rewrite Hs. reflexivity.
    + rewrite Hv. reflexivity.
    + rewrite Hw. reflexivity.
Qed.

Lemma show_errors_frame (errors : list error) (x y : Z) (o : OverlayWindow) :
  ex_style (show_errors errors x y o) = ex_style o /\
  is_menu_visible (show_errors errors x y o) = is_menu_visible o /\
  win32 (show_errors errors x y o) = win32 o.
Proof.
  unfold show_errors.
  destruct (draw_markers_spec (firstn 5 errors) 0 x y (clear_errors o))
    as (_ & _ & _ & _ & Hs & Hv & Hw).
  destruct (clear_errors_frame o) as (_ & _ & Hs' & Hv' & Hw').
  rewrite Hs, Hv, Hw. auto.
Qed.

(** Deleting the old markers takes them off the canvas. *)
Lemma delete_all_gone (l : list Z) (id : Z) :
  forall c : Canvas,
    id ∈ l \/ items c !! id = None ->
    items (fold_left (fun c1 marker => delete_id marker c1) l c) !! id = None.
Proof.
  induction l as [|a l IH]; intros c H; simpl.
  - destruct H as [H | H]; [inversion H | exact H].
  - apply IH. destruct (decide (id = a)) as [->|Hne].
    + right. simpl. apply lookup_delete_eq.
    + destruct H as [H | H].
      * left. apply elem_of_cons in H as [H | H]; [contradiction | exact H].
      * right. simpl. rewrite lookup_delete_ne by congruence. exact H.
Qed.

Lemma clear_errors_deletes (o : OverlayWindow) (id : Z) :
  id ∈ error_markers o -> items (canvas (clear_errors o)) !! id = None.
Proof.
  intros H. unfold clear_errors. simpl. apply delete_all_gone. now left.
Qed.

(** C10.  After show_errors the marker list holds two canvas ids for each
    of the first five errors and nothing else: its length is
    2 * min(len(errors), 5); it is the run of fresh ids starting at the
    canvas's next id, whatever the list held before; every marker in it is
    an item of the canvas; and the markers of the previous call are off the
    canvas. *)
Theorem show_errors_marker_count (errors : list error) (x y : Z) (o : OverlayWindow) :
  length (error_markers (show_errors errors x y o)) = (2 * min (length errors) 5)%nat /\
  error_markers (show_errors errors x y o) =
    seqZ (next_id (canvas o)) (2 * Z.of_nat (min (length errors) 5)) /\
  (forall id, id ∈ error_markers (show_errors errors x y o) ->
              is_Some (items (canvas (show_errors errors x y o)) !! id)) /\
  (forall id, id ∈ error_markers o -> id < next_id (canvas o) ->
              items (canvas (show_errors errors x y o)) !! id = None).
Proof.
  unfold show_errors.
  destruct (draw_markers_spec (firstn 5 errors) 0 x y (clear_errors o))
    as (Hm & Hn & Hlow & Hnew & _).
  destruct (clear_errors_frame o) as (Hc & Hid & _).
  rewrite Hc, Hid in *. simpl in Hm.
  assert (Hlen : length (firstn 5 errors) = min (length errors) 5).
  { rewrite length_take. apply Nat.min_comm. }
  rewrite Hlen in *.
  split; [| split; [| split]].
  - rewrite Hm, length_seqZ. lia.
  - exact Hm.
  - intros id Hin. rewrite Hm in Hin. apply elem_of_seqZ in Hin. apply Hnew. lia.
  - intros id Hin Hlt. rewrite Hlow by lia. now apply clear_errors_deletes.
Qed.

(** Seven errors, then two: four markers are left, all of the second call. *)
Example markers_do_not_pile_up :
  error_markers
    (run [ShowErrors [∅; ∅; ∅; ∅; ∅; ∅; ∅] 3 4;
          ShowErrors [∅; {["type"%string := lit "spelling"]}] 3 4] (init true 0))
  = [11; 12; 13; 14].
Proof. vm_compute. reflexivity. Qed.

(** *** Suggestion callouts and the style *)

Lemma display_suggestion_style (t : pystr) (x y : Z) (o : OverlayWindow) :
  ex_style (display_suggestion t x y o) = ex_style (_disable_click_through o) /\
  is_menu_visible (display_suggestion t x y o) = is_menu_visible o /\
  win32 (display_suggestion t x y o) = win32 o.
Proof.
  unfold display_suggestion, _disable_click_through, create. cbn.
  destruct (win32 o) eqn:Hw; cbn; auto.
Qed.

End OverlayFacts.

(** ** The menu and click-through *)

Module OverlayMenuFacts.
Import Py Exec OverlayWithMenu.

Lemma first_frame_raises : CircleMenu._animate_show 0 0 = raise.
Proof. reflexivity. Qed.

Ltac run_menu :=
  unfold show_menu, hide_menu, mbind, exec_bind, bind, get, update_window, set_circle_menu,
    modify, on_menu,
    CircleMenu.update_position, CircleMenu.show, CircleMenu.hide;
  rewrite ?first_frame_raises;
  unfold CircleMenu.update_menu, CircleMenu.after_cancel, raise, mbind, exec_bind, bind,
    get, modify;
  cbn -[OverlayWindow._disable_click_through OverlayWindow._enable_click_through
        CircleMenu.menu_items].

Ltac each_overlay o :=
  let w := fresh "w" in
  let m := fresh "m" in
  destruct o as [w [m|] [[? ?] ?] ? ? ? ?];
  [destruct m as [? ? [|] ? ? ? ? ? ? [?|]] |].

(** What show_menu leaves behind, whatever menu the overlay had: the
    menu's show raises, in show_menu itself or inside update_position,
    before the flag is set. *)
Lemma show_menu_outcome (x y : Z) (o : overlay) :
  fst (show_menu x y o) = Raise /\
  window (snd (show_menu x y o)) =
    OverlayWindow.set_alpha OverlayWindow.menu_opacity
      (OverlayWindow._disable_click_through (window o)) /\
  (exists m, circle_menu (snd (show_menu x y o)) = Some m /\
             CircleMenu.is_visible m = true /\
             CircleMenu.center_x m = x /\ CircleMenu.center_y m = y /\
             CircleMenu.buttons m = withdrawn) /\
  next_timer (snd (show_menu x y o)) = next_timer o /\
  (forall t, t ∈ timers (snd (show_menu x y o)) -> t ∈ timers o) /\
  handlers (snd (show_menu x y o)) = handlers o.
Proof.
  each_overlay o; run_menu;
    (split; [reflexivity |]); (split; [reflexivity |]);
    (split; [eexists; repeat split |]); (split; [reflexivity |]);
    (split; [| reflexivity]); intros t; rewrite ?list_elem_of_filter; tauto.
Qed.

Lemma hide_menu_outcome (o : overlay) :
  fst (hide_menu o) = Ret tt /\
  window (snd (hide_menu o)) =
    OverlayWindow.set_is_menu_visible false
      (OverlayWindow.set_alpha OverlayWindow.resting_opacity
         (OverlayWindow._enable_click_through (window o))) /\
  (forall m, circle_menu (snd (hide_menu o)) = Some m ->
             CircleMenu.is_visible m = false /\
             (CircleMenu.buttons m = [] \/ circle_menu o = Some m)) /\
  (circle_menu o = None -> circle_menu (snd (hide_menu o)) = None) /\
  next_timer (snd (hide_menu o)) = next_timer o /\
  (forall t, t ∈ timers (snd (hide_menu o)) -> t ∈ timers o) /\
  handlers (snd (hide_menu o)) = handlers o.
Proof.
  each_overlay o; run_menu;
    (split; [reflexivity |]); (split; [reflexivity |]);
    (split; [intros ? ?; simplify_eq; (split; [reflexivity | auto]) |]);
    (split; [intros ?; first [discriminate | reflexivity] |]);
    (split; [reflexivity |]);
    (split; [| reflexivity]); intros t; rewrite ?list_elem_of_filter; tauto.
Qed.

Lemma no_timer_from_none {A : Type} (l : list A) :
  (forall t, t ∈ l -> t ∈ @nil A) -> l = [].
Proof.
  destruct l as [|a l]; [reflexivity |].
  intros H. specialize (H a (list_elem_of_here a l)). now apply elem_of_nil in H.
Qed.

Lemma toggle_is_show (x y : Z) (o : overlay) :
  OverlayWindow.is_menu_visible (window o) = false ->
  toggle_menu x y o = show_menu x y o.
Proof.
  intros H. unfold toggle_menu, mbind, exec_bind, bind, get. rewrite H. reflexivity.
Qed.

Lemma toggle_is_hide (x y : Z) (o : overlay) :
  OverlayWindow.is_menu_visible (window o) = true ->
  toggle_menu x y o = hide_menu o.
Proof.
  intros H. unfold toggle_menu, mbind, exec_bind, bind, get. rewrite H. reflexivity.
Qed.

(** A call on the window alone leaves the flag and the win32 answer as
    they are. *)
Lemma apply_frame (a : OverlayWindow.op) (w : OverlayWindow.OverlayWindow) :
  OverlayWindow.is_menu_visible (OverlayWindow.apply a w) = OverlayWindow.is_menu_visible w /\
  OverlayWindow.win32 (OverlayWindow.apply a w) = OverlayWindow.win32 w.
Proof.
  assert (Hclear : forall w0,
    OverlayWindow.is_menu_visible (OverlayWindow.clear_suggestion w0) =
      OverlayWindow.is_menu_visible w0 /\
    OverlayWindow.win32 (OverlayWindow.clear_suggestion w0) = OverlayWindow.win32 w0).
  { intros w0. unfold OverlayWindow.clear_suggestion, OverlayWindow._enable_click_through.
    cbn. destruct (OverlayWindow.win32 w0) eqn:E; cbn; rewrite ?E; split; reflexivity. }
  destruct a; cbn [OverlayWindow.apply].
  - destruct (OverlayFacts.show_errors_frame errors x y w) as (_ & Hv & Hw). auto.
  - destruct (OverlayFacts.clear_errors_frame w) as (_ & _ & _ & Hv & Hw). auto.
  - split; reflexivity.
  - destruct (OverlayFacts.display_suggestion_style suggestion x y w) as (_ & Hv & Hw). auto.
  - apply Hclear.
  - destruct (OverlayWindow.pending w) as [|n]; [split; reflexivity |].
    apply (Hclear (OverlayWindow.set_pending n w)).
Qed.

(** The flag stays down and no animation timer appears, whatever is asked
    of the overlay. *)
Lemma serve_keeps_flag_down (r : request) (o : overlay) :
  OverlayWindow.is_menu_visible (window o) = false -> timers o = [] ->
  OverlayWindow.is_menu_visible (window (serve r o)) = false /\ timers (serve r o) = [].
Proof.
  intros Hf Ht.
  assert (Hshow : forall x y,
    OverlayWindow.is_menu_visible (window (snd (show_menu x y o))) = false /\
    timers (snd (show_menu x y o)) = []).
  { intros x y. destruct (show_menu_outcome x y o) as (_ & Hw & _ & _ & Hts & _).
    split.
    - rewrite Hw. unfold OverlayWindow._disable_click_through.
      destruct (OverlayWindow.win32 (window o)); exact Hf.
    - apply no_timer_from_none. rewrite <- Ht. exact Hts. }
  destruct r as [x y | | x y | e su a | a]; cbn [serve].
  - apply Hshow.
  - destruct (hide_menu_outcome o) as (_ & Hw & _ & _ & _ & Hts & _).
    split; [rewrite Hw; reflexivity |].
    apply no_timer_from_none. rewrite <- Ht. exact Hts.
  - rewrite (toggle_is_show x y o Hf). apply Hshow.
  - split; assumption.
  - cbn. destruct (apply_frame a (window o)) as [Hv _]. rewrite Hv. split; assumption.
Qed.

Lemma run_keeps_flag_down (rs : list request) :
  forall o,
    OverlayWindow.is_menu_visible (window o) = false -> timers o = [] ->
    OverlayWindow.is_menu_visible (window (run rs o)) = false /\ timers (run rs o) = [].
Proof.
  induction rs as [|r rs IH]; intros o Hf Ht; [split; assumption |].
  destruct (serve_keeps_flag_down r o Hf Ht) as [Hf' Ht'].
  apply (IH (serve r o) Hf' Ht').
Qed.

(** *** The menu stays clickable *)

Lemma show_menu_clickable (x y : Z) (o : overlay) :
  OverlayWindow.win32 (window o) = true ->
  click_through (snd (show_menu x y o)) = false /\
  OverlayWindow.win32 (window (snd (show_menu x y o))) = true /\
  OverlayWindow.is_menu_visible (window (snd (show_menu x y o))) =
    OverlayWindow.is_menu_visible (window o).
Proof.
  intros Hw. destruct (show_menu_outcome x y o) as (_ & Hs & _).
  unfold click_through. rewrite Hs.
  pose proof (OverlayFacts.disable_clears_bit (window o) Hw) as Hbit.
  unfold OverlayWindow._disable_click_through in *. rewrite Hw in *.
  split; [exact Hbit | split; [exact Hw | reflexivity]].
Qed.

Lemma hide_menu_click_through (o : overlay) :
  OverlayWindow.win32 (window o) = true ->
  click_through (snd (hide_menu o)) = true /\
  OverlayWindow.win32 (window (snd (hide_menu o))) = true /\
  OverlayWindow.is_menu_visible (window (snd (hide_menu o))) = false.
Proof.
  intros Hw. destruct (hide_menu_outcome o) as (_ & Hs & _).
  unfold click_through. rewrite Hs.
  pose proof (OverlayFacts.enable_sets_bit (window o) Hw) as Hbit.
  unfold OverlayWindow._enable_click_through in *. rewrite Hw in *.
  split; [exact Hbit | split; [exact Hw | reflexivity]].
Qed.

Lemma serve_keeps_clickable (r : request) (o : overlay) :
  OverlayWindow.win32 (window o) = true ->
  ends_callout r = false ->
  menu_clickable o ->
  menu_clickable (serve r o) /\ OverlayWindow.win32 (window (serve r o)) = true.
Proof.
  intros Hw Hr Hinv. unfold menu_clickable in *.
  destruct r as [x y | | x y | e su a | a]; cbn [serve].
  - destruct (show_menu_clickable x y o Hw) as (Hc & Hw' & _).
    split; [intros _; exact Hc | exact Hw'].
  - destruct (hide_menu_click_through o Hw) as (_ & Hw' & Hv).
    split; [rewrite Hv; discriminate | exact Hw'].
  - destruct (OverlayWindow.is_menu_visible (window o)) eqn:Hflag.
    + rewrite (toggle_is_hide x y o Hflag).
      destruct (hide_menu_click_through o Hw) as (_ & Hw' & Hv).
      split; [rewrite Hv; discriminate | exact Hw'].
    + rewrite (toggle_is_show x y o Hflag).
      destruct (show_menu_clickable x y o Hw) as (Hc & Hw' & _).
      split; [intros _; exact Hc | exact Hw'].
  - split; [exact Hinv | exact Hw].
  - unfold click_through in *. cbn [snd update_window modify window].
    destruct a; simpl in Hr; try discriminate; cbn [OverlayWindow.apply].
    + destruct (OverlayFacts.show_errors_frame errors x y (window o)) as (Hs & Hv & Hw').
      unfold OverlayWindow.click_through in *. rewrite Hs, Hv.
      split; [exact Hinv | congruence].
    + destruct (OverlayFacts.clear_errors_frame (window o)) as (_ & _ & Hs & Hv & Hw').
      unfold OverlayWindow.click_through in *. rewrite Hs, Hv.
      split; [exact Hinv | congruence].
    + split; [exact Hinv | exact Hw].
    + destruct (OverlayFacts.display_suggestion_style suggestion x y (window o))
        as (Hs & Hv & Hw').
      split; [| congruence].
      intros _. unfold OverlayWindow.click_through. rewrite Hs.
      now apply OverlayFacts.disable_clears_bit.
Qed.

Lemma run_keeps_clickable (rs : list request) :
  forall o, OverlayWindow.win32 (window o) = true ->
            forallb (fun r => negb (ends_callout r)) rs = true ->
            menu_clickable o -> menu_clickable (run rs o).
Proof.
  induction rs as [|r rs IH]; intros o Hw Hrs Hinv; [exact Hinv |].
  simpl in Hrs. apply andb_true_iff in Hrs as [Hr Hrs].
  apply negb_true_iff in Hr.
  destruct (serve_keeps_clickable r o Hw Hr Hinv) as [Hinv' Hw'].
  unfold run. simpl. apply IH; assumption.
Qed.

(** C5, as the overlay has it (on a window whose win32 style calls go
    through).  After show_menu click-through is off; after hide_menu, which
    always returns, click-through is on, whatever it was before the menu
    was shown, and the menu-visible flag is off; so showing and hiding the
    menu ends with click-through on.  Along any sequence of show_menu,
    hide_menu, toggle_menu, set_menu_callbacks, show_errors, clear_errors,
    update_cursor_position, display_suggestion and clear_suggestion calls
    and suggestion timers from the creation of the overlay, whenever the
    menu-visible flag is on click-through is off.  And from any state in
    which that holds, every such call but the end of a suggestion callout
    keeps it. *)
Theorem menu_switches_click_through (o : overlay) :
  OverlayWindow.win32 (window o) = true ->
  (forall x y, click_through (snd (show_menu x y o)) = false) /\
  (fst (hide_menu o) = Ret tt /\
   click_through (snd (hide_menu o)) = true /\
   OverlayWindow.is_menu_visible (window (snd (hide_menu o))) = false) /\
  (forall x y, click_through (snd (hide_menu (snd (show_menu x y o)))) = true) /\
  (forall rs available style, menu_clickable (run rs (init available style))) /\
  (forall rs, forallb (fun r => negb (ends_callout r)) rs = true ->
              menu_clickable o -> menu_clickable (run rs o)).
Proof.
  intros Hw. split; [| split; [| split; [| split]]].
  - intros x y. apply (show_menu_clickable x y o Hw).
  - destruct (hide_menu_outcome o) as (Hr & _).
    destruct (hide_menu_click_through o Hw) as (Hc & _ & Hv).
    split; [exact Hr | split; [exact Hc | exact Hv]].
  - intros x y. destruct (show_menu_clickable x y o Hw) as (_ & Hw' & _).
    apply (hide_menu_click_through _ Hw').
  - intros rs available style Hflag.
    destruct (run_keeps_flag_down rs (init available style) eq_refl eq_refl) as [Hdown _].
    congruence.
  - intros rs. now apply run_keeps_clickable.
Qed.

(** On the overlay as created, after show_menu at (640, 360) pointer input
    reaches the overlay. *)
Lemma menu_switches_click_through_witness :
  click_through (snd (show_menu 640 360 (init true 0))) = false.
Proof.
  apply (proj1 (menu_switches_click_through (init true 0) eq_refl) 640 360).
Defined.

(** C5 as stated fails.  A menu shown while a suggestion callout is up
    finds click-through off, and hide_menu leaves it on, not at the value
    it had before the menu was shown. *)
Lemma click_through_not_restored :
  let before := run [OnWindow (OverlayWindow.DisplaySuggestion (lit "and then") 100 100)]
                    (init true 0) in
  let after := snd (hide_menu (snd (show_menu 640 360 before))) in
  click_through before = false /\ click_through after = true.
Proof. vm_compute. split; reflexivity. Qed.

End OverlayMenuFacts.

(** ** Starting twice, stopping twice *)

Module LifecycleFacts.
Import Py Exec Keys.

Lemma legacy_stop_inactive (h : KeyboardHook.KeyboardHook) :
  KeyboardHook.consistent h ->
  KeyboardHook.is_running h = false ->
  KeyboardHook.stop h = h.
Proof.
  unfold KeyboardHook.consistent, KeyboardHook.stop.
  destruct h as [l cb ecb pk run hc ec]. simpl. intros Hc ->.
  destruct l as [[|]|]; [| reflexivity | reflexivity].
  destruct Hc as [_ Hc]. specialize (Hc eq_refl). discriminate.
Qed.

Lemma improved_start_active (lower_other : N -> list N) (s : ImprovedKeyboardHook.system) :
  ImprovedKeyboardHook.is_running (ImprovedKeyboardHook.hook s) = true ->
  ImprovedKeyboardHook.start lower_other s = (Ret tt, s).
Proof.
  intros H. unfold ImprovedKeyboardHook.start, mbind, exec_bind, bind, get.
  rewrite H. reflexivity.
Qed.

Lemma improved_stop_inactive (s : ImprovedKeyboardHook.system) :
  ImprovedKeyboardHook.is_running (ImprovedKeyboardHook.hook s) = false ->
  ImprovedKeyboardHook.stop s = (Ret tt, s).
Proof.
  intros H. unfold ImprovedKeyboardHook.stop, mbind, exec_bind, bind, get.
  rewrite H. reflexivity.
Qed.

Lemma monitor_stop_inactive (pr : ImprovedTextMonitor.process) :
  ImprovedTextMonitor.is_monitoring
    (ImprovedTextMonitor.self (ImprovedTextMonitor.state pr)) = false ->
  ImprovedTextMonitor.stop_clears_flag pr = pr /\
  ImprovedTextMonitor.self
    (ImprovedTextMonitor.state (ImprovedTextMonitor.stop_monitoring pr)) =
    ImprovedTextMonitor.self (ImprovedTextMonitor.state pr) /\
  ImprovedTextMonitor.loop (ImprovedTextMonitor.stop_monitoring pr) =
    ImprovedTextMonitor.loop pr /\
  ImprovedTextMonitor.callbacks
    (ImprovedTextMonitor.trace
       (ImprovedTextMonitor.state (ImprovedTextMonitor.stop_monitoring pr))) =
    ImprovedTextMonitor.callbacks
      (ImprovedTextMonitor.trace (ImprovedTextMonitor.state pr)).
Proof.
  intros H. destruct pr as [[m t] l]. simpl in H.
  unfold ImprovedTextMonitor.stop_monitoring, ImprovedTextMonitor.stop_returns,
    ImprovedTextMonitor.stop_clears_flag. simpl.
  rewrite (MonitorFacts.clear_cleared m H). repeat split.
  unfold ImprovedTextMonitor.callbacks. rewrite filter_app.
  replace (filter (fun e => ImprovedTextMonitor.is_callback e = true)
             [ImprovedTextMonitor.StopReturned])
    with (@nil ImprovedTextMonitor.event) by reflexivity.
  apply app_nil_r.
Qed.

(** C8.  On either hotkey listener, start while running returns at once
    with the state (flag, listener, registered hotkeys) as it was, and stop
    while not running leaves the state as it was; neither raises.  On
    KeyboardHook, whose stop is guarded by the listener and not by the flag,
    this is so in every state where the flag and the listener agree, as
    they do from the constructor on.  start_monitoring on a running monitor
    changes nothing and starts no thread; stop_monitoring on a stopped one
    keeps the monitor record and the loop thread as they were and invokes
    no callback. *)
Theorem start_and_stop_are_idle_when_redundant (lower_other : N -> list N) :
  (forall h, KeyboardHook.is_running h = true -> KeyboardHook.start h = h) /\
  (forall h, KeyboardHook.consistent h ->
             KeyboardHook.is_running h = false -> KeyboardHook.stop h = h) /\
  (forall s, ImprovedKeyboardHook.is_running (ImprovedKeyboardHook.hook s) = true ->
             ImprovedKeyboardHook.start lower_other s = (Ret tt, s)) /\
  (forall s, ImprovedKeyboardHook.is_running (ImprovedKeyboardHook.hook s) = false ->
             ImprovedKeyboardHook.stop s = (Ret tt, s)) /\
  (forall t pr,
     ImprovedTextMonitor.is_monitoring
       (ImprovedTextMonitor.self (ImprovedTextMonitor.state pr)) = true ->
     ImprovedTextMonitor.start_monitoring t pr = pr) /\
  (forall pr,
     ImprovedTextMonitor.is_monitoring
       (ImprovedTextMonitor.self (ImprovedTextMonitor.state pr)) = false ->
     ImprovedTextMonitor.stop_clears_flag pr = pr /\
     ImprovedTextMonitor.self
       (ImprovedTextMonitor.state (ImprovedTextMonitor.stop_monitoring pr)) =
       ImprovedTextMonitor.self (ImprovedTextMonitor.state pr) /\
     ImprovedTextMonitor.loop (ImprovedTextMonitor.stop_monitoring pr) =
       ImprovedTextMonitor.loop pr /\
     ImprovedTextMonitor.callbacks
       (ImprovedTextMonitor.trace
          (ImprovedTextMonitor.state (ImprovedTextMonitor.stop_monitoring pr))) =
       ImprovedTextMonitor.callbacks
         (ImprovedTextMonitor.trace (ImprovedTextMonitor.state pr))).
Proof.
  split; [| split; [| split; [| split; [| split]]]].
  - intros h H. unfold KeyboardHook.start. now rewrite H.
  - apply legacy_stop_inactive.
  - apply improved_start_active.
  - apply improved_stop_inactive.
  - intros t pr H. unfold ImprovedTextMonitor.start_monitoring. now rewrite H.
  - apply monitor_stop_inactive.
Qed.

(** A KeyboardHook started, stopped, and stopped again. *)
Lemma start_and_stop_are_idle_when_redundant_witness :
  let h := KeyboardHook.stop (KeyboardHook.start (KeyboardHook.init ascii_only)) in
  KeyboardHook.stop h = h.
Proof.
  intros h.
  apply (proj1 (proj2 (start_and_stop_are_idle_when_redundant ascii_only)) h).
  - split; simpl; discriminate.
  - reflexivity.
Defined.

(** Started twice, the hook has the one listener of the first start. *)
Example start_twice :
  KeyboardHook.start (KeyboardHook.start (KeyboardHook.init ascii_only)) =
  KeyboardHook.start (KeyboardHook.init ascii_only).
Proof. reflexivity. Qed.

End LifecycleFacts.

(** * Part III: further properties of the code *)

(** ** The improved monitor, call by call *)

Module MonitorMore.
Import Py Exec ExecFacts Window ImprovedTextMonitor CaptureFacts MonitorFacts.

(** X1.  get_active_window never raises and asks for the foreground window
    once.  It answers None exactly when GetForegroundWindow raises or gives
    the null handle, or when reading the title, the class name or the
    rectangle of the window raises; every window it answers has a handle
    other than 0, the handle GetForegroundWindow gave, and the title, class
    name and rectangle read from that handle. *)
Theorem active_window_is_read_whole (p : platform) (s : sys) :
  snd (get_active_window p s) = log WindowQueried s /\
  (fst (get_active_window p s) = Ret None <->
   GetForegroundWindow p = Raise \/ GetForegroundWindow p = Ret 0 \/
   exists h, GetForegroundWindow p = Ret h /\
     (GetWindowText p h = Raise \/ GetClassName p h = Raise \/ GetWindowRect p h = Raise)) /\
  (forall w, fst (get_active_window p s) = Ret (Some w) ->
     hwnd w <> 0 /\
     GetForegroundWindow p = Ret (hwnd w) /\
     GetWindowText p (hwnd w) = Ret (title w) /\
     GetClassName p (hwnd w) = Ret (class_name w) /\
     GetWindowRect p (hwnd w) = Ret (rect w)) /\
  raised (fst (get_active_window p s)) = false.
Proof.
  split; [apply get_active_window_trace |].
  unfold get_active_window, try_except, mbind, exec_bind, bind, os_call, answer.
  destruct (GetForegroundWindow p) as [h|] eqn:Eh; simpl.
  2: { split; [| split; [intros w H; discriminate | reflexivity]].
       split; [intros _; now left | reflexivity]. }
  destruct (decide (h = 0)) as [->|Hne]; simpl.
  { split; [| split; [intros w H; discriminate | reflexivity]].
    split; [intros _; right; now left | reflexivity]. }
  destruct (GetWindowText p h) as [t|] eqn:Et; simpl.
  2: { split; [| split; [intros w H; discriminate | reflexivity]].
       split; [intros _; right; right; exists h; auto | reflexivity]. }
  destruct (GetClassName p h) as [c|] eqn:Ec; simpl.
  2: { split; [| split; [intros w H; discriminate | reflexivity]].
       split; [intros _; right; right; exists h; auto | reflexivity]. }
  destruct (GetWindowRect p h) as [r|] eqn:Er; simpl.
  2: { split; [| split; [intros w H; discriminate | reflexivity]].
       split; [intros _; right; right; exists h; auto | reflexivity]. }
  split; [| split; [| reflexivity]].
  - split; [discriminate |].
    intros [H | [H | [h' [H [H' | [H' | H']]]]]]; simplify_eq; congruence.
  - intros w H. injection H as <-. simpl. auto.
Qed.

(** *** The text a window hands over *)

Lemma until_nul_prefix (units : list N) : until_nul units `prefix_of` units.
Proof.
  induction units as [|u rest IH]; simpl.
  - exists []. reflexivity.
  - case_decide.
    + exists (u :: rest). reflexivity.
    + destruct IH as [k Hk]. exists k. simpl. now rewrite <- Hk.
Qed.

Lemma until_nul_no_nul (units : list N) : 0%N ∉ until_nul units.
Proof.
  induction units as [|u rest IH]; simpl.
  - apply not_elem_of_nil.
  - case_decide; [apply not_elem_of_nil |].
    intros H'. apply elem_of_cons in H' as [H' | H']; [congruence | contradiction].
Qed.

Lemma buffer_value_bounded (written : list N) :
  Z.of_nat (length (buffer_value written)) <= 65536.
Proof.
  unfold buffer_value.
  destruct (until_nul_prefix (firstn buffer_size written)) as [k Hk].
  assert (Hlen : (length (until_nul (firstn buffer_size written))
                  <= length (firstn buffer_size written))%nat).
  { rewrite Hk at 2. rewrite length_app. lia. }
  assert (Hcap : (length (firstn buffer_size written) <= buffer_size)%nat).
  { rewrite length_take. apply Nat.le_min_l. }
  assert (Hsize : Z.of_nat buffer_size = 65536) by reflexivity.
  lia.
Qed.

Lemma buffer_value_prefix (written : list N) : buffer_value written `prefix_of` written.
Proof.
  unfold buffer_value.
  destruct (until_nul_prefix (firstn buffer_size written)) as [k Hk].
  exists (k ++ skipn buffer_size written).
  rewrite app_assoc, <- Hk. symmetry. apply firstn_skipn.
Qed.

(** X2.  The text capture_text_via_window_message returns fits the 65536
    units of its buffer and holds no NUL.  It is the empty string when
    SendMessageW raises and when the length SendMessageW reports is not
    positive, whatever the buffer holds; otherwise it is the start of what
    the window wrote into the buffer, up to the first NUL. *)
Theorem window_text_is_bounded (p : platform) (hwnd : Z) (s : sys) :
  let text := value_or [] (fst (capture_text_via_window_message p hwnd s)) in
  Z.of_nat (length text) <= 65536 /\
  (0%N ∉ text) /\
  (SendMessageW p hwnd = Raise -> text = []) /\
  (forall len written,
     SendMessageW p hwnd = Ret (len, written) ->
     (len <= 0 -> text = []) /\
     (len > 0 -> text = until_nul (firstn buffer_size written) /\
                 text `prefix_of` written)).
Proof.
  cbv zeta.
  unfold capture_text_via_window_message, try_except, mbind, exec_bind, bind, os_call.
  destruct (SendMessageW p hwnd) as [[len written]|] eqn:E; simpl.
  2: { split; [lia |]. split; [apply not_elem_of_nil |].
       split; [reflexivity | intros len written H; discriminate]. }
  destruct (decide (len > 0)) as [Hpos|Hneg]; simpl.
  - split; [apply buffer_value_bounded |].
    split; [apply until_nul_no_nul |].
    split; [discriminate |].
    intros len' written' H. injection H as <- <-.
    split; [lia |]. intros _. split; [reflexivity | apply buffer_value_prefix].
  - split; [lia |]. split; [apply not_elem_of_nil |].
    split; [discriminate |].
    intros len' written' H. injection H as <- <-.
    split; [reflexivity | lia].
Qed.

(** A window reporting three units for a buffer holding "ab", NUL, "cd". *)
Example text_stops_at_nul :
  buffer_value [97; 98; 0; 99; 100]%N = lit "ab".
Proof. vm_compute. reflexivity. Qed.

(** *** The accessibility strategy *)

(** X3.  With the UI Automation client and the element at hand, the value
    pattern answers first: what it returns is the result, also when it is
    the empty string, and the text pattern is only consulted when the value
    pattern raises.  So a window that answers WM_GETTEXT with nothing and
    whose value pattern is empty is captured as the empty string, whatever
    its text pattern holds. *)
Theorem value_pattern_answers_first (p : platform) (hwnd : Z) (s : sys) (el : element) :
  CreateObject p = Ret tt ->
  ElementFromHandle p hwnd = Ret el ->
  capture_text_via_uiautomation p hwnd s =
    (Ret match CurrentValue el with
         | Ret text => text
         | Raise => match GetText el with Ret text => text | Raise => [] end
         end,
     log (AutomationQueried hwnd) s) /\
  (CurrentValue el = Ret [] ->
   fst (capture_text_via_window_message p hwnd s) = Ret [] ->
   fst (capture_text_smart p hwnd s) = Ret []).
Proof.
  intros Hc He.
  assert (Hu : forall s0, capture_text_via_uiautomation p hwnd s0 =
    (Ret match CurrentValue el with
         | Ret text => text
         | Raise => match GetText el with Ret text => text | Raise => [] end
         end,
     log (AutomationQueried hwnd) s0)).
  { intros s0.
    unfold capture_text_via_uiautomation, try_except, mbind, exec_bind, bind, os_call, answer.
    rewrite Hc, He. simpl.
    destruct (CurrentValue el); simpl; [reflexivity |].
    destruct (GetText el); reflexivity. }
  split; [apply Hu |].
  intros Hv Hw. rewrite (smart_falls_through p hwnd s Hw), Hu, Hv. reflexivity.
Qed.

(** A rich-text control: empty value pattern, text in the text pattern. *)
Lemma value_pattern_answers_first_witness :
  let p := {| GetForegroundWindow := Ret 1001;
              GetWindowText := fun _ => Ret (lit "report.hwp");
              GetClassName := fun _ => Ret (lit "HwpFrame");
              GetWindowRect := fun _ => Ret (0, 0, 800, 600);
              position := Ret (0, 0);
              SendMessageW := fun _ => Ret (0, []);
              CreateObject := Ret tt;
              ElementFromHandle := fun _ =>
                Ret {| CurrentValue := Ret []; GetText := Ret (lit "Dear all") |};
              time_in_detect_typing := 0; time_in_loop := 0;
              callback_raises := fun _ => false |} in
  fst (capture_text_smart p 1001 Scenarios.listening) = Ret [].
Proof.
  intros p.
  apply (proj2 (value_pattern_answers_first p 1001 Scenarios.listening
                  {| CurrentValue := Ret []; GetText := Ret (lit "Dear all") |}
                  eq_refl eq_refl)); reflexivity.
Defined.

(** *** What a tick records and whom it tells *)

Lemma callbacks_app (t u : list event) : callbacks (t ++ u) = callbacks t ++ callbacks u.
Proof. unfold callbacks. apply filter_app. Qed.

(** X4.  The text part of a tick.  Before the debounce test passes it does
    nothing at all.  Once it passes, the chain is run, and a captured text
    that is not empty and differs from last_text is stored in last_text,
    the loop's clock reading is stored in last_change_time, and then the
    text-changed callback, if one is registered, is invoked once with that
    text; a captured text that is empty or equal to last_text leaves the
    record as it was and invokes nothing (so a document that became empty
    is never recorded). *)
Theorem text_change_is_recorded_then_told (p : platform) (w : WindowInfo) (s : sys) :
  let text := value_or [] (fst (capture_text_smart p (hwnd w) s)) in
  let s' := snd (watch_text p w s) in
  (~ due p (self s) -> s' = s) /\
  (due p (self s) -> truthy text = true -> text <> last_text (self s) ->
   self s' = set_last_change_time (time_in_loop p) (set_last_text text (self s)) /\
   callbacks (trace s') = callbacks (trace s) ++ MonitorViews.text_notice (self s) text) /\
  (due p (self s) -> text = [] \/ text = last_text (self s) ->
   self s' = self s /\ callbacks (trace s') = callbacks (trace s)).
Proof.
  cbv zeta.
  unfold watch_text, detect_typing, due, mbind, exec_bind, bind, get, pass.
  simpl.
  destruct (decide (time_in_detect_typing p - last_change_time (self s)
                    < typing_timeout (self s))) as [Hty|Hty]; simpl.
  { split; [reflexivity |]. split; intros [H1 H2]; lia. }
  destruct (decide (time_in_loop p - last_change_time (self s)
                    >= debounce_time (self s))) as [Hdb|Hdb]; simpl.
  2: { split; [reflexivity |]. split; intros [H1 H2]; lia. }
  split; [intros H; exfalso; apply H; split; lia |].
  pose proof (capture_text_smart_keeps p (hwnd w) s) as [Hself Hcb].
  pose proof (capture_text_smart_returns p (hwnd w) s) as Hr.
  destruct (capture_text_smart p (hwnd w) s) as [[text|] s1];
    simpl in Hself, Hcb, Hr |- *; [| discriminate].
  rewrite Hself. split.
  - intros _ Ht Hne. rewrite Ht. rewrite bool_decide_eq_false_2 by exact Hne. simpl.
    unfold MonitorViews.text_notice.
    destruct (text_change_callback (self s)) as [c|]; simpl.
    + rewrite Hself. split; [reflexivity |].
      rewrite callbacks_app, Hcb. reflexivity.
    + rewrite Hself, Hcb, app_nil_r. split; reflexivity.
  - intros _ [-> | ->]; simpl.
    + split; [exact Hself | exact Hcb].
    + rewrite bool_decide_eq_true_2 by reflexivity. rewrite andb_false_r. simpl.
      split; [exact Hself | exact Hcb].
Qed.

(** The first capture of "Hello" by a fresh monitor, 5 s after start. *)
Lemma text_change_is_recorded_then_told_witness :
  let p := Scenarios.notepad 5000 (lit "Hello") in
  let w := {| hwnd := 1001; title := lit "notes.txt - Notepad";
              class_name := lit "Notepad"; rect := (0, 0, 800, 600) |} in
  let s' := snd (watch_text p w Scenarios.listening) in
  self s' = set_last_change_time 5000 (set_last_text (lit "Hello") (self Scenarios.listening)) /\
  callbacks (trace s') = [TextChanged 1%nat (lit "Hello")].
Proof.
  intros p w s'.
  apply (proj1 (proj2 (text_change_is_recorded_then_told p w Scenarios.listening))).
  - split; vm_compute; discriminate.
  - reflexivity.
  - discriminate.
Defined.

#[export] Instance same_setup_preorder : PreOrder MonitorViews.same_setup.
Proof.
  split.
  - intros m. repeat split.
  - intros a b c H1 H2. unfold MonitorViews.same_setup in *.
    destruct H1 as (A1 & A2 & A3 & A4 & A5 & A6 & A7 & A8).
    destruct H2 as (B1 & B2 & B3 & B4 & B5 & B6 & B7 & B8).
    repeat split; congruence.
Qed.




(** *** The cursor part of a tick *)

Lemma callbacks_pointer (t : list event) : callbacks (t ++ [PointerQueried]) = callbacks t.
Proof. rewrite callbacks_app. apply app_nil_r. Qed.

Lemma set_same_cursor (m : ImprovedTextMonitor) : set_last_cursor_pos (last_cursor_pos m) m = m.
Proof. destruct m. reflexivity. Qed.

Lemma watch_cursor_spec (p : platform) (s : sys) :
  let pos := value_or (0, 0) (position p) in
  let s' := snd (watch_cursor p s) in
  self s' = set_last_cursor_pos pos (self s) /\
  (pos = last_cursor_pos (self s) ->
   s' = log PointerQueried s /\ fst (watch_cursor p s) = Ret tt) /\
  (pos <> last_cursor_pos (self s) ->
   trace s' = trace s ++ PointerQueried :: MonitorViews.cursor_notice (self s) pos /\
   callbacks (trace s') = callbacks (trace s) ++ MonitorViews.cursor_notice (self s) pos /\
   (raised (fst (watch_cursor p s)) = true <->
    exists c, cursor_change_callback (self s) = Some c /\ callback_raises p c = true)).
Proof.
  cbv zeta.
  assert (Hcall : get_cursor_position p s =
                  (Ret (value_or (0, 0) (position p)), log PointerQueried s)).
  { unfold get_cursor_position, try_except, os_call. destruct (position p); reflexivity. }
  unfold watch_cursor, mbind, exec_bind, bind. rewrite Hcall.
  generalize (value_or (0, 0) (position p)). intros pos.
  unfold get, pass, update_self, modify, invoke, MonitorViews.cursor_notice.
  destruct s as [m t]. simpl.
  destruct (decide (pos = last_cursor_pos m)) as [->|Hne]; simpl.
  { rewrite set_same_cursor. split; [reflexivity |]. split; [auto | congruence]. }
  destruct (cursor_change_callback m) as [c|]; simpl.
  - split; [reflexivity |]. split; [congruence |]. intros _.
    split; [rewrite <- app_assoc; reflexivity |].
    rewrite callbacks_app, callbacks_pointer. split; [reflexivity |].
    destruct (callback_raises p c) eqn:E; simpl.
    + split; [eauto | reflexivity].
    + split; [discriminate | intros [c' [Hc Hr]]; congruence].
  - split; [reflexivity |]. split; [congruence |]. intros _.
    split; [reflexivity |].
    rewrite callbacks_pointer, app_nil_r. split; [reflexivity |].
    split; [discriminate | intros [c' [Hc Hr]]; discriminate].
Qed.

(** X6.  The cursor part of a tick reads the pointer once, whether it has
    moved or not; a reading that fails counts as (0, 0).  The position read
    is stored in last_cursor_pos and nothing else of the record changes.
    The cursor-changed callback, if one is registered, is invoked with the
    new coordinates exactly when the position differs from the one stored,
    and the part raises exactly when that callback does. *)
Theorem cursor_move_is_recorded_then_told (p : platform) (s : sys) :
  let pos := value_or (0, 0) (position p) in
  let s' := snd (watch_cursor p s) in
  self s' = set_last_cursor_pos pos (self s) /\
  (pos = last_cursor_pos (self s) ->
   s' = log PointerQueried s /\ fst (watch_cursor p s) = Ret tt) /\
  (pos <> last_cursor_pos (self s) ->
   trace s' = trace s ++ PointerQueried :: MonitorViews.cursor_notice (self s) pos /\
   callbacks (trace s') = callbacks (trace s) ++ MonitorViews.cursor_notice (self s) pos /\
   (raised (fst (watch_cursor p s)) = true <->
    exists c, cursor_change_callback (self s) = Some c /\ callback_raises p c = true)).
Proof. exact (watch_cursor_spec p s). Qed.

(** X7.  When the cursor-changed callback raises, the tick ends there: the
    capture chain is not entered on that tick and last_text and
    last_change_time stay as they were, however long the text has been
    quiet. *)
Theorem raising_cursor_callback_skips_capture (lower_other : N -> list N)
    (p : platform) (s : sys) :
  raised (fst (watch_cursor p (log WindowQueried s))) = true ->
  capture_attempts (trace (snd (tick lower_other p s))) = capture_attempts (trace s) /\
  last_text (self (snd (tick lower_other p s))) = last_text (self s) /\
  last_change_time (self (snd (tick lower_other p s))) = last_change_time (self s).
Proof.
  intros Hraise.
  assert (Hlog : capture_attempts (trace (log WindowQueried s)) = capture_attempts (trace s)).
  { apply attempts_aside, log_adds. reflexivity. }
  unfold tick, try_except, mbind, exec_bind, bind.
  destruct (get_active_window_trace p s) as [Hs Hr].
  destruct (get_active_window p s) as [[[w|]|] s1]; simpl in Hs, Hr; subst;
    try discriminate; [| simpl; auto].
  destruct (is_text_editor lower_other (Some w)); [| simpl; auto].
  pose proof (watch_cursor_aside p (log WindowQueried s)) as Ha.
  destruct (watch_cursor_spec p (log WindowQueried s)) as [Hself _].
  cbv zeta in Hself.
  destruct (watch_cursor p (log WindowQueried s)) as [[[]|] s2];
    simpl in Hraise, Ha, Hself |- *; [discriminate |].
  apply attempts_aside in Ha. rewrite Hself. simpl. split; [lia | auto].
Qed.

(** A pointer that moved to (5, 5) over a notepad whose text has long been
    quiet, and a cursor callback that raises. *)
Lemma raising_cursor_callback_skips_capture_witness :
  let p := {| GetForegroundWindow := Ret 1001;
              GetWindowText := fun _ => Ret (lit "notes.txt - Notepad");
              GetClassName := fun _ => Ret (lit "Notepad");
              GetWindowRect := fun _ => Ret (0, 0, 800, 600);
              position := Ret (5, 5);
              SendMessageW := fun _ => Ret (5, lit "Hello");
              CreateObject := Raise;
              ElementFromHandle := fun _ => Raise;
              time_in_detect_typing := 9000; time_in_loop := 9000;
              callback_raises := fun _ => true |} in
  let s := {| self := set_cursor_change_callback 2%nat (self Scenarios.listening);
              trace := [] |} in
  capture_attempts (trace (snd (tick ascii_only p s))) = capture_attempts (trace s) /\
  last_text (self (snd (tick ascii_only p s))) = last_text (self s) /\
  last_change_time (self (snd (tick ascii_only p s))) = last_change_time (self s).
Proof.
  intros p s.
  apply (raising_cursor_callback_skips_capture ascii_only p s). reflexivity.
Defined.

End MonitorMore.

(** ** The hotkey listeners, over whole runs *)

Module HotkeyMore.
Import Py Exec Keys HookRuns.

#[local] Set Warnings "-clear-no-such-hyp".

(** *** Flag and listener *)

Lemma obey_consistent (lower_other : N -> list N) (h : KeyboardHook.KeyboardHook)
    (c : command) :
  KeyboardHook.consistent h -> KeyboardHook.consistent (obey lower_other h c).
Proof.
  intros H. destruct c; simpl.
  - now apply HotkeyFacts.consistent_start.
  - now apply HotkeyFacts.consistent_stop.
  - exact H.
  - exact H.
  - now apply HotkeyFacts.consistent_deliver.
Qed.

Lemma obey_running (lower_other : N -> list N) (h : KeyboardHook.KeyboardHook)
    (c : command) :
  KeyboardHook.consistent h ->
  KeyboardHook.is_running (obey lower_other h c) =
  started (KeyboardHook.is_running h) [c].
Proof.
  intros Hc. destruct c; simpl.
  - unfold KeyboardHook.start. destruct (KeyboardHook.is_running h) eqn:E; [exact E | reflexivity].
  - unfold KeyboardHook.stop. destruct (KeyboardHook.listener h) as [l|] eqn:E; [reflexivity |].
    destruct (KeyboardHook.is_running h) eqn:Er; [| reflexivity].
    destruct Hc as [Hc _]. specialize (Hc Er). congruence.
  - reflexivity.
  - reflexivity.
  - destruct e as [k|k]; simpl.
    + unfold KeyboardHook._on_press.
      destruct (KeyboardHook.check_toggle h _) as [p1 d1].
      destruct (KeyboardHook.check_exit h p1) as [p2 d2]. reflexivity.
    + unfold KeyboardHook._on_release. case_decide; reflexivity.
Qed.

Lemma started_step (b : bool) (c : command) (cs : list command) :
  started b (c :: cs) = started (started b [c]) cs.
Proof. destruct c; reflexivity. Qed.

Lemma drive_spec (lower_other : N -> list N) (cs : list command) :
  forall h, KeyboardHook.consistent h ->
    KeyboardHook.consistent (drive lower_other cs h) /\
    KeyboardHook.is_running (drive lower_other cs h) =
      started (KeyboardHook.is_running h) cs.
Proof.
  induction cs as [|c cs IH]; intros h Hc; [split; [exact Hc | reflexivity] |].
  unfold drive. simpl fold_left.
  destruct (IH (obey lower_other h c) (obey_consistent lower_other h c Hc)) as [H1 H2].
  split; [exact H1 |].
  unfold drive in H2. rewrite H2, (obey_running lower_other h c Hc).
  symmetry. apply started_step.
Qed.

(** X8.  Whatever the application does with a KeyboardHook after
    constructing it (start, stop, registering callbacks) and whatever keys
    arrive, is_active answers true exactly when the last start or stop was
    a start, and the flag is true exactly when the hook's listener is a
    running one: the flag never claims a subscription that is not there,
    and no running listener is left behind a cleared flag. *)
Theorem hook_flag_follows_listener (lower_other : N -> list N) (cs : list command) :
  let h := drive lower_other cs (KeyboardHook.init lower_other) in
  KeyboardHook.is_active h = started false cs /\
  (KeyboardHook.is_running h = true <-> KeyboardHook.listener h = Some Running).
Proof.
  cbv zeta.
  destruct (drive_spec lower_other cs (KeyboardHook.init lower_other)
              (HotkeyFacts.consistent_init lower_other)) as [H1 H2].
  split; [exact H2 | exact H1].
Qed.

(** *** A chord needs a fresh press of each of its keys *)

Lemma legacy_press_bound (lower_other : N -> list N) (h : KeyboardHook.KeyboardHook) (k : key) :
  let r := KeyboardHook._on_press lower_other h k in
  KeyboardHook.pressed_keys (fst r) ⊆
    {[normalize lower_other k]} ∪ KeyboardHook.pressed_keys h /\
  KeyboardHook.hotkey_combo (fst r) = KeyboardHook.hotkey_combo h /\
  KeyboardHook.exit_combo (fst r) = KeyboardHook.exit_combo h /\
  KeyboardHook.callback (fst r) = KeyboardHook.callback h /\
  KeyboardHook.exit_callback (fst r) = KeyboardHook.exit_callback h.
Proof.
  cbv zeta. unfold KeyboardHook._on_press, KeyboardHook.check_toggle, KeyboardHook.check_exit.
  destruct (decide (KeyboardHook.hotkey_combo h ⊆ _)) as [Ht|Ht];
    destruct (KeyboardHook.callback h) as [f|] eqn:Ecb;
    match goal with |- context [decide (KeyboardHook.exit_combo h ⊆ ?p)] =>
      destruct (decide (KeyboardHook.exit_combo h ⊆ p)) as [He|He] end;
    destruct (KeyboardHook.exit_callback h) as [g|] eqn:Eex; simpl;
    (split; [set_solver | repeat split; assumption]).
Qed.

Lemma legacy_deliver_bound (lower_other : N -> list N) (h : KeyboardHook.KeyboardHook)
    (e : key_event) :
  let r := KeyboardHook.deliver lower_other h e in
  KeyboardHook.pressed_keys (fst r) ⊆ KeyboardHook.pressed_keys h ∪ downs lower_other [e] /\
  KeyboardHook.hotkey_combo (fst r) = KeyboardHook.hotkey_combo h /\
  KeyboardHook.exit_combo (fst r) = KeyboardHook.exit_combo h /\
  KeyboardHook.callback (fst r) = KeyboardHook.callback h /\
  KeyboardHook.exit_callback (fst r) = KeyboardHook.exit_callback h.
Proof.
  cbv zeta. destruct e as [k|k]; simpl.
  - destruct (legacy_press_bound lower_other h k) as (H & H'). split; [set_solver | exact H'].
  - unfold KeyboardHook._on_release. case_decide; simpl; (split; [set_solver | repeat split]).
Qed.

Lemma legacy_run_bound (lower_other : N -> list N) (es : list key_event) :
  forall h : KeyboardHook.KeyboardHook,
    let r := KeyboardHook.run lower_other h es in
    KeyboardHook.pressed_keys (fst r) ⊆ KeyboardHook.pressed_keys h ∪ downs lower_other es /\
    (forall c, Toggle c ∈ snd r ->
       KeyboardHook.hotkey_combo h ⊆ KeyboardHook.pressed_keys h ∪ downs lower_other es) /\
    (forall c, Exit c ∈ snd r ->
       KeyboardHook.exit_combo h ⊆ KeyboardHook.pressed_keys h ∪ downs lower_other es).
Proof.
  induction es as [|e es IH]; intros h; cbv zeta.
  - simpl. split; [set_solver |]. split; intros c H; inversion H.
  - cbn [KeyboardHook.run].
    destruct (legacy_deliver_bound lower_other h e) as (Hb & Ht & He & _).
    cbv zeta in Hb.
    assert (Hfire : (forall c, Toggle c ∈ snd (KeyboardHook.deliver lower_other h e) ->
                       KeyboardHook.hotkey_combo h ⊆
                         KeyboardHook.pressed_keys h ∪ downs lower_other [e]) /\
                    (forall c, Exit c ∈ snd (KeyboardHook.deliver lower_other h e) ->
                       KeyboardHook.exit_combo h ⊆
                         KeyboardHook.pressed_keys h ∪ downs lower_other [e])).
    { destruct e as [k|k]; simpl; [| split; intros c H; inversion H].
      destruct (HotkeyFacts.legacy_on_press lower_other h k) as (H1 & H2 & _).
      split; intros c H.
      - apply H1 in H as [H _]. set_solver.
      - apply H2 in H as [H _]. case_decide; set_solver. }
    destruct Hfire as [Hf1 Hf2].
    destruct (KeyboardHook.deliver lower_other h e) as [h1 d1]. cbn [fst snd] in *.
    specialize (IH h1). cbv zeta in IH. destruct IH as (IHb & IHt & IHe).
    destruct (KeyboardHook.run lower_other h1 es) as [h2 d2]. cbn [fst snd] in *.
    assert (Hd : downs lower_other (e :: es) = downs lower_other [e] ∪ downs lower_other es).
    { destruct e; simpl; set_solver. }
    rewrite Hd. rewrite Ht in IHt. rewrite He in IHe.
    split; [clear -Hb IHb; set_solver |].
    split; intros c H; apply elem_of_app in H as [H | H].
    + specialize (Hf1 c H). clear -Hf1. set_solver.
    + specialize (IHt c H). clear -IHt Hb. set_solver.
    + specialize (Hf2 c H). clear -Hf2. set_solver.
    + specialize (IHe c H). clear -IHe Hb. set_solver.
Qed.

Lemma improved_press_bound (lower_other : N -> list N)
    (h : ImprovedKeyboardHook.ImprovedKeyboardHook)
    (c : ImprovedKeyboardHook.closure) (k : key) :
  let r := ImprovedKeyboardHook.on_press lower_other h c k in
  ImprovedKeyboardHook.pressed_keys (fst r) ⊆
    {[normalize lower_other k]} ∪ ImprovedKeyboardHook.pressed_keys c /\
  ImprovedKeyboardHook.toggle_keys (fst r) = ImprovedKeyboardHook.toggle_keys c /\
  ImprovedKeyboardHook.exit_keys (fst r) = ImprovedKeyboardHook.exit_keys c.
Proof.
  cbv zeta. unfold ImprovedKeyboardHook.on_press, ImprovedKeyboardHook.check_toggle,
    ImprovedKeyboardHook.check_exit.
  destruct (decide (ImprovedKeyboardHook.toggle_keys c ⊆ _)) as [Ht|Ht];
    match goal with |- context [decide (ImprovedKeyboardHook.exit_keys c ⊆ ?p)] =>
      destruct (decide (ImprovedKeyboardHook.exit_keys c ⊆ p)) as [He|He] end;
    simpl; (split; [set_solver | repeat split]).
Qed.

Lemma improved_run_bound (lower_other : N -> list N)
    (h : ImprovedKeyboardHook.ImprovedKeyboardHook) (es : list key_event) :
  forall c : ImprovedKeyboardHook.closure,
    let r := ImprovedKeyboardHook.run lower_other h c es in
    ImprovedKeyboardHook.pressed_keys (fst r) ⊆
      ImprovedKeyboardHook.pressed_keys c ∪ downs lower_other es /\
    (forall f, Toggle f ∈ snd r ->
       ImprovedKeyboardHook.toggle_keys c ⊆
         ImprovedKeyboardHook.pressed_keys c ∪ downs lower_other es) /\
    (forall f, Exit f ∈ snd r ->
       ImprovedKeyboardHook.exit_keys c ⊆
         ImprovedKeyboardHook.pressed_keys c ∪ downs lower_other es).
Proof.
  induction es as [|e es IH]; intros c; cbv zeta.
  - simpl. split; [set_solver |]. split; intros f H; inversion H.
  - cbn [ImprovedKeyboardHook.run].
    assert (Hstep :
      ImprovedKeyboardHook.pressed_keys (fst (ImprovedKeyboardHook.deliver lower_other h c e)) ⊆
        ImprovedKeyboardHook.pressed_keys c ∪ downs lower_other [e] /\
      ImprovedKeyboardHook.toggle_keys (fst (ImprovedKeyboardHook.deliver lower_other h c e)) =
        ImprovedKeyboardHook.toggle_keys c /\
      ImprovedKeyboardHook.exit_keys (fst (ImprovedKeyboardHook.deliver lower_other h c e)) =
        ImprovedKeyboardHook.exit_keys c /\
      (forall f, Toggle f ∈ snd (ImprovedKeyboardHook.deliver lower_other h c e) ->
         ImprovedKeyboardHook.toggle_keys c ⊆
           ImprovedKeyboardHook.pressed_keys c ∪ downs lower_other [e]) /\
      (forall f, Exit f ∈ snd (ImprovedKeyboardHook.deliver lower_other h c e) ->
         ImprovedKeyboardHook.exit_keys c ⊆
           ImprovedKeyboardHook.pressed_keys c ∪ downs lower_other [e])).
    { destruct e as [k|k]; simpl.
      - destruct (improved_press_bound lower_other h c k) as (Hb & Ht & He).
        destruct (HotkeyFacts.improved_on_press lower_other h c k) as (H1 & H2 & _).
        split; [set_solver |]. split; [exact Ht |]. split; [exact He |].
        split; intros f H.
        + apply H1 in H as [H _]. set_solver.
        + apply H2 in H as [H _]. case_decide; set_solver.
      - unfold ImprovedKeyboardHook.on_release.
        case_decide; simpl; (split; [set_solver |]); repeat split;
          intros f Hf; inversion Hf. }
    destruct Hstep as (Hb & Ht & He & Hf1 & Hf2).
    destruct (ImprovedKeyboardHook.deliver lower_other h c e) as [c1 d1]. cbn [fst snd] in *.
    specialize (IH c1). cbv zeta in IH. destruct IH as (IHb & IHt & IHe).
    destruct (ImprovedKeyboardHook.run lower_other h c1 es) as [c2 d2]. cbn [fst snd] in *.
    assert (Hd : downs lower_other (e :: es) = downs lower_other [e] ∪ downs lower_other es).
    { destruct e; simpl; set_solver. }
    rewrite Hd. rewrite Ht in IHt. rewrite He in IHe.
    split; [clear -Hb IHb; set_solver |].
    split; intros f H; apply elem_of_app in H as [H | H].
    + specialize (Hf1 f H). clear -Hf1. set_solver.
    + specialize (IHt f H). clear -IHt Hb. set_solver.
    + specialize (Hf2 f H). clear -Hf2. set_solver.
    + specialize (IHe f H). clear -IHe Hb. set_solver.
Qed.

(** X9.  Over any run of key events, in either hook, the pressed set never
    holds a key that was neither in it at the start nor pressed down during
    the run; and a callback is dispatched during the run only if every key
    of its chord was in the set at the start or went down during the run.
    From the empty set a dispatch leaves behind, the next dispatch of a
    chord therefore needs a new key-down of each of its keys. *)
Theorem dispatch_needs_fresh_key_downs (lower_other : N -> list N) (es : list key_event) :
  (forall h : KeyboardHook.KeyboardHook,
     let r := KeyboardHook.run lower_other h es in
     KeyboardHook.pressed_keys (fst r) ⊆ KeyboardHook.pressed_keys h ∪ downs lower_other es /\
     (forall c, Toggle c ∈ snd r ->
        KeyboardHook.hotkey_combo h ⊆ KeyboardHook.pressed_keys h ∪ downs lower_other es) /\
     (forall c, Exit c ∈ snd r ->
        KeyboardHook.exit_combo h ⊆ KeyboardHook.pressed_keys h ∪ downs lower_other es)) /\
  (forall (h : ImprovedKeyboardHook.ImprovedKeyboardHook) (c : ImprovedKeyboardHook.closure),
     let r := ImprovedKeyboardHook.run lower_other h c es in
     ImprovedKeyboardHook.pressed_keys (fst r) ⊆
       ImprovedKeyboardHook.pressed_keys c ∪ downs lower_other es /\
     (forall f, Toggle f ∈ snd r ->
        ImprovedKeyboardHook.toggle_keys c ⊆
          ImprovedKeyboardHook.pressed_keys c ∪ downs lower_other es) /\
     (forall f, Exit f ∈ snd r ->
        ImprovedKeyboardHook.exit_keys c ⊆
          ImprovedKeyboardHook.pressed_keys c ∪ downs lower_other es)).
Proof.
  split.
  - apply legacy_run_bound.
  - intros h. apply improved_run_bound.
Qed.

(** With ctrl and shift still down after a dispatch, releasing and pressing
    s again dispatches nothing; pressing all three again does. *)
Example held_keys_do_not_count :
  let after := fst (KeyboardHook.run ascii_only Scenarios.armed
                      [Down Scenarios.ctrl; Down Scenarios.shift;
                       Down (Scenarios.letter 83 "s")]) in
  snd (KeyboardHook.run ascii_only after
         [Up (Scenarios.letter 83 "s"); Down (Scenarios.letter 83 "s")]) = [] /\
  snd (KeyboardHook.run ascii_only after
         [Down (Scenarios.letter 83 "s"); Down Scenarios.shift; Down Scenarios.ctrl])
    = [Toggle 1%nat].
Proof. split; vm_compute; reflexivity. Qed.

(** *** Press and release *)

Lemma legacy_set_pressed_same (h : KeyboardHook.KeyboardHook) :
  KeyboardHook.set_pressed (KeyboardHook.pressed_keys h) h = h.
Proof. destruct h. reflexivity. Qed.

Lemma improved_set_pressed_same (c : ImprovedKeyboardHook.closure) :
  ImprovedKeyboardHook.set_pressed (ImprovedKeyboardHook.pressed_keys c) c = c.
Proof. destruct c. reflexivity. Qed.

Lemma without_added (k : key) (p : gset key) : k ∉ p -> ({[k]} ∪ p) ∖ {[k]} = p.
Proof. intros H. apply set_eq. intros x. set_solver. Qed.

(** A key-down that dispatches nothing only adds the key. *)
Lemma legacy_quiet_press (lower_other : N -> list N) (h : KeyboardHook.KeyboardHook) (k : key) :
  snd (KeyboardHook._on_press lower_other h k) = [] ->
  fst (KeyboardHook._on_press lower_other h k) =
  KeyboardHook.set_pressed ({[normalize lower_other k]} ∪ KeyboardHook.pressed_keys h) h.
Proof.
  unfold KeyboardHook._on_press, KeyboardHook.check_toggle, KeyboardHook.check_exit.
  destruct (decide (KeyboardHook.hotkey_combo h ⊆ _)) as [Ht|Ht];
    destruct (KeyboardHook.callback h) as [f|] eqn:Ecb;
    match goal with |- context [decide (KeyboardHook.exit_combo h ⊆ ?p)] =>
      destruct (decide (KeyboardHook.exit_combo h ⊆ p)) as [He|He] end;
    destruct (KeyboardHook.exit_callback h) as [g|] eqn:Eex;
    simpl; intros Hnone; try discriminate; reflexivity.
Qed.

Lemma improved_quiet_press (lower_other : N -> list N)
    (h : ImprovedKeyboardHook.ImprovedKeyboardHook)
    (c : ImprovedKeyboardHook.closure) (k : key) :
  ~ ImprovedKeyboardHook.toggle_keys c ⊆
      {[normalize lower_other k]} ∪ ImprovedKeyboardHook.pressed_keys c ->
  ~ ImprovedKeyboardHook.exit_keys c ⊆
      {[normalize lower_other k]} ∪ ImprovedKeyboardHook.pressed_keys c ->
  ImprovedKeyboardHook.on_press lower_other h c k =
  (ImprovedKeyboardHook.set_pressed
     ({[normalize lower_other k]} ∪ ImprovedKeyboardHook.pressed_keys c) c, []).
Proof.
  intros Ht He.
  unfold ImprovedKeyboardHook.on_press, ImprovedKeyboardHook.check_toggle,
    ImprovedKeyboardHook.check_exit.
  rewrite decide_False by exact Ht. rewrite decide_False by exact He. reflexivity.
Qed.

(** X10.  Keys are compared after normalization, which drops the virtual
    key code and the case of the character: two key codes whose characters
    lower to the same text are the same key.  So in either hook, when a
    key that was not held goes down without completing a chord and then
    goes up, be it reported with another case or key code, the hook is back
    in the state it was in; and the release of a key that is not held
    changes nothing. *)
Theorem release_undoes_press (lower_other : N -> list N) :
  (forall v v' c c',
     truthy c = true -> truthy c' = true ->
     lower lower_other c = lower lower_other c' ->
     normalize lower_other (KeyCode v (Some c)) = normalize lower_other (KeyCode v' (Some c'))) /\
  (forall (h : KeyboardHook.KeyboardHook) k k',
     normalize lower_other k' = normalize lower_other k ->
     normalize lower_other k ∉ KeyboardHook.pressed_keys h ->
     snd (KeyboardHook._on_press lower_other h k) = [] ->
     KeyboardHook._on_release lower_other
       (fst (KeyboardHook._on_press lower_other h k)) k' = h) /\
  (forall (h : ImprovedKeyboardHook.ImprovedKeyboardHook)
          (c : ImprovedKeyboardHook.closure) k k',
     normalize lower_other k' = normalize lower_other k ->
     normalize lower_other k ∉ ImprovedKeyboardHook.pressed_keys c ->
     ~ ImprovedKeyboardHook.toggle_keys c ⊆
         {[normalize lower_other k]} ∪ ImprovedKeyboardHook.pressed_keys c ->
     ~ ImprovedKeyboardHook.exit_keys c ⊆
         {[normalize lower_other k]} ∪ ImprovedKeyboardHook.pressed_keys c ->
     ImprovedKeyboardHook.on_release lower_other
       (fst (ImprovedKeyboardHook.on_press lower_other h c k)) k' = c) /\
  (forall (h : KeyboardHook.KeyboardHook) k,
     normalize lower_other k ∉ KeyboardHook.pressed_keys h ->
     KeyboardHook._on_release lower_other h k = h) /\
  (forall (c : ImprovedKeyboardHook.closure) k,
     normalize lower_other k ∉ ImprovedKeyboardHook.pressed_keys c ->
     ImprovedKeyboardHook.on_release lower_other c k = c).
Proof.
  split; [| split; [| split; [| split]]].
  - intros v v' c c' Hc Hc' Hl. simpl. rewrite Hc, Hc', Hl. reflexivity.
  - intros h k k' Hk Hout Hnone.
    rewrite (legacy_quiet_press lower_other h k Hnone).
    unfold KeyboardHook._on_release. rewrite Hk. simpl.
    rewrite decide_True by (apply elem_of_union_l, elem_of_singleton; reflexivity).
    rewrite (without_added _ _ Hout).
    destruct h; reflexivity.
  - intros h c k k' Hk Hout Ht He.
    rewrite (improved_quiet_press lower_other h c k Ht He).
    unfold ImprovedKeyboardHook.on_release. rewrite Hk. simpl.
    rewrite decide_True by (apply elem_of_union_l, elem_of_singleton; reflexivity).
    rewrite (without_added _ _ Hout).
    destruct c; reflexivity.
  - intros h k Hout. unfold KeyboardHook._on_release.
    rewrite decide_False by exact Hout. reflexivity.
  - intros c k Hout. unfold ImprovedKeyboardHook.on_release.
    rewrite decide_False by exact Hout. reflexivity.
Qed.

(** Shift+s reported as "S" going down, and as "s" going up. *)
Lemma release_undoes_press_witness :
  let h := fst (KeyboardHook.run ascii_only Scenarios.armed [Down Scenarios.shift]) in
  KeyboardHook._on_release ascii_only
    (fst (KeyboardHook._on_press ascii_only h (Scenarios.letter 83 "S")))
    (Scenarios.letter 83 "s") = h.
Proof.
  intros h.
  apply (proj1 (proj2 (release_undoes_press ascii_only)) h).
  - reflexivity.
  - intros H. apply (bool_decide_pack _) in H. vm_compute in H. exact H.
  - vm_compute. reflexivity.
Defined.

(** *** The two parsers of key names *)

(** X11.  The parser of KeyboardHook and the one inside
    ImprovedKeyboardHook read every key name alike, in any case, except
    "space": KeyboardHook takes it for the space key, ImprovedKeyboardHook
    for a character key whose character is the five-letter word.  On
    chords without "space", such as the configured ones, the parsed key
    sets are equal. *)
Theorem parsers_agree_but_on_space (lower_other : N -> list N) :
  (forall name, lower lower_other name <> lit "space" ->
     KeyboardHook.parse_key lower_other name = ImprovedKeyboardHook.parse_key lower_other name) /\
  (forall name, lower lower_other name = lit "space" ->
     KeyboardHook.parse_key lower_other name = Special "space" /\
     ImprovedKeyboardHook.parse_key lower_other name = from_char (lit "space")) /\
  (forall keys, Forall (fun name => lower lower_other name <> lit "space") keys ->
     KeyboardHook._parse_hotkey lower_other keys =
     ImprovedKeyboardHook.parse_hotkey lower_other keys) /\
  KeyboardHook._parse_hotkey lower_other toggle_menu =
    ImprovedKeyboardHook.parse_hotkey lower_other toggle_menu /\
  KeyboardHook._parse_hotkey lower_other exit_app =
    ImprovedKeyboardHook.parse_hotkey lower_other exit_app.
Proof.
  assert (H1 : forall name, lower lower_other name <> lit "space" ->
     KeyboardHook.parse_key lower_other name = ImprovedKeyboardHook.parse_key lower_other name).
  { intros name H. unfold KeyboardHook.parse_key, ImprovedKeyboardHook.parse_key.
    repeat (case_decide; [reflexivity |]).
    rewrite decide_False by exact H. reflexivity. }
  assert (H3 : forall keys, Forall (fun name => lower lower_other name <> lit "space") keys ->
     KeyboardHook._parse_hotkey lower_other keys =
     ImprovedKeyboardHook.parse_hotkey lower_other keys).
  { intros keys HF. unfold KeyboardHook._parse_hotkey, ImprovedKeyboardHook.parse_hotkey.
    f_equal. induction HF as [|name keys Hn HF IH]; [reflexivity |].
    simpl. rewrite (H1 name Hn), IH. reflexivity. }
  split; [exact H1 |]. split; [| split; [exact H3 |]].
  - intros name H. unfold KeyboardHook.parse_key, ImprovedKeyboardHook.parse_key.
    rewrite H. split; reflexivity.
  - split; apply H3; repeat constructor; vm_compute; discriminate.
Qed.

(** *** Registering with the keyboard library *)

(** X12.  Starting an ImprovedKeyboardHook on the keyboard library registers
    the toggle hotkey and then the exit hotkey.  When the first
    registration raises nothing is registered; when the second raises, the
    toggle hotkey stays registered although the hook reports itself
    inactive; in both cases start returns without raising.  A later start
    registers the toggle hotkey once more, next to the one left behind. *)
Theorem failed_registration_is_not_undone (lower_other : N -> list N)
    (s : ImprovedKeyboardHook.system) (rest : list bool) :
  ImprovedKeyboardHook.is_running (ImprovedKeyboardHook.hook s) = false ->
  ImprovedKeyboardHook.hook_method (ImprovedKeyboardHook.hook s)
    = Some ImprovedKeyboardHook.keyboard ->
  let toggle := ImprovedKeyboardHook._format_hotkey_string
                  (ImprovedKeyboardHook.hotkey_combo (ImprovedKeyboardHook.hook s)) in
  let exit := ImprovedKeyboardHook._format_hotkey_string
                (ImprovedKeyboardHook.exit_combo (ImprovedKeyboardHook.hook s)) in
  (ImprovedKeyboardHook.faults s = true :: rest ->
   ImprovedKeyboardHook.start lower_other s =
     (Ret tt, {| ImprovedKeyboardHook.hook := ImprovedKeyboardHook.hook s;
                 ImprovedKeyboardHook.registered := ImprovedKeyboardHook.registered s;
                 ImprovedKeyboardHook.faults := rest |})) /\
  (ImprovedKeyboardHook.faults s = false :: true :: rest ->
   ImprovedKeyboardHook.start lower_other s =
     (Ret tt, {| ImprovedKeyboardHook.hook := ImprovedKeyboardHook.hook s;
                 ImprovedKeyboardHook.registered :=
                   ImprovedKeyboardHook.registered s ++ [toggle];
                 ImprovedKeyboardHook.faults := rest |})) /\
  (ImprovedKeyboardHook.faults s = [false; true] ->
   let again := snd (ImprovedKeyboardHook.start lower_other
                       (snd (ImprovedKeyboardHook.start lower_other s))) in
   ImprovedKeyboardHook.registered again =
     ImprovedKeyboardHook.registered s ++ [toggle; toggle; exit] /\
   ImprovedKeyboardHook.is_active again = true).
Proof.
  intros Hrun Hm toggle exit.
  unfold ImprovedKeyboardHook.start, ImprovedKeyboardHook._start_with_keyboard_lib,
    ImprovedKeyboardHook.add_hotkey, ImprovedKeyboardHook.update_hook, try_except,
    modify, mbind, exec_bind, bind, get, ImprovedKeyboardHook.is_active.
  destruct s as [h reg fs]. simpl in *. rewrite Hrun, Hm.
  split; [| split].
  - intros ->. reflexivity.
  - intros ->. reflexivity.
  - intros ->. simpl. rewrite Hrun, Hm. simpl.
    rewrite <- !app_assoc. split; reflexivity.
Qed.

(** A hook on the keyboard library whose second registration is refused. *)
Lemma failed_registration_is_not_undone_witness :
  let s := {| ImprovedKeyboardHook.hook :=
                ImprovedKeyboardHook.init (Some ImprovedKeyboardHook.keyboard);
              ImprovedKeyboardHook.registered := [];
              ImprovedKeyboardHook.faults := [false; true] |} in
  ImprovedKeyboardHook.start ascii_only s =
    (Ret tt, {| ImprovedKeyboardHook.hook := ImprovedKeyboardHook.hook s;
                ImprovedKeyboardHook.registered := [] ++ [lit "ctrl+shift+s"];
                ImprovedKeyboardHook.faults := [] |}).
Proof.
  intros s.
  apply (proj1 (proj2 (failed_registration_is_not_undone ascii_only s [] eq_refl eq_refl))).
  reflexivity.
Defined.

(** X13.  Stopping a running ImprovedKeyboardHook clears the flag.  On the
    keyboard library it removes every hotkey of the library's table, those
    registered before the hook started included; on pynput it stops the
    listener and leaves the table alone.  Started again on pynput the hook
    gets a new listener whose pressed set is empty and whose chords are
    parsed anew, so keys held across the restart are forgotten. *)
Theorem stop_releases_the_subscription (lower_other : N -> list N)
    (s : ImprovedKeyboardHook.system) :
  ImprovedKeyboardHook.is_running (ImprovedKeyboardHook.hook s) = true ->
  let s' := snd (ImprovedKeyboardHook.stop s) in
  ImprovedKeyboardHook.is_active s' = false /\
  fst (ImprovedKeyboardHook.stop s) = Ret tt /\
  (ImprovedKeyboardHook.hook_method (ImprovedKeyboardHook.hook s)
     = Some ImprovedKeyboardHook.keyboard ->
   ImprovedKeyboardHook.registered s' = [] /\
   ImprovedKeyboardHook.listener (ImprovedKeyboardHook.hook s') =
     ImprovedKeyboardHook.listener (ImprovedKeyboardHook.hook s)) /\
  (ImprovedKeyboardHook.hook_method (ImprovedKeyboardHook.hook s)
     = Some ImprovedKeyboardHook.pynput ->
   ImprovedKeyboardHook.registered s' = ImprovedKeyboardHook.registered s /\
   (forall l c, ImprovedKeyboardHook.listener (ImprovedKeyboardHook.hook s) = Some (l, c) ->
      ImprovedKeyboardHook.listener (ImprovedKeyboardHook.hook s') = Some (Stopped, c)) /\
   ImprovedKeyboardHook.listener
     (ImprovedKeyboardHook.hook (snd (ImprovedKeyboardHook.start lower_other s'))) =
     Some (Running,
           ImprovedKeyboardHook.fresh_closure lower_other (ImprovedKeyboardHook.hook s))).
Proof.
  intros Hrun. cbv zeta.
  unfold ImprovedKeyboardHook.stop, ImprovedKeyboardHook.unhook_all,
    ImprovedKeyboardHook.update_hook, ImprovedKeyboardHook.is_active,
    modify, mbind, exec_bind, bind, get.
  destruct s as [h reg fs]. simpl in *. rewrite Hrun. simpl.
  destruct (ImprovedKeyboardHook.hook_method h) as [[|]|] eqn:Em; simpl.
  - repeat split; try discriminate.
  - split; [reflexivity |]. split; [reflexivity |]. split; [discriminate |].
    intros _. split; [reflexivity |]. split.
    + intros l c Hl. unfold ImprovedKeyboardHook.stop_listener. rewrite Hl. reflexivity.
    + unfold ImprovedKeyboardHook.start, ImprovedKeyboardHook._start_with_pynput,
        ImprovedKeyboardHook.update_hook, modify, mbind, exec_bind, bind, get. simpl.
      unfold ImprovedKeyboardHook.stop_listener.
      destruct (ImprovedKeyboardHook.listener h) as [[l c]|]; simpl; rewrite Em; reflexivity.
  - repeat split; discriminate.
Qed.

(** A pynput hook started, with ctrl held, then stopped and started again. *)
Lemma stop_releases_the_subscription_witness :
  let s := snd (ImprovedKeyboardHook.start ascii_only
                  {| ImprovedKeyboardHook.hook := Scenarios.armed_improved;
                     ImprovedKeyboardHook.registered := [];
                     ImprovedKeyboardHook.faults := [] |}) in
  ImprovedKeyboardHook.is_active (snd (ImprovedKeyboardHook.stop s)) = false.
Proof.
  intros s.
  apply (proj1 (stop_releases_the_subscription ascii_only s eq_refl)).
Defined.

End HotkeyMore.

(** ** The overlay, over whole runs *)

Module OverlayMore.
Import Py OverlayWindow OverlayFacts OverlayViews.

(** *** Where the markers go *)

Lemma draw_markers_items (errors : list error) :
  forall (i0 x y : Z) (o : OverlayWindow) (j : nat) (e : error),
    errors !! j = Some e ->
    items (canvas (draw_markers i0 errors x y o)) !! (next_id (canvas o) + 2 * Z.of_nat j)
      = Some (underline (i0 + Z.of_nat j) x y) /\
    items (canvas (draw_markers i0 errors x y o)) !! (next_id (canvas o) + 2 * Z.of_nat j + 1)
      = Some (label (i0 + Z.of_nat j) x y e).
Proof.
  induction errors as [|e0 rest IH]; intros i0 x y o j e Hj; [discriminate |].
  cbn [draw_markers].
  destruct (draw_markers_spec rest (i0 + 1) x y (draw_marker i0 e0 x y o))
    as (_ & _ & Hlow & _).
  assert (Hnext : next_id (canvas (draw_marker i0 e0 x y o)) = next_id (canvas o) + 2)
    by (simpl; lia).
  destruct j as [|j].
  - injection Hj as <-. rewrite !Hlow by lia. simpl.
    replace (next_id (canvas o) + 2 * Z.of_nat 0) with (next_id (canvas o)) by lia.
    replace (i0 + Z.of_nat 0) with i0 by lia.
    split.
    + rewrite lookup_insert_ne by lia. rewrite lookup_insert_eq. reflexivity.
    + rewrite lookup_insert_eq. reflexivity.
  - simpl in Hj. destruct (IH (i0 + 1) x y (draw_marker i0 e0 x y o) j e Hj) as [H1 H2].
    rewrite Hnext in H1, H2.
    replace (next_id (canvas o) + 2 * Z.of_nat (S j))
      with (next_id (canvas o) + 2 + 2 * Z.of_nat j) by lia.
    replace (i0 + Z.of_nat (S j)) with (i0 + 1 + Z.of_nat j) by lia.
    split; assumption.
Qed.

Lemma show_errors_markers (errors : list error) (x y : Z) (o : OverlayWindow) :
  error_markers (show_errors errors x y o) =
    seqZ (next_id (canvas o)) (2 * Z.of_nat (length (firstn 5 errors))) /\
  next_id (canvas (clear_errors o)) = next_id (canvas o).
Proof.
  unfold show_errors.
  destruct (draw_markers_spec (firstn 5 errors) 0 x y (clear_errors o)) as (Hm & _).
  destruct (clear_errors_frame o) as (Hc & Hid & _).
  rewrite Hc, Hid in Hm. split; [exact Hm | exact Hid].
Qed.

(** X14.  Each of the first five errors gets a 100-unit underline 20 units
    below the cursor, 25 units further down per error, and under it a
    label holding the error's 'type' entry, or the default word when the
    error has no such key; underline and label are the canvas items at the
    two ids the marker list holds for that error. *)
Theorem markers_are_stacked_below_cursor (errors : list error) (x y : Z)
    (o : OverlayWindow) (j : nat) (e : error) :
  errors !! j = Some e ->
  (j < 5)%nat ->
  let o' := show_errors errors x y o in
  error_markers o' !! (2 * j)%nat = Some (next_id (canvas o) + 2 * Z.of_nat j) /\
  error_markers o' !! (2 * j + 1)%nat = Some (next_id (canvas o) + 2 * Z.of_nat j + 1) /\
  items (canvas o') !! (next_id (canvas o) + 2 * Z.of_nat j) =
    Some {| drawn := Line x (y + 20 + Z.of_nat j * 25) (x + 100) (y + 20 + Z.of_nat j * 25);
            tags := None |} /\
  items (canvas o') !! (next_id (canvas o) + 2 * Z.of_nat j + 1) =
    Some {| drawn := Text x (y + 20 + Z.of_nat j * 25 + 10)
                       (default [50724; 47448]%N (e !! "type"%string));
            tags := None |}.
Proof.
  intros Hj Hlt. cbv zeta.
  assert (Hj5 : firstn 5 errors !! j = Some e) by (rewrite lookup_take_lt by lia; exact Hj).
  destruct (show_errors_markers errors x y o) as [Hm Hid].
  pose proof (lookup_lt_Some _ _ _ Hj5) as Hlen.
  split; [| split].
  - rewrite Hm. apply lookup_seqZ. split; lia.
  - rewrite Hm. apply lookup_seqZ. split; lia.
  - unfold show_errors.
    destruct (draw_markers_items (firstn 5 errors) 0 x y (clear_errors o) j e Hj5) as [H1 H2].
    rewrite Hid in H1, H2. unfold underline, label, error_type in *.
    replace (0 + Z.of_nat j) with (Z.of_nat j) in * by lia.
    split; assumption.
Qed.

(** The second of two errors, one without a 'type' entry. *)
Lemma markers_are_stacked_below_cursor_witness :
  let o' := show_errors [{["type"%string := lit "spelling"]}; ∅] 100 200 (init true 0) in
  items (canvas o') !! (1 + 2 * Z.of_nat 1 + 1) =
    Some {| drawn := Text 100 (200 + 20 + Z.of_nat 1 * 25 + 10) [50724; 47448]%N;
            tags := None |}.
Proof.
  intros o'.
  apply (proj2 (proj2 (proj2
    (markers_are_stacked_below_cursor
       [{["type"%string := lit "spelling"]}; ∅] 100 200 (init true 0) 1 ∅
       eq_refl (ltac:(lia)))))).
Defined.

(** *** Suggestion callouts *)

Lemma clear_suggestion_items (o : OverlayWindow) (id : Z) (it : item) :
  items (canvas (clear_suggestion o)) !! id = Some it <->
  items (canvas o) !! id = Some it /\ ~ in_suggestion it.
Proof.
  unfold clear_suggestion, _enable_click_through, in_suggestion.
  destruct (win32 _); simpl; rewrite map_lookup_filter_Some; simpl; reflexivity.
Qed.

Lemma display_suggestion_items (t : pystr) (x y : Z) (o : OverlayWindow) (id : Z) :
  id < next_id (canvas o) ->
  items (canvas (display_suggestion t x y o)) !! id = items (canvas o) !! id.
Proof.
  intros Hid. unfold display_suggestion, _disable_click_through, create. cbn.
  destruct (win32 o); cbn; rewrite !lookup_insert_ne by lia; reflexivity.
Qed.

Lemma display_suggestion_new (t : pystr) (x y : Z) (o : OverlayWindow) (id : Z) (it : item) :
  canvas_ok (canvas o) ->
  next_id (canvas o) <= id ->
  items (canvas (display_suggestion t x y o)) !! id = Some it ->
  in_suggestion it.
Proof.
  intros Hok Hid. unfold display_suggestion, _disable_click_through, create, in_suggestion.
  cbn. destruct (win32 o); cbn;
    (destruct (decide (id = next_id (canvas o) + 1 + 1)) as [->|H2];
     [rewrite lookup_insert_eq; intros [= <-]; reflexivity | rewrite lookup_insert_ne by lia];
     destruct (decide (id = next_id (canvas o) + 1)) as [->|H1];
     [rewrite lookup_insert_eq; intros [= <-]; reflexivity | rewrite lookup_insert_ne by lia];
     destruct (decide (id = next_id (canvas o))) as [->|H0];
     [rewrite lookup_insert_eq; intros [= <-]; reflexivity | rewrite lookup_insert_ne by lia];
     rewrite (Hok id Hid); discriminate).
Qed.

(** X15.  clear_suggestion takes exactly the items tagged as suggestion box
    off the canvas and leaves every other item in place.  So showing a
    suggestion and clearing it again gives back the items the canvas held,
    the error markers among them, less any suggestion box that was already
    up: one clear removes all callouts at once.  Afterwards the opacity is
    the resting one and, when the style calls go through, pointer input
    passes through again. *)
Theorem suggestion_comes_and_goes (t : pystr) (x y : Z) (o : OverlayWindow) :
  canvas_ok (canvas o) ->
  let o' := clear_suggestion (display_suggestion t x y o) in
  (forall id it,
     items (canvas o') !! id = Some it <->
     items (canvas o) !! id = Some it /\ ~ in_suggestion it) /\
  error_markers o' = error_markers o /\
  alpha o' = resting_opacity /\
  (win32 o = true -> click_through o' = true) /\
  (forall o0 id it,
     items (canvas (clear_suggestion o0)) !! id = Some it <->
     items (canvas o0) !! id = Some it /\ ~ in_suggestion it).
Proof.
  intros Hok. cbv zeta.
  split; [| split; [| split; [| split]]].
  - intros id it. rewrite clear_suggestion_items.
    destruct (decide (id < next_id (canvas o))) as [Hlt|Hge].
    + rewrite display_suggestion_items by exact Hlt. reflexivity.
    + split.
      * intros [Hin Hno]. exfalso. apply Hno.
        apply (display_suggestion_new t x y o id it Hok); [lia | exact Hin].
      * intros [Hin _]. rewrite (Hok id) in Hin by lia. discriminate.
  - destruct o as [w st al cv em mv pd]. destruct w; reflexivity.
  - destruct o as [w st al cv em mv pd]. destruct w; reflexivity.
  - intros Hw. unfold clear_suggestion. apply enable_sets_bit.
    cbn [win32 set_alpha set_canvas].
    destruct (display_suggestion_style t x y o) as (_ & _ & Hw'). congruence.
  - intros o0 id it. apply clear_suggestion_items.
Qed.

Lemma canvas_ok_one_error : canvas_ok (canvas (show_errors [∅] 100 200 (init true 0))).
Proof.
  intros id Hid.
  unfold show_errors, draw_markers, draw_marker, create, clear_errors in *. cbn in *.
  rewrite !lookup_insert_ne by lia. apply lookup_empty.
Qed.

(** One error marked, then a suggestion shown and cleared: underline and
    label of the marker are where they were, under the ids the marker list
    holds, and the callout is gone. *)
Lemma suggestion_comes_and_goes_witness :
  let o := show_errors [∅] 100 200 (init true 0) in
  let o' := clear_suggestion (display_suggestion (lit "and then") 100 100 o) in
  error_markers o' = [1; 2] /\
  items (canvas o') !! 1 = Some (underline 0 100 200) /\
  items (canvas o') !! 2 = Some (label 0 100 200 ∅) /\
  items (canvas o') !! 3 = None.
Proof.
  intros o o'.
  destruct (suggestion_comes_and_goes (lit "and then") 100 100 o canvas_ok_one_error)
    as (Hitems & Hm & _).
  fold o' in Hitems, Hm.
  split; [rewrite Hm; reflexivity |].
  split; [| split].
  - apply Hitems. split; [vm_compute; reflexivity | intros H; discriminate H].
  - apply Hitems. split; [vm_compute; reflexivity | intros H; discriminate H].
  - destruct (items (canvas o') !! 3) as [it|] eqn:E; [| reflexivity].
    apply Hitems in E as [E _]. vm_compute in E. discriminate E.
Defined.

(** Two callouts half a second apart: the timer of the first removes both. *)
Example first_timer_clears_the_second_callout :
  let o := run [DisplaySuggestion (lit "one") 10 10; DisplaySuggestion (lit "two") 10 200;
                TimerFires] (init true 0) in
  items (canvas o) = ∅ /\ pending o = 1%nat.
Proof. cbv zeta. split; [apply map_eq; intros i; vm_compute; reflexivity | reflexivity]. Qed.

(** *** The window style *)

Lemma apply_style (a : op) (o : OverlayWindow) :
  win32 (apply a o) = win32 o /\
  (ex_style (apply a o) = ex_style o \/
   win32 o = true /\
   (ex_style (apply a o) = Z.land (ex_style o) (Z.lnot WS_EX_TRANSPARENT) \/
    ex_style (apply a o) = Z.lor (ex_style o) WS_EX_TRANSPARENT)).
Proof.
  assert (Hdis : forall o0, win32 (_disable_click_through o0) = win32 o0 /\
    (ex_style (_disable_click_through o0) = ex_style o0 \/
     win32 o0 = true /\
     (ex_style (_disable_click_through o0) = Z.land (ex_style o0) (Z.lnot WS_EX_TRANSPARENT) \/
      ex_style (_disable_click_through o0) = Z.lor (ex_style o0) WS_EX_TRANSPARENT))).
  { intros o0. unfold _disable_click_through. destruct (win32 o0) eqn:E; simpl; auto. }
  assert (Hclear : forall o0, win32 (clear_suggestion o0) = win32 o0 /\
    (ex_style (clear_suggestion o0) = ex_style o0 \/
     win32 o0 = true /\
     (ex_style (clear_suggestion o0) = Z.land (ex_style o0) (Z.lnot WS_EX_TRANSPARENT) \/
      ex_style (clear_suggestion o0) = Z.lor (ex_style o0) WS_EX_TRANSPARENT))).
  { intros o0. unfold clear_suggestion, _enable_click_through. cbn.
    destruct (win32 o0) eqn:E; cbn; auto. }
  destruct a; cbn [apply].
  - destruct (show_errors_frame errors x y o) as (Hs & _ & Hw). auto.
  - destruct (clear_errors_frame o) as (_ & _ & Hs & _ & Hw). auto.
  - auto.
  - destruct (display_suggestion_style suggestion x y o) as (Hs & _ & Hw).
    split; [exact Hw | rewrite Hs; apply Hdis].
  - apply Hclear.
  - destruct (pending o) as [|n]; [auto |].
    destruct (Hclear (set_pending n o)) as [Hw Hs]. simpl in Hw, Hs. auto.
Qed.

(** The same for everything asked of the overlay, the menu methods
    included: they change the style before the menu is touched. *)
Lemma serve_style (r : OverlayWithMenu.request) (o : OverlayWithMenu.overlay) :
  let w := OverlayWithMenu.window o in
  let w' := OverlayWithMenu.window (OverlayWithMenu.serve r o) in
  win32 w' = win32 w /\
  (ex_style w' = ex_style w \/
   win32 w = true /\
   (ex_style w' = Z.land (ex_style w) (Z.lnot WS_EX_TRANSPARENT) \/
    ex_style w' = Z.lor (ex_style w) WS_EX_TRANSPARENT)).
Proof.
  cbv zeta.
  assert (Hshow : forall x y,
    let w' := OverlayWithMenu.window (snd (OverlayWithMenu.show_menu x y o)) in
    win32 w' = win32 (OverlayWithMenu.window o) /\
    (ex_style w' = ex_style (OverlayWithMenu.window o) \/
     win32 (OverlayWithMenu.window o) = true /\
     (ex_style w' = Z.land (ex_style (OverlayWithMenu.window o)) (Z.lnot WS_EX_TRANSPARENT) \/
      ex_style w' = Z.lor (ex_style (OverlayWithMenu.window o)) WS_EX_TRANSPARENT))).
  { intros x y. cbv zeta.
    destruct (OverlayMenuFacts.show_menu_outcome x y o) as (_ & Hs & _). rewrite Hs.
    unfold _disable_click_through.
    destruct (win32 (OverlayWithMenu.window o)) eqn:E; cbn; rewrite ?E; auto. }
  assert (Hhide :
    let w' := OverlayWithMenu.window (snd (OverlayWithMenu.hide_menu o)) in
    win32 w' = win32 (OverlayWithMenu.window o) /\
    (ex_style w' = ex_style (OverlayWithMenu.window o) \/
     win32 (OverlayWithMenu.window o) = true /\
     (ex_style w' = Z.land (ex_style (OverlayWithMenu.window o)) (Z.lnot WS_EX_TRANSPARENT) \/
      ex_style w' = Z.lor (ex_style (OverlayWithMenu.window o)) WS_EX_TRANSPARENT))).
  { cbv zeta.
    destruct (OverlayMenuFacts.hide_menu_outcome o) as (_ & Hs & _). rewrite Hs.
    unfold _enable_click_through.
    destruct (win32 (OverlayWithMenu.window o)) eqn:E; cbn; rewrite ?E; auto. }
  destruct r as [x y | | x y | e su a | a]; cbn [OverlayWithMenu.serve].
  - apply Hshow.
  - apply Hhide.
  - destruct (is_menu_visible (OverlayWithMenu.window o)) eqn:Hflag.
    + rewrite (OverlayMenuFacts.toggle_is_hide x y o Hflag). apply Hhide.
    + rewrite (OverlayMenuFacts.toggle_is_show x y o Hflag). apply Hshow.
  - cbn. auto.
  - cbn. apply apply_style.
Qed.

(** X16.  Over any sequence of overlay operations the extended window style
    changes in one bit only, the click-through bit WS_EX_TRANSPARENT: every
    other bit, WS_EX_LAYERED among them, keeps the value it had.  And when
    the win32 style calls do not go through, the style does not change at
    all, so the click-through state stays what it was whatever is shown or
    hidden. *)
Theorem only_the_click_through_bit_moves (rs : list OverlayWithMenu.request)
    (o : OverlayWithMenu.overlay) :
  let w := OverlayWithMenu.window o in
  let w' := OverlayWithMenu.window (OverlayWithMenu.run rs o) in
  (forall n, n <> 5 -> Z.testbit (ex_style w') n = Z.testbit (ex_style w) n) /\
  (win32 w = false -> ex_style w' = ex_style w /\ click_through w' = click_through w).
Proof.
  cbv zeta. revert o. induction rs as [|r rs IH]; intros o; [split; auto |].
  unfold OverlayWithMenu.run in *. simpl fold_left.
  destruct (IH (OverlayWithMenu.serve r o)) as [IH1 IH2].
  destruct (serve_style r o) as [Hw Hs].
  split.
  - intros n Hn. rewrite (IH1 n Hn).
    destruct Hs as [-> | [_ [-> | ->]]]; [reflexivity | |].
    + destruct (decide (0 <= n)) as [Hpos|Hneg].
      * rewrite Z.land_spec, Z.lnot_spec by lia.
        replace (Z.testbit WS_EX_TRANSPARENT n) with false.
        -- apply andb_true_r.
        -- symmetry. unfold WS_EX_TRANSPARENT.
           change 32 with (2 ^ 5). apply Z.pow2_bits_false. congruence.
      * rewrite !Z.testbit_neg_r by lia. reflexivity.
    + rewrite Z.lor_spec.
      replace (Z.testbit WS_EX_TRANSPARENT n) with false.
      * apply orb_false_r.
      * symmetry. unfold WS_EX_TRANSPARENT.
        change 32 with (2 ^ 5). apply Z.pow2_bits_false. congruence.
  - intros Hf. rewrite Hf in Hw. destruct (IH2 Hw) as [H1 H2].
    destruct Hs as [Hs | [Hc _]]; [| congruence].
    unfold click_through in *. rewrite H1, Hs. auto.
Qed.

End OverlayMore.


(** ** The circle menu *)

Module MenuMore.
Import Py Exec CircleMenu MenuRuns.

(** A hidden menu: show marks it visible, makes the three buttons, and
    stops in its first frame. *)
Lemma show_hidden (s : stage) :
  is_visible (menu s) = false ->
  show s = (Raise,
            {| menu := set_buttons (map _create_circle_button menu_items)
                         (set_is_visible true (menu s));
               timers := timers s; next_timer := next_timer s;
               invoked := invoked s; faulty := faulty s |}).
Proof.
  intros H. unfold show, mbind, exec_bind, bind, get. rewrite H. reflexivity.
Qed.

Lemma show_visible (s : stage) :
  is_visible (menu s) = true -> show s = (Ret tt, s).
Proof.
  intros H. unfold show, mbind, exec_bind, bind, get. rewrite H. reflexivity.
Qed.

Lemma hide_hidden (s : stage) :
  is_visible (menu s) = false -> hide s = (Ret tt, s).
Proof.
  intros H. unfold hide, mbind, exec_bind, bind, get. rewrite H. reflexivity.
Qed.

Lemma hide_visible (s : stage) :
  is_visible (menu s) = true ->
  hide s = (Ret tt,
            {| menu := set_buttons [] (set_animation_id None (set_is_visible false (menu s)));
               timers := match animation_id (menu s) with
                         | Some id => filter (fun t => fst t ≠ id) (timers s)
                         | None => timers s
                         end;
               next_timer := next_timer s; invoked := invoked s; faulty := faulty s |}).
Proof.
  intros H. unfold hide, mbind, exec_bind, bind, get. rewrite H.
  destruct s as [m ts n inv f]. destruct m as [cx cy v r d e1 e2 e3 bs [id|]]; reflexivity.
Qed.

(** X17.  show on a hidden menu never completes: it marks the menu
    visible, makes one button per menu item, none of them on the screen,
    and raises in its first animation frame, _animate_show(0, 0), before
    any timer is set. *)
Theorem show_stops_in_its_first_frame (s : stage) :
  is_visible (menu s) = false ->
  fst (show s) = Raise /\
  is_visible (menu (snd (show s))) = true /\
  buttons (menu (snd (show s))) = map _create_circle_button menu_items /\
  Forall (fun b => placed b = false) (buttons (menu (snd (show s)))) /\
  timers (snd (show s)) = timers s /\
  animation_id (menu (snd (show s))) = animation_id (menu s).
Proof.
  intros H. rewrite (show_hidden s H). cbn.
  repeat split. repeat constructor.
Qed.

(** The menu as the overlay makes it, shown for the first time. *)
Lemma show_stops_in_its_first_frame_witness :
  let s := on_parent (new 640 360) (fun _ => false) in
  fst (show s) = Raise /\ is_visible (menu (snd (show s))) = true.
Proof.
  intros s.
  destruct (show_stops_in_its_first_frame s eq_refl) as (H1 & H2 & _).
  split; assumption.
Defined.

(** X18.  hide always returns and leaves the menu hidden.  A menu that
    was visible has its buttons gone and its animation forgotten, and the
    timer of that animation is no longer pending; hide sets no timer; and
    a second hide changes nothing. *)
Theorem hide_withdraws_the_menu (s : stage) :
  fst (hide s) = Ret tt /\
  is_visible (menu (snd (hide s))) = false /\
  (is_visible (menu s) = true ->
     buttons (menu (snd (hide s))) = [] /\
     animation_id (menu (snd (hide s))) = None /\
     (forall id frame, animation_id (menu s) = Some id ->
                       (id, frame) ∉ timers (snd (hide s)))) /\
  (forall t, t ∈ timers (snd (hide s)) -> t ∈ timers s) /\
  hide (snd (hide s)) = (Ret tt, snd (hide s)).
Proof.
  destruct (is_visible (menu s)) eqn:Hv.
  - rewrite (hide_visible s Hv). cbn [fst snd menu timers].
    split; [reflexivity |]. split; [reflexivity |]. split; [| split].
    + intros _. split; [reflexivity |]. split; [reflexivity |].
      intros id frame ->. rewrite list_elem_of_filter. cbn. tauto.
    + intros t. destruct (animation_id (menu s)); [| tauto].
      rewrite list_elem_of_filter. tauto.
    + apply hide_hidden. reflexivity.
  - rewrite (hide_hidden s Hv). cbn [fst snd].
    split; [reflexivity |]. split; [exact Hv |]. split; [discriminate |].
    split; [tauto |]. apply hide_hidden, Hv.
Qed.

Lemma hide_returns_hidden (s : stage) :
  fst (hide s) = Ret tt /\ is_visible (menu (snd (hide s))) = false.
Proof.
  destruct (is_visible (menu s)) eqn:Hv.
  - rewrite (hide_visible s Hv). split; reflexivity.
  - rewrite (hide_hidden s Hv). split; [reflexivity | exact Hv].
Qed.

Lemma hide_keeps_callbacks (s : stage) :
  on_exit_callback (menu (snd (hide s))) = on_exit_callback (menu s) /\
  on_suggest_callback (menu (snd (hide s))) = on_suggest_callback (menu s) /\
  on_analyze_callback (menu (snd (hide s))) = on_analyze_callback (menu s) /\
  invoked (snd (hide s)) = invoked s /\
  faulty (snd (hide s)) = faulty s.
Proof.
  destruct (is_visible (menu s)) eqn:Hv.
  - rewrite (hide_visible s Hv). repeat split.
  - rewrite (hide_hidden s Hv). repeat split.
Qed.

(** X19.  A click on a button first hides the menu, then calls the
    callback registered for that button's name, and no other; with no
    callback for the name nothing is called.  The menu is hidden also when
    the callback raises. *)
Theorem click_hides_then_calls_its_callback (button_name : pystr) (s : stage) :
  let r := _on_button_click button_name s in
  is_visible (menu (snd r)) = false /\
  invoked (snd r) = invoked s ++ option_list (registered button_name (menu s)) /\
  fst r = match registered button_name (menu s) with
          | Some c => if faulty s c then Raise else Ret tt
          | None => Ret tt
          end.
Proof.
  cbv zeta.
  destruct (hide_returns_hidden s) as (Hr & Hh).
  destruct (hide_keeps_callbacks s) as (He & Hs & Ha & Hi & Hf).
  unfold _on_button_click, mbind, exec_bind, bind, get.
  destruct (hide s) as [[[]|] s'] eqn:Hhide; cbn [fst snd] in *; [| discriminate].
  unfold registered. rewrite He, Hs, Ha.
  assert (Hes : exit_name <> suggest_name) by discriminate.
  assert (Hea : exit_name <> analyze_name) by discriminate.
  assert (Hsa : suggest_name <> analyze_name) by discriminate.
  destruct (decide (button_name = exit_name)) as [-> | Hne].
  { destruct (on_exit_callback (menu s)) as [c|].
    - rewrite decide_True by (split; [reflexivity | eexists; reflexivity]).
      unfold call. cbn. rewrite Hi, Hf. repeat split; assumption.
    - rewrite decide_False by (intros [_ [? ?]]; discriminate).
      rewrite decide_False by (intros [? _]; congruence).
      rewrite decide_False by (intros [? _]; congruence).
      cbn. rewrite app_nil_r. repeat split; assumption. }
  rewrite decide_False by (intros [? _]; congruence).
  destruct (decide (button_name = suggest_name)) as [-> | Hns].
  { destruct (on_suggest_callback (menu s)) as [c|].
    - rewrite decide_True by (split; [reflexivity | eexists; reflexivity]).
      unfold call. cbn. rewrite Hi, Hf. repeat split; assumption.
    - rewrite decide_False by (intros [_ [? ?]]; discriminate).
      rewrite decide_False by (intros [? _]; congruence).
      cbn. rewrite app_nil_r. repeat split; assumption. }
  rewrite decide_False by (intros [? _]; congruence).
  destruct (decide (button_name = analyze_name)) as [-> | Hna].
  { destruct (on_analyze_callback (menu s)) as [c|].
    - rewrite decide_True by (split; [reflexivity | eexists; reflexivity]).
      unfold call. cbn. rewrite Hi, Hf. repeat split; assumption.
    - rewrite decide_False by (intros [_ [? ?]]; discriminate).
      cbn. rewrite app_nil_r. repeat split; assumption. }
  rewrite decide_False by (intros [? _]; congruence).
  cbn. rewrite app_nil_r. repeat split; assumption.
Qed.

(** *** No frame is ever drawn *)

Lemma show_still (s : stage) : still s -> still (snd (show s)).
Proof.
  intros (Ht & Ha & Hb).
  destruct (is_visible (menu s)) eqn:Hv.
  - rewrite (show_visible s Hv). repeat split; assumption.
  - rewrite (show_hidden s Hv). repeat split; cbn; try assumption.
    repeat constructor.
Qed.

Lemma hide_still (s : stage) : still s -> still (snd (hide s)).
Proof.
  intros (Ht & Ha & Hb).
  destruct (is_visible (menu s)) eqn:Hv.
  - rewrite (hide_visible s Hv). rewrite Ha. repeat split; cbn; try assumption.
    constructor.
  - rewrite (hide_hidden s Hv). repeat split; assumption.
Qed.

Lemma update_menu_still (f : CircleMenu -> CircleMenu) (s : stage) :
  (forall m, animation_id (f m) = animation_id m /\ buttons (f m) = buttons m) ->
  still s -> still (snd (update_menu f s)).
Proof.
  intros Hf (Ht & Ha & Hb). destruct (Hf (menu s)) as [H1 H2].
  repeat split; cbn; [assumption | congruence | rewrite H2; assumption].
Qed.

Lemma invoke_still (c : method) (s : stage) : still s -> still (snd (invoke c s)).
Proof.
  intros H. destruct c as [| | | x y | e su a | name]; cbn [invoke].
  - now apply show_still.
  - now apply hide_still.
  - unfold toggle, mbind, exec_bind, bind, get.
    destruct (is_visible (menu s)); [now apply hide_still | now apply show_still].
  - unfold update_position, mbind, exec_bind, bind, get.
    pose proof (update_menu_still (set_center x y) s (fun m => conj eq_refl eq_refl) H) as H1.
    destruct (update_menu (set_center x y) s) as [[[]|] s1] eqn:E1; cbn [snd] in H1;
      [| exact H1].
    destruct (is_visible (menu s1)); [| exact H1].
    pose proof (hide_still s1 H1) as H2.
    destruct (hide s1) as [[[]|] s2]; cbn [snd] in H2; [| exact H2].
    now apply show_still.
  - apply update_menu_still; [| exact H]. intros m. split; reflexivity.
  - unfold _on_button_click, mbind, exec_bind, bind, get.
    pose proof (hide_still s H) as H1.
    destruct (hide s) as [[[]|] s1]; cbn [snd] in H1; [| exact H1].
    assert (Hcall : forall c, still (snd (call c s1))).
    { intros c. destruct H1 as (Ht & Ha & Hb). repeat split; assumption. }
    repeat case_decide; repeat case_match; try apply Hcall; exact H1.
Qed.

(** X20.  The menu never animates.  Whatever is called on a menu from
    its creation on (show, hide, toggle, update_position, set_callbacks,
    button commands, in any order and with callbacks that may raise), no
    animation timer is ever set and no button is ever put on the screen:
    every show ends at its first frame. *)
Theorem menu_never_animates (cs : list method) (x y : Z) (faults : callable -> bool) :
  still (run cs (on_parent (new x y) faults)).
Proof.
  assert (Hrun : forall s, still s -> still (run cs s)).
  { induction cs as [|c cs IH]; intros s Hs; [exact Hs |].
    apply IH, invoke_still, Hs. }
  apply Hrun. repeat split. constructor.
Qed.

(** Shown, moved and toggled twice, the menu has three buttons, none on
    the screen. *)
Example three_buttons_none_placed :
  let s := run [Show; UpdatePosition 10 10; Toggle; Toggle]
               (on_parent (new 640 360) (fun _ => false)) in
  is_visible (menu s) = true /\ map placed (buttons (menu s)) = [false; false; false].
Proof. split; reflexivity. Qed.

End MenuMore.

(** ** The overlay with its menu *)

Module OverlayMenuMore.
Import Py Exec OverlayWithMenu OverlayMenuFacts.

(** X21.  show_menu never completes, whatever state the overlay and its
    menu are in: it turns click-through off and raises the opacity, makes
    or moves the menu, and the exception of the menu's show ends it before
    the menu-visible flag is set.  The menu is left marked visible at the
    new position with its buttons off the screen. *)
Theorem show_menu_stops_before_the_flag (x y : Z) (o : overlay) :
  let r := show_menu x y o in
  fst r = Raise /\
  OverlayWindow.is_menu_visible (window (snd r)) = OverlayWindow.is_menu_visible (window o) /\
  OverlayWindow.alpha (window (snd r)) = OverlayWindow.menu_opacity /\
  (OverlayWindow.win32 (window o) = true ->
   OverlayWindow.click_through (window (snd r)) = false) /\
  (exists m, circle_menu (snd r) = Some m /\
             CircleMenu.is_visible m = true /\
             CircleMenu.center_x m = x /\ CircleMenu.center_y m = y /\
             CircleMenu.buttons m = withdrawn) /\
  next_timer (snd r) = next_timer o.
Proof.
  cbv zeta.
  destruct (show_menu_outcome x y o) as (Hr & Hw & Hm & Hn & _).
  split; [exact Hr |]. rewrite Hw.
  split; [| split; [reflexivity | split; [| split; [exact Hm | exact Hn]]]].
  - unfold OverlayWindow._disable_click_through.
    destruct (OverlayWindow.win32 (window o)); reflexivity.
  - intros Hwin.
    pose proof (OverlayFacts.disable_clears_bit (window o) Hwin) as Hbit.
    unfold OverlayWindow.click_through in *. exact Hbit.
Qed.

(** *** The flag over a run of requests *)

(** X22.  The menu-visible flag is never set.  From the creation of the
    overlay on, over any run of show_menu, hide_menu, toggle_menu and
    set_menu_callbacks requests and of calls on the window (markers,
    suggestion callouts and their timers), the flag is false and no
    animation timer is pending; so toggle_menu never hides the menu: every
    toggle does what show_menu does. *)
Theorem menu_flag_is_never_set (rs : list request) (available : bool) (style : Z) :
  let o := run rs (init available style) in
  OverlayWindow.is_menu_visible (window o) = false /\
  timers o = [] /\
  (forall x y, toggle_menu x y o = show_menu x y o).
Proof.
  cbv zeta.
  destruct (run_keeps_flag_down rs (init available style) eq_refl eq_refl) as [Hf Ht].
  split; [exact Hf |]. split; [exact Ht |].
  intros x y. apply toggle_is_show, Hf.
Qed.

(** Two presses of the hotkey on a fresh overlay: the second toggle shows
    again, the window stays clickable and the flag stays down. *)
Example second_toggle_shows_again :
  let o := run [ToggleMenu 640 360; ToggleMenu 640 360] (init true 0) in
  OverlayWindow.is_menu_visible (window o) = false /\
  OverlayWindow.click_through (window o) = false /\
  OverlayWindow.alpha (window o) = OverlayWindow.menu_opacity.
Proof. vm_compute. repeat split. Qed.

(** *** show_menu, then hide_menu *)

Lemma transparent_bit_round_trip (s : Z) :
  Z.testbit s 5 = true ->
  Z.lor (Z.land s (Z.lnot OverlayWindow.WS_EX_TRANSPARENT)) OverlayWindow.WS_EX_TRANSPARENT = s.
Proof.
  intros H. apply Z.bits_inj'. intros n Hn.
  rewrite Z.lor_spec, Z.land_spec, Z.lnot_spec by exact Hn.
  change OverlayWindow.WS_EX_TRANSPARENT with (2 ^ 5).
  rewrite Z.pow2_bits_eqb by lia.
  destruct (Z.eqb_spec 5 n) as [<- | Hne].
  - rewrite H. reflexivity.
  - cbn. rewrite andb_true_r, orb_false_r. reflexivity.
Qed.

Lemma window_round_trip (w : OverlayWindow.OverlayWindow) :
  OverlayWindow.click_through w = true ->
  OverlayWindow.alpha w = OverlayWindow.resting_opacity ->
  OverlayWindow.is_menu_visible w = false ->
  OverlayWindow.set_is_menu_visible false
    (OverlayWindow.set_alpha OverlayWindow.resting_opacity
       (OverlayWindow._enable_click_through
          (OverlayWindow.set_alpha OverlayWindow.menu_opacity
             (OverlayWindow._disable_click_through w)))) = w.
Proof.
  destruct w as [win st al cv em fl pd].
  unfold OverlayWindow.click_through.
  cbn [OverlayWindow.ex_style OverlayWindow.alpha OverlayWindow.is_menu_visible].
  intros Hb -> ->.
  unfold OverlayWindow._enable_click_through, OverlayWindow._disable_click_through.
  destruct win; cbn [OverlayWindow.win32 OverlayWindow.set_ex_style OverlayWindow.set_alpha
                     OverlayWindow.set_is_menu_visible OverlayWindow.ex_style
                     OverlayWindow.alpha OverlayWindow.canvas
                     OverlayWindow.error_markers OverlayWindow.is_menu_visible
                     OverlayWindow.pending]; [| reflexivity].
  rewrite (transparent_bit_round_trip st Hb). reflexivity.
Qed.

(** X23.  hide_menu undoes what the failed show_menu did to the window.
    On an overlay at rest (click-through on, resting opacity, flag down),
    show_menu followed by hide_menu returns, and the window is exactly as
    it was before; the menu made or moved by show_menu is left hidden, at
    the new position, without buttons. *)
Theorem hide_menu_undoes_show_menu (x y : Z) (o : overlay) :
  OverlayWindow.click_through (window o) = true ->
  OverlayWindow.alpha (window o) = OverlayWindow.resting_opacity ->
  OverlayWindow.is_menu_visible (window o) = false ->
  let r := hide_menu (snd (show_menu x y o)) in
  fst r = Ret tt /\
  window (snd r) = window o /\
  (exists m, circle_menu (snd r) = Some m /\
             CircleMenu.is_visible m = false /\
             CircleMenu.center_x m = x /\ CircleMenu.center_y m = y /\
             CircleMenu.buttons m = []).
Proof.
  intros Hb Ha Hf. cbv zeta.
  pose proof (window_round_trip (window o) Hb Ha Hf) as Hw.
  each_overlay o; run_menu; cbn [window] in Hw;
    (split; [reflexivity |]); (split; [exact Hw |]); eexists; repeat split.
Qed.

(** The overlay as created, with the menu asked for at (640, 360). *)
Lemma hide_menu_undoes_show_menu_witness :
  let o := init true 0 in
  window (snd (hide_menu (snd (show_menu 640 360 o)))) = window o.
Proof.
  intros o.
  apply (hide_menu_undoes_show_menu 640 360 o eq_refl eq_refl eq_refl).
Defined.

(** *** The methods of the source and the methods as specified *)

(** X27.  What the exception in the menu's show costs the overlay.  Next
    to a show_menu that runs to its end (the one of [SpecifiedOverlay],
    where the menu's show returns), the show_menu of the source leaves the
    same window style, opacity, canvas, error markers and pending timers;
    the one difference is the menu-visible flag, set to true there and left
    as it was here.  hide_menu is the same in both on all of these, the
    flag included. *)
Theorem show_menu_loses_the_flag_only (x y : Z) (o : overlay) :
  let real := window (snd (show_menu x y o)) in
  let whole := SpecifiedOverlay.show_menu x y (window o) in
  (OverlayWindow.win32 real = OverlayWindow.win32 whole /\
   OverlayWindow.ex_style real = OverlayWindow.ex_style whole /\
   OverlayWindow.alpha real = OverlayWindow.alpha whole /\
   OverlayWindow.canvas real = OverlayWindow.canvas whole /\
   OverlayWindow.error_markers real = OverlayWindow.error_markers whole /\
   OverlayWindow.pending real = OverlayWindow.pending whole) /\
  (OverlayWindow.is_menu_visible whole = true /\
   OverlayWindow.is_menu_visible real = OverlayWindow.is_menu_visible (window o)) /\
  (let real := window (snd (hide_menu o)) in
   let whole := SpecifiedOverlay.hide_menu (window o) in
   OverlayWindow.win32 real = OverlayWindow.win32 whole /\
   OverlayWindow.ex_style real = OverlayWindow.ex_style whole /\
   OverlayWindow.alpha real = OverlayWindow.alpha whole /\
   OverlayWindow.canvas real = OverlayWindow.canvas whole /\
   OverlayWindow.error_markers real = OverlayWindow.error_markers whole /\
   OverlayWindow.pending real = OverlayWindow.pending whole /\
   OverlayWindow.is_menu_visible real = OverlayWindow.is_menu_visible whole).
Proof.
  cbv zeta.
  destruct (show_menu_outcome x y o) as (_ & Hs & _).
  destruct (hide_menu_outcome o) as (_ & Hh & _).
  rewrite Hs, Hh.
  unfold SpecifiedOverlay.show_menu, SpecifiedOverlay.hide_menu,
    OverlayWindow._disable_click_through, OverlayWindow._enable_click_through.
  destruct (window o) as [win st al cv em fl pd]; destruct win;
    cbn [OverlayWindow.win32 OverlayWindow.set_ex_style OverlayWindow.set_alpha
         OverlayWindow.set_is_menu_visible
         OverlayWindow.ex_style OverlayWindow.alpha OverlayWindow.canvas
         OverlayWindow.error_markers
         OverlayWindow.is_menu_visible OverlayWindow.pending];
    repeat split.
Qed.

End OverlayMenuMore.


(** ** The clipboard loop of core/text_monitor.py *)

Module LoopMore.
Import Py Exec Window TextMonitor TextMonitorLoop.

Lemma injections_app (t u : list event) :
  injections (t ++ u) = injections t ++ injections u.
Proof. unfold injections. apply filter_app. Qed.

Lemma get_active_window_state (p : surroundings) (d : desktop) :
  snd (get_active_window p d) = d /\
  exists w, fst (get_active_window p d) = Ret w.
Proof.
  unfold get_active_window, try_except, mbind, exec_bind, bind, answer.
  destruct (GetForegroundWindow p) as [h|]; cbn; [| eauto].
  destruct (decide (h = 0)); cbn; [eauto |].
  destruct (GetWindowText p h); cbn; [| eauto].
  destruct (GetClassName p h); cbn; [| eauto].
  destruct (GetWindowRect p h); cbn; eauto.
Qed.

Lemma get_active_window_editor (lower_other : N -> list N) (p : surroundings) (d : desktop) :
  editor_in_front lower_other p ->
  exists w, get_active_window p d = (Ret (Some w), d) /\
            is_text_editor lower_other (Some w) = true.
Proof.
  intros (h & t & c & r & Hh & Hne & Ht & Hc & Hr & He).
  eexists. split; [| exact He].
  unfold get_active_window, try_except, mbind, exec_bind, bind, answer.
  rewrite Hh. cbn. rewrite decide_False by exact Hne. cbn.
  rewrite Ht, Hc, Hr. reflexivity.
Qed.

(** The cursor part of a tick leaves the clipboard, the application and
    the recorded text alone. *)
Lemma watch_cursor_quiet (p : surroundings) (d : desktop) :
  let d' := snd (watch_cursor p d) in
  clipboard d' = clipboard d /\ document d' = document d /\ selected d' = selected d /\
  injections (trace d') = injections (trace d) /\
  last_text (self d') = last_text (self d) /\
  last_change_time (self d') = last_change_time (self d) /\
  debounce_time (self d') = debounce_time (self d).
Proof.
  cbv zeta.
  unfold watch_cursor, get_cursor_position, try_except, platform_call, mbind, exec_bind,
    bind, get, update_self, modify, invoke, pass.
  destruct d as [m clip doc sel fs tr]. cbn.
  destruct fs as [|[|] fs]; cbn;
    repeat case_decide; cbn; repeat case_match; cbn;
    rewrite ?injections_app, ?app_nil_r; repeat split.
Qed.

Lemma set_same_pointer (m : TextMonitor) :
  set_last_cursor_pos (last_cursor_pos m) m = m.
Proof. destruct m; reflexivity. Qed.

(** Without faults and with a cursor callback that returns. *)
Lemma watch_cursor_clean (p : surroundings) (d : desktop) :
  faults d = [] ->
  (forall c, cursor_change_callback (self d) = Some c -> callback_raises p c = false) ->
  watch_cursor p d =
    (Ret tt,
     {| self := set_last_cursor_pos (pointer p) (self d); clipboard := clipboard d;
        document := document d; selected := selected d; faults := [];
        trace := trace d ++ cursor_notice (self d) (pointer p) |}).
Proof.
  intros Hf Hc.
  unfold watch_cursor, get_cursor_position, try_except, platform_call, mbind, exec_bind,
    bind, get, update_self, modify, invoke, pass, cursor_notice.
  rewrite Hf.
  destruct d as [m clip doc sel fs tr]. cbn in *. subst fs.
  destruct (decide (pointer p = last_cursor_pos m)) as [-> | Hne]; cbn.
  - rewrite set_same_pointer, app_nil_r. reflexivity.
  - destruct (cursor_change_callback m) as [c|] eqn:Hcb; cbn.
    + rewrite (Hc c eq_refl). reflexivity.
    + rewrite app_nil_r. reflexivity.
Qed.

(** A capture without faults: the document is read whole, the clipboard
    and the selection are put back. *)
Lemma capture_clean (d : desktop) :
  faults d = [] ->
  capture_text_via_clipboard d =
    (Ret (document d),
     {| self := self d; clipboard := clipboard d; document := document d;
        selected := false; faults := [];
        trace := trace d ++ round_trip (clipboard d) |}).
Proof.
  destruct d as [m clip doc sel fs tr]. cbn. intros ->.
  unfold capture_text_via_clipboard, round_trip.
  destruct doc as [|c doc]; cbv -[app]; rewrite <- !app_assoc; reflexivity.
Qed.

Lemma watch_text_idle (p : surroundings) (d : desktop) :
  ~ due p (self d) -> watch_text p d = (Ret tt, d).
Proof.
  intros H. unfold watch_text, mbind, exec_bind, bind, get. cbn.
  rewrite decide_False by exact H. reflexivity.
Qed.

Lemma watch_text_clean (p : surroundings) (d : desktop) :
  due p (self d) -> faults d = [] ->
  let changed := truthy (document d) && negb (bool_decide (document d = last_text (self d))) in
  snd (watch_text p d) =
    {| self := if changed
               then set_last_change_time (time_in_loop p) (set_last_text (document d) (self d))
               else self d;
       clipboard := clipboard d; document := document d; selected := false; faults := [];
       trace := trace d ++ round_trip (clipboard d) ++
                (if changed then text_notice (self d) (document d) else []) |}.
Proof.
  intros Hdue Hf. cbv zeta.
  unfold watch_text, mbind, exec_bind, bind, get. cbn [fst snd].
  rewrite decide_True by exact Hdue.
  rewrite (capture_clean d Hf). cbn [self].
  destruct (truthy (document d) && negb (bool_decide (document d = last_text (self d)))).
  - unfold update_self, modify, text_notice, invoke, pass. cbn.
    destruct (text_change_callback (self d)) as [c|]; cbn.
    + unfold log. cbn. rewrite <- app_assoc. reflexivity.
    + rewrite ?app_nil_r. reflexivity.
  - cbn. rewrite ?app_nil_r. reflexivity.
Qed.

(** One tick with an editor in front, the debounce over, no fault and a
    cursor callback that returns: the state it ends in. *)
Lemma due_tick_state (lower_other : N -> list N) (p : surroundings) (d : desktop) :
  editor_in_front lower_other p -> due p (self d) -> faults d = [] ->
  (forall c, cursor_change_callback (self d) = Some c -> callback_raises p c = false) ->
  let changed := truthy (document d) && negb (bool_decide (document d = last_text (self d))) in
  let seen := set_last_cursor_pos (pointer p) (self d) in
  snd (tick lower_other p d) =
    {| self := if changed
               then set_last_change_time (time_in_loop p) (set_last_text (document d) seen)
               else seen;
       clipboard := clipboard d; document := document d; selected := false; faults := [];
       trace := trace d ++ cursor_notice (self d) (pointer p) ++ round_trip (clipboard d) ++
                (if changed then text_notice (self d) (document d) else []) |}.
Proof.
  intros He Hdue Hf Hc. cbv zeta.
  destruct (get_active_window_editor lower_other p d He) as (w & Hw & Hed).
  unfold tick, try_except, mbind, exec_bind, bind. rewrite Hw, Hed.
  rewrite (watch_cursor_clean p d Hf Hc).
  match goal with
  | |- context [watch_text p ?d1] =>
      pose proof (watch_text_clean p d1 Hdue eq_refl) as Ht
  end.
  cbv zeta in Ht. cbn [self clipboard document trace selected faults] in Ht.
  match goal with
  | |- context [watch_text p ?d1] => destruct (watch_text p d1) as [[[]|] d2]
  end; cbn [snd] in Ht |- *; rewrite Ht; rewrite <- !app_assoc; reflexivity.
Qed.

(** X24.  A tick that has nothing to do does nothing to the desktop.
    With no text editor in front the tick changes nothing at all, the
    pointer is not even read.  With an editor in front but less than
    debounce_time since the last recorded change, no key is sent and the
    clipboard is neither read nor written; the clipboard, the document, its
    selection, last_text and last_change_time are as before, whatever
    faults and callbacks do. *)
Theorem idle_tick_leaves_the_desktop (lower_other : N -> list N) (p : surroundings)
    (d : desktop) :
  let d' := snd (tick lower_other p d) in
  (is_text_editor lower_other (value_or None (fst (get_active_window p d))) = false ->
   d' = d) /\
  (~ due p (self d) ->
   clipboard d' = clipboard d /\ document d' = document d /\ selected d' = selected d /\
   injections (trace d') = injections (trace d) /\
   last_text (self d') = last_text (self d) /\
   last_change_time (self d') = last_change_time (self d)).
Proof.
  cbv zeta.
  destruct (get_active_window_state p d) as (Hs & w & Hw).
  unfold tick, try_except, mbind, exec_bind, bind.
  destruct (get_active_window p d) as [r d0]. cbn [fst snd] in Hs, Hw. subst d0 r.
  cbn [value_or fst snd].
  destruct (is_text_editor lower_other w).
  2: { cbn. split; [reflexivity | intros _; repeat split]. }
  split; [intros ?; discriminate |]. intros Hdue.
  destruct (watch_cursor_quiet p d) as (H1 & H2 & H3 & H4 & H5 & H6 & H7).
  destruct (watch_cursor p d) as [[[]|] d1]; cbn [snd] in *.
  - rewrite watch_text_idle; [cbn; repeat split; assumption |].
    unfold due in *. rewrite H6, H7. exact Hdue.
  - cbn. repeat split; assumption.
Qed.

(** X25.  A due tick runs the whole clipboard round trip.  With a text
    editor in front, debounce_time passed since the last recorded change,
    no platform fault and a cursor callback that returns, the tick tells a
    cursor move, then reads the clipboard, empties it, sends Ctrl+A and
    Ctrl+C, reads the clipboard, writes the old content back and sends
    Escape; the clipboard holds what it held before.  A captured text (the
    document, with an editor that answers select-all and copy) that is not
    empty and differs from last_text is stored with the loop's clock
    reading and then told to the text callback; otherwise the record keeps
    its text and its time.  There is no test for typing in this loop: the
    keys go to the editor whenever the debounce is over. *)
Theorem due_tick_runs_the_round_trip (lower_other : N -> list N) (p : surroundings)
    (d : desktop) :
  editor_in_front lower_other p -> due p (self d) -> faults d = [] ->
  (forall c, cursor_change_callback (self d) = Some c -> callback_raises p c = false) ->
  let d' := snd (tick lower_other p d) in
  let changed := truthy (document d) && negb (bool_decide (document d = last_text (self d))) in
  clipboard d' = clipboard d /\
  trace d' = trace d ++ cursor_notice (self d) (pointer p) ++ round_trip (clipboard d) ++
             (if changed then text_notice (self d) (document d) else []) /\
  last_text (self d') = (if changed then document d else last_text (self d)) /\
  last_change_time (self d') =
    (if changed then time_in_loop p else last_change_time (self d)) /\
  last_cursor_pos (self d') = pointer p.
Proof.
  intros He Hdue Hf Hc. cbv zeta.
  rewrite (due_tick_state lower_other p d He Hdue Hf Hc).
  cbn [self clipboard trace].
  destruct (truthy (document d) && negb (bool_decide (document d = last_text (self d))));
    repeat split.
Qed.

Lemma notepad_is_editor (now : Z) (pos : Z * Z) :
  editor_in_front ascii_only (notepad_in_front now pos).
Proof.
  exists 1028, (lit "draft.txt - Notepad"), (lit "Notepad"), (0, 0, 800, 600).
  split; [reflexivity |]. split; [discriminate |].
  split; [reflexivity |]. split; [reflexivity |]. split; [reflexivity |].
  vm_compute. reflexivity.
Qed.

(** Notepad holding "draft", "abc" on the clipboard, five seconds on the
    clock: the draft is recorded and the clipboard is back. *)
Lemma due_tick_runs_the_round_trip_witness :
  let d := boot (lit "abc") (lit "draft") [] in
  let d' := snd (tick ascii_only (notepad_in_front 5000 (0, 0)) d) in
  clipboard d' = lit "abc" /\ last_text (self d') = lit "draft".
Proof.
  intros d d'.
  assert (Hdue : due (notepad_in_front 5000 (0, 0)) (self d)) by (unfold due; cbn; lia).
  assert (Hc : forall c, cursor_change_callback (self d) = Some c ->
                         callback_raises (notepad_in_front 5000 (0, 0)) c = false)
    by (intros c _; reflexivity).
  destruct (due_tick_runs_the_round_trip ascii_only (notepad_in_front 5000 (0, 0)) d
              (notepad_is_editor 5000 (0, 0)) Hdue eq_refl Hc)
    as (H1 & _ & H3 & _).
  split; [exact H1 | exact H3].
Defined.

(** *** Ticks over an unchanged document *)

Lemma cursor_notice_is_no_injection (m : TextMonitor) (pos : Z * Z) :
  injections (cursor_notice m pos) = [].
Proof.
  unfold cursor_notice. case_decide; [reflexivity |].
  destruct (cursor_change_callback m); reflexivity.
Qed.

Lemma unchanged_document (d : desktop) :
  document d = [] \/ document d = last_text (self d) ->
  truthy (document d) && negb (bool_decide (document d = last_text (self d))) = false.
Proof.
  intros [H | H].
  - rewrite H. reflexivity.
  - rewrite (bool_decide_eq_true_2 _ H). apply andb_false_r.
Qed.

(** X26.  An unchanged document is captured again on every tick.  While
    an editor is in front, the debounce is over, nothing faults and the
    cursor callback returns, each tick over a document that is empty or
    equal to last_text repeats the whole round trip on the editor and the
    clipboard (seven clipboard and key calls a tick), and nothing is
    recorded: last_text and last_change_time stay, so the next tick is due
    as well. *)
Theorem unchanged_text_is_captured_every_tick (lower_other : N -> list N)
    (ps : list surroundings) (d : desktop) :
  faults d = [] ->
  document d = [] \/ document d = last_text (self d) ->
  Forall (fun p => editor_in_front lower_other p /\ due p (self d) /\
                   forall c, cursor_change_callback (self d) = Some c ->
                             callback_raises p c = false) ps ->
  injections (trace (ticks lower_other ps d)) =
    injections (trace d) ++ concat (map (fun _ => round_trip (clipboard d)) ps) /\
  clipboard (ticks lower_other ps d) = clipboard d /\
  document (ticks lower_other ps d) = document d /\
  last_text (self (ticks lower_other ps d)) = last_text (self d) /\
  last_change_time (self (ticks lower_other ps d)) = last_change_time (self d).
Proof.
  revert d. induction ps as [|p ps IH]; intros d Hf Hu Hall.
  { cbn. rewrite app_nil_r. repeat split. }
  apply Forall_cons in Hall as [(He & Hdue & Hc) Hall].
  pose proof (due_tick_state lower_other p d He Hdue Hf Hc) as Hd.
  cbv zeta in Hd. rewrite (unchanged_document d Hu) in Hd.
  unfold ticks. cbn [fold_left]. fold (ticks lower_other ps (snd (tick lower_other p d))).
  rewrite Hd.
  match goal with
  | |- context [ticks lower_other ps ?d1] =>
      destruct (IH d1) as (I1 & I2 & I3 & I4 & I5)
  end.
  - reflexivity.
  - exact Hu.
  - eapply Forall_impl; [exact Hall |]. intros q (Hq1 & Hq2 & Hq3).
    split; [exact Hq1 |]. split; [exact Hq2 | exact Hq3].
  - cbn [self clipboard document trace last_text last_change_time set_last_cursor_pos]
      in I1, I2, I3, I4, I5.
    rewrite I1, I2, I3, I4, I5.
    rewrite !injections_app, cursor_notice_is_no_injection, app_nil_r.
    cbn [map concat]. rewrite <- !app_assoc.
    repeat split.
Qed.

(** Two ticks, half a second apart, over an empty Notepad: fourteen
    clipboard and key calls. *)
Lemma unchanged_text_is_captured_every_tick_witness :
  let d := boot (lit "abc") [] [] in
  let ps := [notepad_in_front 5000 (0, 0); notepad_in_front 5500 (3, 4)] in
  length (injections (trace (ticks ascii_only ps d))) = 14%nat.
Proof.
  intros d ps.
  assert (Hall : Forall (fun p => editor_in_front ascii_only p /\ due p (self d) /\
                                  forall c, cursor_change_callback (self d) = Some c ->
                                            callback_raises p c = false) ps).
  { repeat constructor; try apply notepad_is_editor; unfold due; cbn; lia. }
  destruct (unchanged_text_is_captured_every_tick ascii_only ps d eq_refl
              (or_introl eq_refl) Hall) as (H1 & _).
  rewrite H1. reflexivity.
Defined.

End LoopMore.
